(** * Unified AI Task Management System: a Rocq model of [combined_app.py]

    The development follows the script top-down.  Python values are modelled
    by the types they have at run time: task dictionaries as records, the
    session list as a Rocq list, [float] as the binary64 values that can
    actually occur (module [B64]), exceptions as an error result.  The parts
    of the third-party libraries the script calls are modelled next to the
    call sites: NLTK's stopword list and Porter stemmer (module [Nltk]), the
    pandas operations [value_counts]/[idxmin]/[unique] (module [Pandas]),
    scikit-learn's label encoder and metrics (module [Sklearn]).  Components
    that are opaque by nature (the sentence-embedding network, the tree
    learner, the hyper-parameter sampler, the random split) are parameters. *)

From Stdlib Require Import ZArith List Lia Bool Arith String Ascii.
From Stdlib Require Import Floats.SpecFloat.
Import ListNotations.

(** ** Python results *)

Inductive py_error : Type :=
| ZeroDivisionError
| OverflowError
| ValueError
| IndexError.

Inductive result (A : Type) : Type :=
| Ok (a : A)
| Raise (e : py_error).
Arguments Ok {A} a.
Arguments Raise {A} e.

Definition bind {A B : Type} (r : result A) (k : A -> result B) : result B :=
  match r with
  | Ok a => k a
  | Raise e => Raise e
  end.

Notation "x <- r ;; k" := (bind r (fun x => k))
  (at level 61, r at next level, right associativity).

(** ** Binary64 arithmetic on non-negative values

    Every float the script computes is a quotient of two counts, such a
    quotient times 100, or a rounding of one of these to two decimals: it is
    never negative.  [Fin m e] is the number [m * 2^e].  Operations round to
    nearest, ties to even, as IEEE 754 prescribes and as CPython's [int / int],
    [float * float] and [round] do. *)

Module B64.

Open Scope Z_scope.

Inductive float64 : Type :=
| Fin (m e : Z)
| Inf
| NaN.

Definition prec : Z := 53.
Definition emin : Z := -1074.
Definition emax : Z := 1024.

Definition zero : float64 := Fin 0 emin.

(** [a / b] rounded to the nearest integer, ties to even ([0 <= a], [0 < b]). *)
Definition rne_div (a b : Z) : Z :=
  let q := a / b in
  match 2 * (a mod b) ?= b with
  | Lt => q
  | Gt => q + 1
  | Eq => if Z.even q then q else q + 1
  end.

(** Exponent of the unit in the last place of [a / b], counted from [emin]:
    the quotient has [Z.log2 (a * 2^1074 / b) + 1] bits above [2^emin], of
    which [prec] are kept; a subnormal quotient keeps them all. *)
Definition ulp_shift (a b : Z) : Z :=
  Z.max (Z.log2 (a * 2 ^ (- emin) / b) - (prec - 1)) 0.

(** [a / (b * 2^e)] rounded to an integer. *)
Definition scaled_rne (a b e : Z) : Z :=
  if 0 <=? e then rne_div a (b * 2 ^ e) else rne_div (a * 2 ^ (- e)) b.

(** Canonical form: a mantissa that rounded up to [2^prec] moves to the next
    binade; an exponent beyond the largest finite one overflows. *)
Definition normalize (m e : Z) : float64 :=
  let '(m', e') := if m =? 2 ^ prec then (2 ^ (prec - 1), e + 1) else (m, e) in
  if m' =? 0 then zero
  else if e' <=? emax - prec then Fin m' e' else Inf.

(** The binary64 value nearest to the rational [a / b]. *)
Definition rn_ratio (a b : Z) : float64 :=
  let e := ulp_shift a b + emin in
  normalize (scaled_rne a b e) e.

Definition of_int (z : Z) : float64 := rn_ratio z 1.

(** The floats [1.0] and [100.0]. *)
Definition one : float64 := Fin 4503599627370496 (-52).
Definition hundred : float64 := Fin 7036874417766400 (-46).

Definition is_zero (x : float64) : bool :=
  match x with
  | Fin m _ => m =? 0
  | _ => false
  end.

(** [x * y]: the exact product [m1 * m2 * 2^(e1 + e2)], rounded once. *)
Definition mul (x y : float64) : float64 :=
  match x, y with
  | NaN, _ | _, NaN => NaN
  | Fin m1 e1, Fin m2 e2 =>
      let e := e1 + e2 in
      rn_ratio (m1 * m2 * 2 ^ Z.max e 0) (2 ^ Z.max (- e) 0)
  | Inf, Inf => Inf
  | Inf, z | z, Inf => if is_zero z then NaN else Inf
  end.

(** [x * 10^nd] rounded to an integer, ties to even: the decimal digits that
    [round(x, nd)] keeps. *)
Definition decimal_digits (x : float64) (nd : nat) : option Z :=
  match x with
  | Fin m e => Some (scaled_rne (m * 10 ^ Z.of_nat nd) 1 (- e))
  | _ => None
  end.

(** [round(x, nd)] for [nd >= 0]: CPython rounds the exact value of [x] to
    [nd] decimals correctly (ties to even) and converts the decimal string
    back to the nearest float; infinities and NaN are returned unchanged. *)
Definition round (x : float64) (nd : nat) : float64 :=
  match decimal_digits x nd with
  | Some k => rn_ratio k (10 ^ Z.of_nat nd)
  | None => x
  end.

(** The value of a float in units of [2^emin]; every finite binary64 is a
    whole number of them.  [+inf] sits just above the largest finite value. *)
Definition U : Z := 2 ^ (- emin).
Definition top : Z := 2 ^ (emax - emin).

Definition units (x : float64) : Z :=
  match x with
  | Fin m e => m * 2 ^ (e - emin)
  | _ => top
  end.

Definition leb (x y : float64) : bool :=
  match x, y with
  | NaN, _ | _, NaN => false
  | _, _ => units x <=? units y
  end.

Definition wf (x : float64) : Prop :=
  match x with
  | Fin m e => 0 <= m /\ emin <= e
  | _ => True
  end.

(** The rounded quotient of [a / b] in units of [2^emin], before overflow. *)
Definition round_units (a b : Z) : Z :=
  rne_div (a * U) (b * 2 ^ ulp_shift a b) * 2 ^ ulp_shift a b.

(** Reading a value in the Standard Library's IEEE 754 format. *)
Definition to_spec_float (x : float64) : spec_float :=
  match x with
  | Fin (Zpos p) e => S754_finite false p e
  | Fin _ _ => S754_zero false
  | Inf => S754_infinity false
  | NaN => S754_nan
  end.

Definition SF_of_Z (z : Z) : spec_float := binary_normalize prec emax z 0 false.

Definition SF_eqb (x y : spec_float) : bool :=
  match x, y with
  | S754_zero s, S754_zero s' => Bool.eqb s s'
  | S754_infinity s, S754_infinity s' => Bool.eqb s s'
  | S754_nan, S754_nan => true
  | S754_finite s m e, S754_finite s' m' e' =>
      Bool.eqb s s' && Pos.eqb m m' && Z.eqb e e'
  | _, _ => false
  end.

End B64.

(** ** Python numbers *)

Inductive pyval : Type :=
| PyInt (z : Z)
| PyFloat (x : B64.float64).

(** [a / b] on non-negative ints: the correctly rounded quotient. *)
Definition int_truediv (a b : nat) : result B64.float64 :=
  match b with
  | O => Raise ZeroDivisionError
  | _ =>
      match B64.rn_ratio (Z.of_nat a) (Z.of_nat b) with
      | B64.Inf => Raise OverflowError
      | q => Ok q
      end
  end.

(** [x * k] for a float [x] and a non-negative int [k]: the int is converted
    first. *)
Definition float_mul_int (x : B64.float64) (k : nat) : result B64.float64 :=
  match B64.of_int (Z.of_nat k) with
  | B64.Inf => Raise OverflowError
  | y => Ok (B64.mul x y)
  end.

Definition py_sum (l : list nat) : nat := fold_left Nat.add l 0%nat.

Definition py_eq_zero (v : pyval) : bool :=
  match v with
  | PyInt z => Z.eqb z 0
  | PyFloat x => B64.is_zero x
  end.

(** ** Strings

    Python [str] values are modelled as strings of 8-bit characters, read as
    the code points below 256 (Latin-1).  On this range [str.lower()] works
    character by character and stays within the range: the ASCII capitals
    and the capitals of Latin-1 move up by 32, nothing else changes, and no
    character that is not an ASCII letter becomes one.

    Text with code points from 256 on is outside the model.  There
    [str.lower()] can turn a character that is not an ASCII letter into one:
    U+212A (Kelvin sign) becomes [k], U+0130 becomes [i] followed by U+0307.
    Properties that would fail on such text are therefore stated on the
    lower-cased text, on the output of the preprocessor, or for ASCII text. *)

Open Scope string_scope.

Definition is_upper (c : ascii) : bool :=
  let n := nat_of_ascii c in (65 <=? n)%nat && (n <=? 90)%nat.

Definition is_lower (c : ascii) : bool :=
  let n := nat_of_ascii c in (97 <=? n)%nat && (n <=? 122)%nat.

Definition is_letter (c : ascii) : bool := is_upper c || is_lower c.

(** The characters [str.split()] treats as separators. *)
Definition is_space (c : ascii) : bool :=
  let n := nat_of_ascii c in
  ((9 <=? n)%nat && (n <=? 13)%nat) || ((28 <=? n)%nat && (n <=? 32)%nat)
  || (n =? 133)%nat || (n =? 160)%nat.

(** The capital letters of Latin-1 beyond ASCII: U+00C0 to U+00DE without
    the multiplication sign U+00D7. *)
Definition is_latin1_upper (c : ascii) : bool :=
  let n := nat_of_ascii c in
  (192 <=? n)%nat && (n <=? 222)%nat && negb (n =? 215)%nat.

(** [c.lower()] for a code point below 256. *)
Definition lower_char (c : ascii) : ascii :=
  if is_upper c || is_latin1_upper c then ascii_of_nat (nat_of_ascii c + 32) else c.

Fixpoint map_string (f : ascii -> ascii) (s : string) : string :=
  match s with
  | EmptyString => EmptyString
  | String c s' => String (f c) (map_string f s')
  end.

Fixpoint forallb_string (p : ascii -> bool) (s : string) : bool :=
  match s with
  | EmptyString => true
  | String c s' => p c && forallb_string p s'
  end.

(** [text.lower()] *)
Definition str_lower (s : string) : string := map_string lower_char s.

(** [re.sub(r"[^A-Za-z]", " ", s)] *)
Definition sub_non_letters (s : string) : string :=
  map_string (fun c => if is_letter c then c else " "%char) s.

(** [s.split()]: the maximal runs of non-separator characters.  [cur] is the
    run being read. *)
Fixpoint split_from (cur : string) (s : string) : list string :=
  match s with
  | EmptyString => if String.eqb cur "" then [] else [cur]
  | String c s' =>
      if is_space c then
        if String.eqb cur "" then split_from "" s' else cur :: split_from "" s'
      else split_from (cur ++ String c "") s'
  end.

Definition str_split (s : string) : list string := split_from "" s.

(** [" ".join(tokens)] *)
Fixpoint str_join (tokens : list string) : string :=
  match tokens with
  | [] => ""
  | [t] => t
  | t :: rest => t ++ " " ++ str_join rest
  end.

Definition ends_with (w suffix : string) : bool :=
  let lw := String.length w in
  let ls := String.length suffix in
  (ls <=? lw)%nat && String.eqb (substring (lw - ls) ls w) suffix.

(** [w[:-k]] for [k <= len(w)] *)
Definition drop_last (k : nat) (w : string) : string :=
  substring 0 (String.length w - k) w.

(** [w[-k]] *)
Definition char_from_end (k : nat) (w : string) : option ascii :=
  if (k <=? String.length w)%nat then String.get (String.length w - k) w else None.

Definition char_is (o : option ascii) (c : ascii) : bool :=
  match o with
  | Some d => Ascii.eqb c d
  | None => false
  end.

Definition mem_string (w : string) (l : list string) : bool :=
  existsb (String.eqb w) l.

(** A character of a joined list of words: a lower-case letter or the
    separating space. *)
Definition joined_char (c : ascii) : bool := is_lower c || Ascii.eqb c " ".

(** All 256 characters. *)
Definition all_chars : list ascii := map ascii_of_nat (seq 0 256).

(** ** NLTK: English stopwords and the Porter stemmer

    [stopwords.words('english')] and [PorterStemmer().stem] belong to NLTK,
    not to the script.  They are written out here so that the preprocessor
    can be run; the general results about the preprocessor take the stopword
    list and the stemmer as parameters and do not depend on this module. *)

Module Nltk.

Definition english_stopwords : list string :=
  [ "i"; "me"; "my"; "myself"; "we"; "our"; "ours"; "ourselves"; "you";
    "you're"; "you've"; "you'll"; "you'd"; "your"; "yours"; "yourself";
    "yourselves"; "he"; "him"; "his"; "himself"; "she"; "she's"; "her";
    "hers"; "herself"; "it"; "it's"; "its"; "itself"; "they"; "them";
    "their"; "theirs"; "themselves"; "what"; "which"; "who"; "whom"; "this";
    "that"; "that'll"; "these"; "those"; "am"; "is"; "are"; "was"; "were";
    "be"; "been"; "being"; "have"; "has"; "had"; "having"; "do"; "does";
    "did"; "doing"; "a"; "an"; "the"; "and"; "but"; "if"; "or"; "because";
    "as"; "until"; "while"; "of"; "at"; "by"; "for"; "with"; "about";
    "against"; "between"; "into"; "through"; "during"; "before"; "after";
    "above"; "below"; "to"; "from"; "up"; "down"; "in"; "out"; "on"; "off";
    "over"; "under"; "again"; "further"; "then"; "once"; "here"; "there";
    "when"; "where"; "why"; "how"; "all"; "any"; "both"; "each"; "few";
    "more"; "most"; "other"; "some"; "such"; "no"; "nor"; "not"; "only";
    "own"; "same"; "so"; "than"; "too"; "very"; "s"; "t"; "can"; "will";
    "just"; "don"; "don't"; "should"; "should've"; "now"; "d"; "ll"; "m";
    "o"; "re"; "ve"; "y"; "ain"; "aren"; "aren't"; "couldn"; "couldn't";
    "didn"; "didn't"; "doesn"; "doesn't"; "hadn"; "hadn't"; "hasn"; "hasn't";
    "haven"; "haven't"; "isn"; "isn't"; "ma"; "mightn"; "mightn't"; "mustn";
    "mustn't"; "needn"; "needn't"; "shan"; "shan't"; "shouldn"; "shouldn't";
    "wasn"; "wasn't"; "weren"; "weren't"; "won"; "won't"; "wouldn";
    "wouldn't" ].

(** Irregular forms looked up before any rule is tried. *)
Definition pool : list (string * string) :=
  [ ("sky", "sky"); ("skies", "sky"); ("dying", "die"); ("lying", "lie");
    ("tying", "tie"); ("news", "news"); ("innings", "inning");
    ("inning", "inning"); ("outings", "outing"); ("outing", "outing");
    ("cannings", "canning"); ("canning", "canning"); ("howe", "howe");
    ("proceed", "proceed"); ("exceed", "exceed"); ("succeed", "succeed") ].

Fixpoint pool_lookup (w : string) (l : list (string * string)) : option string :=
  match l with
  | [] => None
  | (k, v) :: l' => if String.eqb w k then Some v else pool_lookup w l'
  end.

Definition is_vowel_letter (c : ascii) : bool :=
  mem_string (String c "") ["a"; "e"; "i"; "o"; "u"].

(** [consonants prev w]: for each position of [w], whether the letter is a
    consonant; a [y] is one at the start of the word or after a vowel.
    [prev] is the flag of the preceding letter. *)
Fixpoint consonants (prev : option bool) (w : string) : list bool :=
  match w with
  | EmptyString => []
  | String c w' =>
      let f :=
        if is_vowel_letter c then false
        else if Ascii.eqb c "y" then
               match prev with
               | None => true
               | Some p => negb p
               end
             else true in
      f :: consonants (Some f) w'
  end.

(** Number of vowel-consonant transitions: the [m] of [C](VC)^m[V]. *)
Fixpoint count_vc (flags : list bool) : nat :=
  match flags with
  | false :: ((true :: _) as rest) => S (count_vc rest)
  | _ :: rest => count_vc rest
  | [] => O
  end.

Definition measure (stem : string) : nat := count_vc (consonants None stem).

Definition has_positive_measure (stem : string) : bool := (0 <? measure stem)%nat.

Definition contains_vowel (stem : string) : bool :=
  existsb negb (consonants None stem).

(** Consonant flag of the [k]-th letter from the end. *)
Definition consonant_from_end (k : nat) (w : string) : bool :=
  let flags := consonants None w in
  if (k <=? List.length flags)%nat
  then nth (List.length flags - k) flags false
  else false.

Definition ends_double_consonant (w : string) : bool :=
  (2 <=? String.length w)%nat
  && match char_from_end 1 w, char_from_end 2 w with
     | Some a, Some b => Ascii.eqb a b
     | _, _ => false
     end
  && consonant_from_end 1 w.

Definition ends_cvc (w : string) : bool :=
  ((3 <=? String.length w)%nat
   && consonant_from_end 3 w
   && negb (consonant_from_end 2 w)
   && consonant_from_end 1 w
   && negb (char_is (char_from_end 1 w) "w"
            || char_is (char_from_end 1 w) "x"
            || char_is (char_from_end 1 w) "y"))
  || ((String.length w =? 2)%nat
      && negb (consonant_from_end 2 w)
      && consonant_from_end 1 w).

(** A rewriting rule: the suffix to match, its replacement, and a condition
    on the stem left once the suffix is removed.  [DoubleConsonant] is the
    pattern written ["*d"]. *)
Inductive suffix_pattern : Type :=
| Suffix (s : string)
| DoubleConsonant.

Definition rule : Type := (suffix_pattern * string * option (string -> bool))%type.

(** The first rule whose suffix matches decides: if its condition fails the
    word is returned unchanged and no further rule is tried. *)
Fixpoint apply_rule_list (word : string) (rules : list rule) : string :=
  match rules with
  | [] => word
  | (pat, replacement, condition) :: rest =>
      let holds stem :=
        match condition with
        | None => true
        | Some c => c stem
        end in
      match pat with
      | DoubleConsonant =>
          if ends_double_consonant word then
            let stem := drop_last 2 word in
            if holds stem then stem ++ replacement else word
          else apply_rule_list word rest
      | Suffix s =>
          if ends_with word s then
            let stem := drop_last (String.length s) word in
            if holds stem then stem ++ replacement else word
          else apply_rule_list word rest
      end
  end.

Definition step1a (word : string) : string :=
  if ends_with word "ies" && (String.length word =? 4)%nat
  then drop_last 3 word ++ "ie"
  else apply_rule_list word
         [ (Suffix "sses", "ss", None);
           (Suffix "ies", "i", None);
           (Suffix "ss", "ss", None);
           (Suffix "s", "", None) ].

Definition last_letter (w : string) : string :=
  match char_from_end 1 w with
  | Some c => String c ""
  | None => ""
  end.

Definition step1b (word : string) : string :=
  if ends_with word "ied" then
    if (String.length word =? 4)%nat
    then drop_last 3 word ++ "ie"
    else drop_last 3 word ++ "i"
  else if ends_with word "eed" then
    let stem := drop_last 3 word in
    if (0 <? measure stem)%nat then stem ++ "ee" else word
  else
    let intermediate :=
      if ends_with word "ed" && contains_vowel (drop_last 2 word)
      then Some (drop_last 2 word)
      else if ends_with word "ing" && contains_vowel (drop_last 3 word)
      then Some (drop_last 3 word)
      else None in
    match intermediate with
    | None => word
    | Some istem =>
        apply_rule_list istem
          [ (Suffix "at", "ate", None);
            (Suffix "bl", "ble", None);
            (Suffix "iz", "ize", None);
            (DoubleConsonant, last_letter istem,
             Some (fun _ => negb (mem_string (last_letter istem) ["l"; "s"; "z"])));
            (Suffix "", "e",
             Some (fun stem => (measure stem =? 1)%nat && ends_cvc stem)) ]
    end.

Definition step1c (word : string) : string :=
  apply_rule_list word
    [ (Suffix "y", "i",
       Some (fun stem => (1 <? String.length stem)%nat && consonant_from_end 1 stem)) ].

Definition step2_rules (word : string) : list rule :=
  [ (Suffix "ational", "ate", Some has_positive_measure);
    (Suffix "tional", "tion", Some has_positive_measure);
    (Suffix "enci", "ence", Some has_positive_measure);
    (Suffix "anci", "ance", Some has_positive_measure);
    (Suffix "izer", "ize", Some has_positive_measure);
    (Suffix "bli", "ble", Some has_positive_measure);
    (Suffix "alli", "al", Some has_positive_measure);
    (Suffix "entli", "ent", Some has_positive_measure);
    (Suffix "eli", "e", Some has_positive_measure);
    (Suffix "ousli", "ous", Some has_positive_measure);
    (Suffix "ization", "ize", Some has_positive_measure);
    (Suffix "ation", "ate", Some has_positive_measure);
    (Suffix "ator", "ate", Some has_positive_measure);
    (Suffix "alism", "al", Some has_positive_measure);
    (Suffix "iveness", "ive", Some has_positive_measure);
    (Suffix "fulness", "ful", Some has_positive_measure);
    (Suffix "ousness", "ous", Some has_positive_measure);
    (Suffix "aliti", "al", Some has_positive_measure);
    (Suffix "iviti", "ive", Some has_positive_measure);
    (Suffix "biliti", "ble", Some has_positive_measure);
    (Suffix "fulli", "ful", Some has_positive_measure);
    (Suffix "logi", "log", Some (fun _ => has_positive_measure (drop_last 3 word))) ].

(** ALLI -> AL is tried first and, when it applies, step 2 runs again on the
    result; the word gets shorter each time, [fuel] bounds the repetitions. *)
Fixpoint step2_fuel (fuel : nat) (word : string) : string :=
  match fuel with
  | O => apply_rule_list word (step2_rules word)
  | S fuel' =>
      if ends_with word "alli" && has_positive_measure (drop_last 4 word)
      then step2_fuel fuel' (drop_last 4 word ++ "al")
      else apply_rule_list word (step2_rules word)
  end.

Definition step2 (word : string) : string := step2_fuel (String.length word) word.

Definition step3 (word : string) : string :=
  apply_rule_list word
    [ (Suffix "icate", "ic", Some has_positive_measure);
      (Suffix "ative", "", Some has_positive_measure);
      (Suffix "alize", "al", Some has_positive_measure);
      (Suffix "iciti", "ic", Some has_positive_measure);
      (Suffix "ical", "ic", Some has_positive_measure);
      (Suffix "ful", "", Some has_positive_measure);
      (Suffix "ness", "", Some has_positive_measure) ].

Definition measure_gt_1 (stem : string) : bool := (1 <? measure stem)%nat.

Definition step4 (word : string) : string :=
  apply_rule_list word
    [ (Suffix "al", "", Some measure_gt_1);
      (Suffix "ance", "", Some measure_gt_1);
      (Suffix "ence", "", Some measure_gt_1);
      (Suffix "er", "", Some measure_gt_1);
      (Suffix "ic", "", Some measure_gt_1);
      (Suffix "able", "", Some measure_gt_1);
      (Suffix "ible", "", Some measure_gt_1);
      (Suffix "ant", "", Some measure_gt_1);
      (Suffix "ement", "", Some measure_gt_1);
      (Suffix "ment", "", Some measure_gt_1);
      (Suffix "ent", "", Some measure_gt_1);
      (Suffix "ion", "",
       Some (fun stem => measure_gt_1 stem
                         && mem_string (last_letter stem) ["s"; "t"]));
      (Suffix "ou", "", Some measure_gt_1);
      (Suffix "ism", "", Some measure_gt_1);
      (Suffix "ate", "", Some measure_gt_1);
      (Suffix "iti", "", Some measure_gt_1);
      (Suffix "ous", "", Some measure_gt_1);
      (Suffix "ive", "", Some measure_gt_1);
      (Suffix "ize", "", Some measure_gt_1) ].

Definition step5a (word : string) : string :=
  if ends_with word "e" then
    let stem := drop_last 1 word in
    if (1 <? measure stem)%nat then stem
    else if (measure stem =? 1)%nat && negb (ends_cvc stem) then stem
    else word
  else word.

Definition step5b (word : string) : string :=
  apply_rule_list word
    [ (Suffix "ll", "l", Some (fun _ => (1 <? measure (drop_last 1 word))%nat)) ].

(** [PorterStemmer().stem(word)] in the default mode. *)
Definition porter_stem (word : string) : string :=
  let stem := str_lower word in
  match pool_lookup word pool with
  | Some v => v
  | None =>
      if (String.length word <=? 2)%nat then stem
      else step5b (step5a (step4 (step3 (step2 (step1c (step1b (step1a stem)))))))
  end.

End Nltk.

(** ** Utility functions of the script *)

Section Preprocess.

(** The stemmer and the stopword list in use. *)
Variable stem : string -> string.
Variable stopwords : list string.

(** The tokens that survive the stopword filter, stemmed. *)
Definition preprocess_tokens (text : string) : list string :=
  let text := sub_non_letters (str_lower text) in
  let tokens := str_split text in
  map stem (filter (fun word => negb (mem_string word stopwords)) tokens).

Definition preprocess_text (text : string) : string :=
  str_join (preprocess_tokens text).

End Preprocess.

Definition nltk_preprocess_text : string -> string :=
  preprocess_text Nltk.porter_stem Nltk.english_stopwords.

(** ** Tasks *)

(** A task dictionary as [Add Task] builds it. *)
Record task : Type := mkTask {
  description : string;
  estimated_hours : B64.float64;
  due_date : string;
  category : string;
  priority : string;
  status : string
}.

Definition is_completed (t : task) : bool := String.eqb (status t) "Completed".

(** [calculate_completion_rate(tasks)].  An empty list is falsy and yields
    the int [0]; otherwise the count of completed tasks is divided by the
    length first, the quotient is multiplied by 100, and the product is
    rounded to two decimals. *)
Definition calculate_completion_rate (tasks : list task) : result pyval :=
  match tasks with
  | [] => Ok (PyInt 0)
  | _ =>
      let completed := py_sum (map (fun _ => 1%nat) (filter is_completed tasks)) in
      q <- int_truediv completed (List.length tasks) ;;
      p <- float_mul_int q 100 ;;
      Ok (PyFloat (B64.round p 2))
  end.

(** The two decimals of the rate for [completed] out of [total], as a whole
    number of hundredths. *)
Definition percent_digits (completed total : Z) : option Z :=
  B64.decimal_digits
    (B64.mul (B64.rn_ratio completed total) (B64.of_int 100)) 2.

(** The rate as the specification words it:
    [round(100 * completed_count / total_count, 2)], and 0 when empty. *)
Definition spec_completion_rate (tasks : list task) : result pyval :=
  match tasks with
  | [] => Ok (PyInt 0)
  | _ =>
      let completed_count := List.length (filter is_completed tasks) in
      let total_count := List.length tasks in
      q <- int_truediv (100 * completed_count) total_count ;;
      Ok (PyFloat (B64.round q 2))
  end.

(** The exact value of [100 * completed / total] rounded to two decimals
    (ties to even), in hundredths. *)
Definition exact_rate_hundredths (completed total : nat) : Z :=
  B64.rne_div (10000 * Z.of_nat completed) (Z.of_nat total).

(** Sample stores: [k] completed tasks followed by [n - k] pending ones. *)
Definition sample_task (st : string) : task :=
  mkTask "Fix login bug" B64.zero "2025-01-01" "Work" "Low" st.

Definition sample_store (k n : Z) : list task :=
  (repeat (sample_task "Completed") (Z.to_nat k)
   ++ repeat (sample_task "Pending") (Z.to_nat (n - k)))%list.

(** ** pandas: the operations the script uses *)

Module Pandas.

(** Occurrence counts, keys in order of first appearance. *)
Fixpoint bump (x : string) (acc : list (string * nat)) : list (string * nat) :=
  match acc with
  | [] => [(x, 1%nat)]
  | (y, c) :: acc' =>
      if String.eqb x y then (y, S c) :: acc' else (y, c) :: bump x acc'
  end.

Definition tally (col : list string) : list (string * nat) :=
  fold_left (fun acc x => bump x acc) col [].

(** Insertion into a list sorted by decreasing count; the new entry goes
    before the entries it ties with. *)
Fixpoint insert_desc (x : string * nat) (l : list (string * nat))
  : list (string * nat) :=
  match l with
  | [] => [x]
  | y :: l' =>
      if (snd y <=? snd x)%nat then x :: y :: l' else y :: insert_desc x l'
  end.

(** Sorting by decreasing count, entries with equal counts keeping their
    relative order. *)
Definition sort_desc (l : list (string * nat)) : list (string * nat) :=
  fold_right insert_desc [] l.

(** [col.value_counts()]: counts sorted in decreasing order; keys with equal
    counts stay in order of first appearance. *)
Definition value_counts (col : list string) : list (string * nat) :=
  sort_desc (tally col).

(** The key of the first entry whose count is strictly below [best]'s, and so
    on: the first entry holding the minimum. *)
Fixpoint first_min (best : string * nat) (l : list (string * nat)) : string :=
  match l with
  | [] => fst best
  | y :: l' =>
      if (snd y <? snd best)%nat then first_min y l' else first_min best l'
  end.

(** [series.idxmin()]: label of the first occurrence of the minimum; an empty
    series raises [ValueError]. *)
Definition idxmin (series : list (string * nat)) : result string :=
  match series with
  | [] => Raise ValueError
  | x :: l => Ok (first_min x l)
  end.

(** The first entry holding the minimum count, computed from the right. *)
Definition entry : Type := (string * nat)%type.

Definition pick (x : entry) (o : option entry) : option entry :=
  match o with
  | None => Some x
  | Some m => if (snd x <=? snd m)%nat then Some x else Some m
  end.

Definition first_min_entry (l : list entry) : option entry :=
  fold_right pick None l.

Definition key_or (d : entry) (o : option entry) : entry :=
  match o with
  | Some e => e
  | None => d
  end.

(** [e] is the first entry of [l] with the least count. *)
Definition is_first_min (e : entry) (l : list entry) : Prop :=
  exists before after,
    l = (before ++ e :: after)%list
    /\ (forall b, In b before -> (snd e < snd b)%nat)
    /\ (forall a, In a after -> (snd e <= snd a)%nat).

Definition keys (t : list entry) : list string := map fst t.

(** [col.unique()]: distinct values in order of first appearance. *)
Fixpoint unique_from (seen : list string) (col : list string) : list string :=
  match col with
  | [] => []
  | x :: col' =>
      if mem_string x seen then unique_from seen col'
      else x :: unique_from (x :: seen) col'
  end.

Definition unique (col : list string) : list string := unique_from [] col.

(** [pd.DataFrame(records)]: one row per record, indexed from 0. *)
Definition DataFrame (A : Type) : Type := list (nat * A).

Definition from_records {A : Type} (records : list A) : DataFrame A :=
  combine (seq 0 (List.length records)) records.

(** [df[mask]] where the mask is computed row by row. *)
Definition select {A : Type} (keep : A -> bool) (df : DataFrame A) : DataFrame A :=
  filter (fun row => keep (snd row)) df.

(** [df.empty] *)
Definition empty {A : Type} (df : DataFrame A) : bool :=
  match df with
  | [] => true
  | _ => false
  end.

Definition column {A B : Type} (f : A -> B) (df : DataFrame A) : list B :=
  map (fun row => f (snd row)) df.

End Pandas.

(** [recommend_user(df)], on the [assigned_to] column of the frame. *)
Definition recommend_user (assigned_to : list string) : result string :=
  Pandas.idxmin (Pandas.value_counts assigned_to).

(** Position of the first occurrence of [x] in [col]. *)
Fixpoint first_index (x : string) (col : list string) : nat :=
  match col with
  | [] => O
  | y :: col' => if String.eqb x y then O else S (first_index x col')
  end.

Definition occurrences (x : string) (col : list string) : nat :=
  count_occ string_dec col x.

(** ** The Streamlit application *)

(** The session state: the key [tasks] is absent until the first run. *)
Record session_state : Type := mkSession {
  tasks : option (list task)
}.

Definition task_list (s : session_state) : list task :=
  match tasks s with
  | Some l => l
  | None => []
  end.

(** [if "tasks" not in st.session_state: st.session_state.tasks = []] *)
Definition init_session (s : session_state) : session_state :=
  match tasks s with
  | Some _ => s
  | None => mkSession (Some [])
  end.

(** [task_dataframe()] *)
Definition task_dataframe (s : session_state) : Pandas.DataFrame task :=
  Pandas.from_records (task_list s).

Inductive page : Type :=
| Dashboard
| AddTask
| Tasks
| AIInsights.

Inductive priority_choice : Type := Low | Medium | High.
Inductive status_choice : Type := Pending | InProgress | Completed.

Definition priority_label (p : priority_choice) : string :=
  match p with
  | Low => "Low"
  | Medium => "Medium"
  | High => "High"
  end.

Definition status_label (s : status_choice) : string :=
  match s with
  | Pending => "Pending"
  | InProgress => "In Progress"
  | Completed => "Completed"
  end.

(** A calendar date and its [str()], the ISO form [YYYY-MM-DD]. *)
Record date : Type := mkDate { year : nat; month : nat; day : nat }.

Definition digit_char (n : nat) : ascii := ascii_of_nat (48 + n mod 10).

Fixpoint decimal_fixed (width n : nat) : string :=
  match width with
  | O => ""
  | S w => decimal_fixed w (n / 10) ++ String (digit_char n) ""
  end.

Definition date_str (d : date) : string :=
  decimal_fixed 4 (year d) ++ "-" ++ decimal_fixed 2 (month d)
  ++ "-" ++ decimal_fixed 2 (day d).

(** What the script puts on the page.  A page handler returns the session
    state it leaves behind together with the widgets drawn, or the exception
    that stopped the run. *)
Inductive widget : Type :=
| Header (text : string)
| Subheader (text : string)
| Metric (label : string) (value : pyval) (suffix : string)
| PieChart (title : string) (slices : list (string * nat))
| Info (text : string)
| Success (text : string)
| TaskTable (rows : Pandas.DataFrame task)
| ReportTable (rows : list (string * (B64.float64 * B64.float64 * B64.float64 * nat)))
| ConfusionMatrixPlot (labels : list string) (cells : list (list nat)).

(** [st.selectbox(label, options)]: the option at the chosen position; the
    first option is preselected. *)
Definition selectbox (options : list string) (choice : nat) : string :=
  nth choice options (hd "" options).

(** Python truthiness of a string. *)
Definition str_truthy (s : string) : bool := negb (String.eqb s "").

(** *** Dashboard *)

Definition dashboard_page (s : session_state) : session_state * result (list widget) :=
  let total_tasks := List.length (task_list s) in
  let completed_tasks :=
    py_sum (map (fun _ => 1%nat) (filter is_completed (task_list s))) in
  pair s (
  completion_rate <- calculate_completion_rate (task_list s) ;;
  let metrics :=
    [ Header "Dashboard Overview";
      Metric "Total Tasks" (PyInt (Z.of_nat total_tasks)) "";
      Metric "Completed Tasks" (PyInt (Z.of_nat completed_tasks)) "";
      Metric "Completion Rate" completion_rate "%" ] in
  let df := task_dataframe s in
  if negb (Pandas.empty df) then
    Ok (metrics ++
        [ PieChart "Task Distribution by Category"
            (Pandas.value_counts (Pandas.column category df));
          PieChart "Task Priority Distribution"
            (Pandas.value_counts (Pandas.column priority df)) ])%list
  else
    Ok (metrics ++ [ Info "No task data available to display graphs." ])%list).

(** *** Add Task *)

Record add_task_form : Type := mkForm {
  form_description : string;
  form_estimated_hours : B64.float64;
  form_due_date : date;
  form_category : string;
  form_priority : priority_choice;
  form_status : status_choice;
  form_submitted : bool
}.

Definition new_task (f : add_task_form) : task :=
  {| description := form_description f;
     estimated_hours := form_estimated_hours f;
     due_date := date_str (form_due_date f);
     category := form_category f;
     priority := priority_label (form_priority f);
     status := status_label (form_status f) |}.

Definition add_task_page (f : add_task_form) (s : session_state)
  : session_state * result (list widget) :=
  if form_submitted f && str_truthy (form_description f) then
    (mkSession (Some (task_list s ++ [new_task f])%list),
     Ok [ Header "Add New Task"; Success "Task added successfully!" ])
  else
    (s, Ok [ Header "Add New Task" ]).

(** *** Task List *)

(** The two filters applied in turn to a copy of the frame. *)
Definition filter_tasks (status_filter priority_filter : string)
  (df : Pandas.DataFrame task) : Pandas.DataFrame task :=
  let filtered_df := df in
  let filtered_df :=
    if negb (String.eqb status_filter "All")
    then Pandas.select (fun t => String.eqb (status t) status_filter) filtered_df
    else filtered_df in
  let filtered_df :=
    if negb (String.eqb priority_filter "All")
    then Pandas.select (fun t => String.eqb (priority t) priority_filter) filtered_df
    else filtered_df in
  filtered_df.

Record filter_choice : Type := mkChoice {
  status_choice_index : nat;
  priority_choice_index : nat
}.

Definition tasks_page (c : filter_choice) (s : session_state)
  : session_state * result (list widget) :=
  let df := task_dataframe s in
  if negb (Pandas.empty df) then
    let status_filter :=
      selectbox ("All" :: Pandas.unique (Pandas.column status df))
        (status_choice_index c) in
    let priority_filter :=
      selectbox ("All" :: Pandas.unique (Pandas.column priority df))
        (priority_choice_index c) in
    (s, Ok [ Header "All Tasks";
             TaskTable (filter_tasks status_filter priority_filter df) ])
  else
    (s, Ok [ Header "All Tasks";
             Info "No tasks available. Add some from the 'Add Task' section." ]).

(** The rows of the table a page shows, if any. *)
Fixpoint displayed_rows (ws : list widget) : list (nat * task) :=
  match ws with
  | [] => []
  | TaskTable rows :: _ => rows
  | _ :: ws' => displayed_rows ws'
  end.

Definition page_rows (drawn : result (list widget)) : list (nat * task) :=
  match drawn with
  | Ok ws => displayed_rows ws
  | Raise _ => []
  end.

(** The task-list predicate of the two filters. *)
Definition matches_filters (status_filter priority_filter : string) (t : task) : bool :=
  (String.eqb status_filter "All" || String.eqb (status t) status_filter)
  && (String.eqb priority_filter "All" || String.eqb (priority t) priority_filter).

(** ** scikit-learn: label encoding and classification metrics *)

Module Sklearn.

(** [np.unique]: the distinct values in increasing order. *)
Fixpoint insert_sorted (x : string) (l : list string) : list string :=
  match l with
  | [] => [x]
  | y :: l' =>
      match String.compare x y with
      | Lt => x :: y :: l'
      | Eq => y :: l'
      | Gt => y :: insert_sorted x l'
      end
  end.

Definition np_unique (col : list string) : list string :=
  fold_right insert_sorted [] col.

(** [LabelEncoder().fit_transform(col)]: the classes and the codes. *)
Definition fit_transform (col : list string) : list string * list nat :=
  let classes := np_unique col in
  (classes, map (fun x => first_index x classes) col).

(** [encoder.inverse_transform(codes)]; a code outside the classes raises
    [ValueError]. *)
Fixpoint inverse_transform (classes : list string) (codes : list nat)
  : result (list string) :=
  match codes with
  | [] => Ok []
  | c :: codes' =>
      match nth_error classes c with
      | Some name => rest <- inverse_transform classes codes' ;; Ok (name :: rest)
      | None => Raise ValueError
      end
  end.

Definition count_where {A : Type} (p : A -> bool) (l : list A) : nat :=
  List.length (filter p l).

(** Number of samples with true label [i] and predicted label [j]. *)
Definition count_pairs (i j : nat) (y_true y_pred : list nat) : nat :=
  count_where (fun tp => Nat.eqb (fst tp) i && Nat.eqb (snd tp) j)
    (combine y_true y_pred).

(** [confusion_matrix(y_true, y_pred, labels=labels)]: one row per label for
    the true class, one column per label for the predicted class. *)
Definition confusion_matrix (y_true y_pred labels : list nat)
  : result (list (list nat)) :=
  if negb (List.length y_true =? List.length y_pred)%nat then Raise ValueError
  else if (List.length labels =? 0)%nat then Raise ValueError
  else if (List.length y_true =? 0)%nat
       then Ok (map (fun _ => map (fun _ => O) labels) labels)
  else if negb (existsb (fun l => existsb (Nat.eqb l) y_true) labels)
       then Raise ValueError
  else Ok (map (fun i => map (fun j => count_pairs i j y_true y_pred) labels) labels).

(** Division of two counts with the [zero_division] policy: where the
    denominator is zero the entry is [zero_division], nothing is raised.
    The counts are array lengths, exactly representable as floats. *)
Definition prf_divide (numerator denominator : nat) (zero_division : B64.float64)
  : B64.float64 :=
  match denominator with
  | O => zero_division
  | _ => B64.rn_ratio (Z.of_nat numerator) (Z.of_nat denominator)
  end.

Record class_metrics : Type := mkMetrics {
  precision : B64.float64;
  recall : B64.float64;
  f1_score : B64.float64;
  support : nat
}.

(** Precision [tp / predicted], recall [tp / true] and F1 score
    [2 * tp / (true + predicted)] of one class, with its support. *)
Definition metrics_of (label : nat) (y_true y_pred : list nat)
  (zero_division : B64.float64) : class_metrics :=
  let tp_sum := count_pairs label label y_true y_pred in
  let pred_sum := count_where (Nat.eqb label) y_pred in
  let true_sum := count_where (Nat.eqb label) y_true in
  {| precision := prf_divide tp_sum pred_sum zero_division;
     recall := prf_divide tp_sum true_sum zero_division;
     f1_score := prf_divide (2 * tp_sum) (true_sum + pred_sum) zero_division;
     support := true_sum |}.

(** The per-class rows of
    [classification_report(y_true, y_pred, labels=labels,
    target_names=target_names, output_dict=True, zero_division=...)].
    The averaged rows of the report are not modelled. *)
Definition classification_report (y_true y_pred labels : list nat)
  (target_names : list string) (zero_division : B64.float64)
  : result (list (string * class_metrics)) :=
  if negb (List.length y_true =? List.length y_pred)%nat then Raise ValueError
  else
    Ok (map (fun nl => (fst nl, metrics_of (snd nl) y_true y_pred zero_division))
          (combine target_names labels)).

End Sklearn.

(** ** Hyper-parameter search and the AI Insights page *)

Module B64Order.

Definition ltb (x y : B64.float64) : bool :=
  match x, y with
  | B64.NaN, _ | _, B64.NaN => false
  | _, _ => (B64.units x <? B64.units y)%Z
  end.

End B64Order.

Record xgb_params : Type := mkParams {
  n_estimators : Z;
  max_depth : Z;
  learning_rate : B64.float64
}.

Inductive distribution : Type :=
| IntDistribution (low high : Z)
| FloatDistribution (low high : B64.float64).

(** A finished trial of the study: the parameters it drew, the ranges they
    were requested from, the value the objective returned. *)
Record trial : Type := mkTrial {
  trial_params : xgb_params;
  trial_distributions : list (string * distribution);
  trial_value : B64.float64
}.

(** The rows of the uploaded CSV file; a missing cell is [None]. *)
Record csv_row : Type := mkCsvRow {
  csv_description : option string;
  csv_priority : option string;
  csv_assigned_to : option string
}.

Record frame_row : Type := mkRow {
  row_description : string;
  row_priority : string;
  row_assigned_to : string
}.

(** [df.dropna(subset=['description', 'priority', 'assigned_to'])] *)
Fixpoint dropna (rows : list csv_row) : list frame_row :=
  match rows with
  | [] => []
  | r :: rows' =>
      match csv_description r, csv_priority r, csv_assigned_to r with
      | Some d, Some p, Some u => mkRow d p u :: dropna rows'
      | _, _, _ => dropna rows'
      end
  end.

(** The float literals [0.01] and [0.3]. *)
Definition lit_0_01 : B64.float64 := B64.rn_ratio 1 100.
Definition lit_0_3 : B64.float64 := B64.rn_ratio 3 10.

(** The ranges the search draws from. *)
Definition search_space : list (string * distribution) :=
  [ ("n_estimators", IntDistribution 50 200);
    ("max_depth", IntDistribution 2 10);
    ("learning_rate", FloatDistribution lit_0_01 lit_0_3) ].

Section Insights.

(** NLTK configuration. *)
Variable stem : string -> string.
Variable stopwords : list string.

(** [SentenceTransformer('all-MiniLM-L6-v2').encode]: one vector per text. *)
Variable vec : Type.
Variable encode : list string -> list vec.

(** [train_test_split(X, y, test_size=0.2, stratify=y, random_state=42)] *)
Variable train_test_split :
  list vec -> list nat -> result (list vec * list vec * list nat * list nat).

(** [LogisticRegression(max_iter=200).fit] *)
Variable linear_model : Type.
Variable logreg_fit : list vec -> list nat -> linear_model.

(** An [XGBClassifier] built from the drawn parameters, with its [fit],
    [score] and [predict]. *)
Variable model : Type.
Variable xgb_fit : xgb_params -> list vec -> list nat -> model.
Variable xgb_score : model -> list vec -> list nat -> B64.float64.
Variable xgb_predict : model -> list vec -> list nat.

(** The sampler of the study: it answers [suggest_int] and [suggest_float]
    and is told the outcome of each finished trial. *)
Variable sampler : Type.
Variable suggest_int : sampler -> string -> Z -> Z -> Z * sampler.
Variable suggest_float :
  sampler -> string -> B64.float64 -> B64.float64 -> B64.float64 * sampler.
Variable tell : sampler -> trial -> sampler.

Definition train_classifier (X : list vec) (y : list nat) : linear_model :=
  logreg_fit X y.

(** [objective(trial)] inside [optimize_xgb(X, y)]. *)
Definition objective (X : list vec) (y : list nat) (s : sampler) : trial * sampler :=
  let '(ne, s) := suggest_int s "n_estimators" 50 200 in
  let '(md, s) := suggest_int s "max_depth" 2 10 in
  let '(lr, s) := suggest_float s "learning_rate" lit_0_01 lit_0_3 in
  let params := mkParams ne md lr in
  let fitted := xgb_fit params X y in
  (mkTrial params
     [ ("n_estimators", IntDistribution 50 200);
       ("max_depth", IntDistribution 2 10);
       ("learning_rate", FloatDistribution lit_0_01 lit_0_3) ]
     (xgb_score fitted X y),
   s).

(** A trial as the objective produces it on the data [(X, y)]: drawn from
    the search space, valued by the score on [(X, y)] of the model fitted
    on [(X, y)]. *)
Definition trial_ok (X : list vec) (y : list nat) (t : trial) : Prop :=
  trial_distributions t = search_space
  /\ (50 <= n_estimators (trial_params t) <= 200)%Z
  /\ (2 <= max_depth (trial_params t) <= 10)%Z
  /\ B64.leb lit_0_01 (learning_rate (trial_params t)) = true
  /\ B64.leb (learning_rate (trial_params t)) lit_0_3 = true
  /\ trial_value t = xgb_score (xgb_fit (trial_params t) X y) X y.

(** The parameters of one trial as a search over the space of the
    specification draws them: the sampler is asked for [n_estimators] in
    [50, 200], then for [max_depth] in [2, 10], then for [learning_rate] in
    [0.01, 0.3], each request going to the sampler as the previous one left
    it.  Written from the specification, to be compared with [objective]. *)
Definition drawn_params (s : sampler) : xgb_params * sampler :=
  let r1 := suggest_int s "n_estimators" 50 200 in
  let r2 := suggest_int (snd r1) "max_depth" 2 10 in
  let r3 := suggest_float (snd r2) "learning_rate" lit_0_01 lit_0_3 in
  (mkParams (fst r1) (fst r2) (fst r3), snd r3).

(** A search on the data [(X, y)] that starts from the sampler [s]: each
    trial has the parameters the sampler draws for it, is valued by the
    score on [(X, y)] of the model fitted with them on [(X, y)], and is
    reported to the sampler before the next trial draws. *)
Fixpoint searched (X : list vec) (y : list nat) (s : sampler) (trials : list trial)
  : Prop :=
  match trials with
  | [] => True
  | t :: rest =>
      trial_params t = fst (drawn_params s)
      /\ trial_value t = xgb_score (xgb_fit (trial_params t) X y) X y
      /\ searched X y (tell (snd (drawn_params s)) t) rest
  end.

(** [study.optimize(objective, n_trials=n)]: the trials run one after the
    other. *)
Fixpoint optimize (n_trials : nat) (X : list vec) (y : list nat)
  (s : sampler) (finished : list trial) : list trial * sampler :=
  match n_trials with
  | O => (finished, s)
  | S n =>
      let '(t, s) := objective X y s in
      optimize n X y (tell s t) (finished ++ [t])
  end.

(** [study.best_trial] when maximizing: a later trial replaces the best
    one only if its value is strictly larger. *)
Fixpoint best_of (best : trial) (rest : list trial) : trial :=
  match rest with
  | [] => best
  | t :: rest' =>
      if B64Order.ltb (trial_value best) (trial_value t)
      then best_of t rest'
      else best_of best rest'
  end.

Definition best_trial (trials : list trial) : result trial :=
  match trials with
  | [] => Raise ValueError
  | t :: rest => Ok (best_of t rest)
  end.

Definition run_study (X : list vec) (y : list nat) (s : sampler) : list trial :=
  fst (optimize 10 X y s []).

Definition optimize_xgb (X : list vec) (y : list nat) (s : sampler) : result model :=
  best <- best_trial (run_study X y s) ;;
  Ok (xgb_fit (trial_params best) X y).

(** Everything the AI Insights page computes from an upload. *)
Record analysis : Type := mkAnalysis {
  an_frame : list frame_row;
  an_processed : list string;
  an_classes : list string;
  an_priority_encoded : list nat;
  an_user_encoded : list nat;
  an_X : list vec;
  an_X_train : list vec;
  an_X_test : list vec;
  an_y_train : list nat;
  an_y_test : list nat;
  an_classifier : linear_model;
  an_priority_model : model;
  an_y_pred : list nat;
  an_labels : list nat;
  an_report : list (string * Sklearn.class_metrics);
  an_cm : list (list nat)
}.

Definition analyse (rows : list csv_row) (s : sampler) : result analysis :=
  let df := dropna rows in
  let processed := map (preprocess_text stem stopwords) (map row_description df) in
  let '(classes, priority_encoded) := Sklearn.fit_transform (map row_priority df) in
  let user_encoded := snd (Sklearn.fit_transform (map row_assigned_to df)) in
  let X := encode (map row_description df) in
  split <- train_test_split X priority_encoded ;;
  let '(X_train, X_test, y_train, y_test) := split in
  let classifier := train_classifier X_train y_train in
  priority_model <- optimize_xgb X_train y_train s ;;
  let y_pred := xgb_predict priority_model X_test in
  let labels := seq 0 (List.length classes) in
  report <- Sklearn.classification_report y_test y_pred labels classes B64.zero ;;
  cm <- Sklearn.confusion_matrix y_test y_pred labels ;;
  Ok (mkAnalysis df processed classes priority_encoded user_encoded X
        X_train X_test y_train y_test classifier priority_model y_pred
        labels report cm).

Definition report_rows (report : list (string * Sklearn.class_metrics))
  : list (string * (B64.float64 * B64.float64 * B64.float64 * nat)) :=
  map (fun r => (fst r, (Sklearn.precision (snd r), Sklearn.recall (snd r),
                         Sklearn.f1_score (snd r), Sklearn.support (snd r))))
    report.

(** The vector a new description is predicted from. *)
Definition prediction_features (desc : string) : list vec := encode [desc].

Definition predict_widgets (a : analysis) (desc : string) (clicked : bool)
  : result (list widget) :=
  if clicked && str_truthy desc then
    match xgb_predict (an_priority_model a) (prediction_features desc) with
    | [] => Raise IndexError
    | pred_priority :: _ =>
        names <- Sklearn.inverse_transform (an_classes a) [pred_priority] ;;
        match names with
        | [] => Raise IndexError
        | name :: _ =>
            user <- recommend_user (map row_assigned_to (an_frame a)) ;;
            Ok [ Success ("Predicted Priority: " ++ name);
                 Info ("Recommended User: " ++ user) ]
        end
    end
  else Ok [].

Record insights_inputs : Type := mkInsightsInputs {
  uploaded : option (list csv_row);
  new_description : string;
  predict_clicked : bool
}.

Definition ai_insights_page (inp : insights_inputs) (smp : sampler)
  (s : session_state) : session_state * result (list widget) :=
  pair s
    match uploaded inp with
    | None => Ok [ Header "AI-Based Task Priority Prediction" ]
    | Some rows =>
        a <- analyse rows smp ;;
        prediction <- predict_widgets a (new_description inp) (predict_clicked inp) ;;
        Ok ([ Header "AI-Based Task Priority Prediction";
              Subheader "Classification Report";
              ReportTable (report_rows (an_report a));
              ConfusionMatrixPlot (an_classes a) (an_cm a);
              Subheader "Enter a New Task for Prediction" ] ++ prediction)%list
    end.

(** One run of the script: the state is initialised, then the page chosen
    in the sidebar is drawn. *)
Record inputs : Type := mkInputs {
  navigation : page;
  add_form : add_task_form;
  filters : filter_choice;
  insights : insights_inputs
}.

Definition run_script (inp : inputs) (smp : sampler) (s : session_state)
  : session_state * result (list widget) :=
  let s := init_session s in
  match navigation inp with
  | Dashboard => dashboard_page s
  | AddTask => add_task_page (add_form inp) s
  | Tasks => tasks_page (filters inp) s
  | AIInsights => ai_insights_page (insights inp) smp s
  end.

(** A session: the script runs once per interaction, each run starting
    from the state the previous one left. *)
Definition run_session (runs : list (inputs * sampler)) (s : session_state)
  : session_state :=
  fold_left (fun st r => fst (run_script (fst r) (snd r) st)) runs s.

End Insights.

Arguments an_frame {vec linear_model model} _.
Arguments an_processed {vec linear_model model} _.
Arguments an_classes {vec linear_model model} _.
Arguments an_priority_encoded {vec linear_model model} _.
Arguments an_user_encoded {vec linear_model model} _.
Arguments an_X {vec linear_model model} _.
Arguments an_X_train {vec linear_model model} _.
Arguments an_X_test {vec linear_model model} _.
Arguments an_y_train {vec linear_model model} _.
Arguments an_y_test {vec linear_model model} _.
Arguments an_classifier {vec linear_model model} _.
Arguments an_priority_model {vec linear_model model} _.
Arguments an_y_pred {vec linear_model model} _.
Arguments an_labels {vec linear_model model} _.
Arguments an_report {vec linear_model model} _.
Arguments an_cm {vec linear_model model} _.

(** ** Stable tokens *)

(** A word: a non-empty run of lower-case letters. *)
Definition is_word (w : string) : bool :=
  negb (String.eqb w "") && forallb_string is_lower w.

(** A token that a second pass of the preprocessor leaves alone: a word that
    is not a stopword and that the stemmer maps to itself. *)
Definition stable_token (stem : string -> string) (stopwords : list string)
  (t : string) : bool :=
  is_word t && negb (mem_string t stopwords) && String.eqb (stem t) t.

(** ** Agreement with the Standard Library's IEEE 754 operations *)

(** [c / n] and [(c / n) * 100] as [SpecFloat] computes them. *)
Definition stdlib_quotient (c n : Z) : spec_float :=
  SFdiv B64.prec B64.emax (B64.SF_of_Z c) (B64.SF_of_Z n).

Definition stdlib_percent (c n : Z) : spec_float :=
  SFmul B64.prec B64.emax (stdlib_quotient c n) (B64.SF_of_Z 100).

Definition agrees_with_stdlib (c n : Z) : bool :=
  B64.SF_eqb (B64.to_spec_float (B64.rn_ratio c n)) (stdlib_quotient c n)
  && B64.SF_eqb
       (B64.to_spec_float (B64.mul (B64.rn_ratio c n) (B64.of_int 100)))
       (stdlib_percent c n).

(** All pairs [0 <= c <= n] with [1 <= n <= bound]. *)
Definition count_pairs_upto (bound : nat) : list (Z * Z) :=
  flat_map (fun n => map (fun c => (Z.of_nat c, Z.of_nat n)) (seq 0 (S n)))
    (seq 1 bound).

(** ** A small instance of the external components

    Stand-ins with which the AI Insights page can be run on examples: texts
    are their own embedding, the test fold is the first row, the classifier
    always predicts class 0, the sampler always answers the lower bound. *)

Module Demo.

Definition vec : Type := string.
Definition encode (texts : list string) : list vec := texts.

Definition train_test_split (X : list vec) (y : list nat)
  : result (list vec * list vec * list nat * list nat) :=
  match X, y with
  | x :: _, l :: _ => Ok (X, [x], y, [l])
  | _, _ => Raise ValueError
  end.

Definition linear_model : Type := unit.
Definition logreg_fit (_ : list vec) (_ : list nat) : linear_model := tt.

Definition model : Type := xgb_params.
Definition xgb_fit (p : xgb_params) (_ : list vec) (_ : list nat) : model := p.
Definition xgb_score (_ : model) (_ : list vec) (_ : list nat) : B64.float64 :=
  B64.rn_ratio 1 2.
Definition xgb_predict (_ : model) (X : list vec) : list nat := map (fun _ => O) X.

Definition sampler : Type := nat.
Definition suggest_int (s : sampler) (_ : string) (low _ : Z) : Z * sampler :=
  (low, S s).
Definition suggest_float (s : sampler) (_ : string) (low _ : B64.float64)
  : B64.float64 * sampler := (low, S s).
Definition tell (s : sampler) (_ : trial) : sampler := s.

Definition upload : list csv_row :=
  [ mkCsvRow (Some "Fix the Login BUG!") (Some "High") (Some "alice");
    mkCsvRow (Some "Write the docs") (Some "Low") (Some "bob");
    mkCsvRow (Some "no owner yet") (Some "Low") None;
    mkCsvRow (Some "Refactor billing module") (Some "Medium") (Some "alice") ].

Definition analyse : list csv_row -> sampler -> result (analysis vec linear_model model) :=
  analyse Nltk.porter_stem Nltk.english_stopwords vec encode train_test_split
    linear_model logreg_fit model xgb_fit xgb_score xgb_predict
    sampler suggest_int suggest_float tell.

Definition run_script : inputs -> sampler -> session_state
                        -> session_state * result (list widget) :=
  run_script Nltk.porter_stem Nltk.english_stopwords vec encode train_test_split
    linear_model logreg_fit model xgb_fit xgb_score xgb_predict
    sampler suggest_int suggest_float tell.

Definition blank_form : add_task_form :=
  mkForm "" B64.zero (mkDate 2025 1 1) "" Low Pending true.

Definition login_form : add_task_form :=
  mkForm "Fix login bug" B64.zero (mkDate 2025 1 1) "Work" High Pending true.

Definition add_inputs (f : add_task_form) : inputs :=
  mkInputs AddTask f (mkChoice 0 0) (mkInsightsInputs None "" false).

End Demo.

From Stdlib Require Import Permutation Sorted OrderedTypeEx.

(** ** Further notions used in the statements below *)

(** One slice is at least as large as the next. *)
Definition count_ge (a b : string * nat) : Prop := (snd b <= snd a)%nat.

(** The pie charts of a list of widgets. *)
Fixpoint pie_charts (ws : list widget) : list (list (string * nat)) :=
  match ws with
  | [] => []
  | PieChart _ slices :: ws' => slices :: pie_charts ws'
  | _ :: ws' => pie_charts ws'
  end.

(** The tasks a sequence of runs submits successfully, in order. *)
Definition accepted (inp : inputs) : bool :=
  match navigation inp with
  | AddTask =>
      form_submitted (add_form inp) && str_truthy (form_description (add_form inp))
  | _ => false
  end.

Definition submitted_tasks {sampler : Type} (runs : list (inputs * sampler))
  : list task :=
  map (fun r => new_task (add_form (fst r)))
    (filter (fun r => accepted (fst r)) runs).

(** A task as the form can produce it. *)
Definition form_task (t : task) : Prop :=
  description t <> ""
  /\ In (priority t) ["Low"; "Medium"; "High"]
  /\ In (status t) ["Pending"; "In Progress"; "Completed"]
  /\ String.length (due_date t) = 10%nat.

(** A float between 0 and 1. *)
Definition in_unit_interval (x : B64.float64) : Prop :=
  B64.leb B64.zero x = true /\ B64.leb x B64.one = true.

Definition metrics_in_unit_interval (m : Sklearn.class_metrics) : Prop :=
  in_unit_interval (Sklearn.precision m)
  /\ in_unit_interval (Sklearn.recall m)
  /\ in_unit_interval (Sklearn.f1_score m).

(** The number of samples a confusion matrix counts. *)
Definition matrix_total (cm : list (list nat)) : nat :=
  list_sum (map (fun row => list_sum row) cm).

(** What lower-casing followed by the substitution of non-letters makes of a
    character. *)
Definition normal_char (c : ascii) : ascii :=
  if is_letter (lower_char c) then lower_char c else " "%char.

(** A character of ASCII. *)
Definition is_ascii (c : ascii) : bool := (nat_of_ascii c <? 128)%nat.

(** * Properties *)

(** ** Rounding to nearest is monotone *)

Module B64Facts.

Import B64.
Open Scope Z_scope.

Lemma rne_div_ge (a b n : Z) : 0 < b ->
  n <= rne_div a b <-> ((2 * n - 1) * b < 2 * a \/ ((2 * n - 1) * b = 2 * a /\ Z.even n = true)).
Proof.
  intros Hb. unfold rne_div.
  pose proof (Z.div_mod a b ltac:(lia)) as Hdm.
  pose proof (Z.mod_pos_bound a b Hb) as Hr.
  set (q := a / b) in *. set (r := a mod b) in *.
  destruct (Z.compare_spec (2 * r) b) as [He|Hl|Hg].
  - destruct (Z.even q) eqn:Hq.
    + split.
      * intros Hn. destruct (Z.eq_dec n q) as [->|]; [left; nia|left; nia].
      * intros [H|[H He2]]; [nia|].
        assert (n = q + 1) by nia. subst n.
        rewrite Z.even_add in He2. rewrite Hq in He2. discriminate.
    + split.
      * intros Hn. destruct (Z.eq_dec n (q + 1)) as [->|].
        -- right. split; [nia|]. rewrite Z.even_add, Hq. reflexivity.
        -- left. nia.
      * intros [H|[H He2]]; nia.
  - split; [intros; left; nia|intros [H|[H _]]; nia].
  - split; [intros; left; nia|intros [H|[H _]]; nia].
Qed.

Lemma rne_div_mono (a b c d : Z) : 0 < b -> 0 < d -> a * d <= c * b ->
  rne_div a b <= rne_div c d.
Proof.
  intros Hb Hd H.
  apply (rne_div_ge c d (rne_div a b) Hd).
  destruct (proj1 (rne_div_ge a b (rne_div a b) Hb) (Z.le_refl _)) as [H1|[H1 H2]].
  - left. nia.
  - destruct (Z.eq_dec (a * d) (c * b)).
    + right. split; [nia|assumption].
    + left. nia.
Qed.

Lemma rne_div_ratio (a b c d : Z) : 0 < b -> 0 < d -> a * d = c * b ->
  rne_div a b = rne_div c d.
Proof.
  intros Hb Hd H. apply Z.le_antisymm; apply rne_div_mono; lia.
Qed.

Lemma rne_div_1 (n : Z) : rne_div n 1 = n.
Proof.
  unfold rne_div. rewrite Z.mod_1_r, Z.div_1_r. reflexivity.
Qed.

Lemma rne_div_nonneg (a b : Z) : 0 <= a -> 0 < b -> 0 <= rne_div a b.
Proof.
  intros Ha Hb. apply rne_div_ge; [assumption|]. left. nia.
Qed.

Lemma div_ratio_mono (a b c d : Z) : 0 < b -> 0 < d -> a * d <= c * b -> a / b <= c / d.
Proof.
  intros Hb Hd H. apply Z.div_le_lower_bound; [assumption|].
  pose proof (Z.mul_div_le a b Hb). nia.
Qed.

Lemma pow2_pos (k : Z) : 0 <= k -> 0 < 2 ^ k.
Proof. intros. apply Z.pow_pos_nonneg; lia. Qed.

Lemma U_pos : 0 < U.
Proof. reflexivity. Qed.

Lemma ulp_shift_nonneg (a b : Z) : 0 <= ulp_shift a b.
Proof. unfold ulp_shift. lia. Qed.

Lemma ulp_shift_mono (a b c d : Z) : 0 < b -> 0 < d -> a * d <= c * b ->
  ulp_shift a b <= ulp_shift c d.
Proof.
  intros Hb Hd H. unfold ulp_shift.
  assert (a * 2 ^ (- emin) / b <= c * 2 ^ (- emin) / d).
  { apply div_ratio_mono; try assumption. pose proof U_pos. unfold U in *. nia. }
  pose proof (Z.log2_le_mono _ _ H0). lia.
Qed.

Lemma ulp_shift_spec (a b : Z) :
  ulp_shift a b = Z.max (Z.log2 (a * U / b) - (prec - 1)) 0.
Proof. reflexivity. Qed.

Lemma mantissa_upper (a b : Z) : 0 <= a -> 0 < b ->
  rne_div (a * U) (b * 2 ^ ulp_shift a b) <= 2 ^ prec.
Proof.
  intros Ha Hb.
  pose proof (ulp_shift_spec a b) as Hsd.
  assert (Hs : 0 <= ulp_shift a b) by apply ulp_shift_nonneg.
  set (s := ulp_shift a b) in *. set (Q := a * U / b) in *.
  pose proof (pow2_pos s Hs) as Hp.
  rewrite <- (rne_div_1 (2 ^ prec)).
  apply rne_div_mono; [nia|lia|].
  assert (HQ : 0 <= Q) by (apply Z.div_pos; [pose proof U_pos; nia|lia]).
  assert (HlQ : Q < 2 ^ (s + prec)).
  { destruct (Z.eq_dec Q 0) as [HQ0|HQ0]; [rewrite HQ0; apply pow2_pos; unfold prec; lia|].
    apply Z.log2_lt_pow2; [lia|]. unfold prec in *. lia. }
  assert (a * U < b * (Q + 1)).
  { pose proof (Z.div_mod (a * U) b ltac:(lia)). pose proof (Z.mod_pos_bound (a * U) b Hb).
    fold Q in H. nia. }
  rewrite Z.pow_add_r in HlQ by (unfold prec; lia). nia.
Qed.

(** A quotient above the subnormal range has at least [prec] significant
    bits over its unit in the last place. *)
Lemma ulp_shift_lower (a b : Z) : 0 <= a -> 0 < b -> 0 < ulp_shift a b ->
  b * 2 ^ (ulp_shift a b + (prec - 1)) <= a * U.
Proof.
  intros Ha Hb Hs.
  pose proof (ulp_shift_spec a b) as Hsd.
  set (s := ulp_shift a b) in *. set (Q := a * U / b) in *.
  assert (HQ : 0 < Q).
  { destruct (Z.le_gt_cases Q 0) as [Hle|]; [|assumption].
    rewrite (Z.log2_nonpos Q Hle) in Hsd. unfold prec in Hsd. lia. }
  pose proof (Z.log2_spec Q HQ) as [Hl _].
  replace (Z.log2 Q) with (s + (prec - 1)) in Hl by lia.
  pose proof (Z.mul_div_le (a * U) b Hb) as Hd. fold Q in Hd.
  pose proof (pow2_pos (s + (prec - 1)) ltac:(unfold prec; lia)).
  nia.
Qed.

Lemma mantissa_lower (a b : Z) : 0 <= a -> 0 < b -> 0 < ulp_shift a b ->
  2 ^ (prec - 1) <= rne_div (a * U) (b * 2 ^ ulp_shift a b).
Proof.
  intros Ha Hb Hs.
  pose proof (ulp_shift_lower a b Ha Hb Hs) as Hl.
  pose proof (pow2_pos (ulp_shift a b) ltac:(lia)) as Hp.
  rewrite <- (rne_div_1 (2 ^ (prec - 1))).
  apply rne_div_mono; [lia|nia|].
  rewrite Z.pow_add_r in Hl by (unfold prec; lia).
  lia.
Qed.

Lemma round_units_mono (a b c d : Z) : 0 <= a -> 0 < b -> 0 <= c -> 0 < d ->
  a * d <= c * b -> round_units a b <= round_units c d.
Proof.
  intros Ha Hb Hc Hd H. unfold round_units.
  pose proof (ulp_shift_mono a b c d Hb Hd H) as Hs.
  pose proof (ulp_shift_nonneg a b) as Hs0.
  set (s := ulp_shift a b) in *. set (s' := ulp_shift c d) in *.
  pose proof (pow2_pos s Hs0) as Hp. pose proof (pow2_pos s' ltac:(lia)) as Hp'.
  destruct (Z.eq_dec s s') as [He|Hne].
  - rewrite <- He. apply Z.mul_le_mono_nonneg_r; [lia|].
    apply rne_div_mono; [nia|nia|]. pose proof U_pos.
    replace (a * U * (d * 2 ^ s)) with (a * d * (U * 2 ^ s)) by ring.
    replace (c * U * (b * 2 ^ s)) with (c * b * (U * 2 ^ s)) by ring.
    apply Z.mul_le_mono_nonneg_r; nia.
  - pose proof (mantissa_upper a b Ha Hb) as Hu. fold s in Hu.
    pose proof (mantissa_lower c d Hc Hd ltac:(fold s'; lia)) as Hl. fold s' in Hl.
    assert (Hpw : 2 ^ prec * 2 ^ s <= 2 ^ (prec - 1) * 2 ^ s').
    { rewrite <- !Z.pow_add_r by (unfold prec; lia).
      apply Z.pow_le_mono_r; unfold prec; lia. }
    pose proof (pow2_pos (prec - 1) ltac:(unfold prec; lia)).
    nia.
Qed.

Lemma scaled_rne_units (a b s : Z) : 0 < b -> 0 <= s ->
  scaled_rne a b (s + emin) = rne_div (a * U) (b * 2 ^ s).
Proof.
  intros Hb Hs. unfold scaled_rne.
  pose proof (pow2_pos s Hs) as Hp.
  destruct (Z.leb_spec 0 (s + emin)) as [Hle|Hlt].
  - pose proof (pow2_pos (s + emin) Hle) as Hp'.
    apply rne_div_ratio; [nia|nia|].
    replace (2 ^ s) with (U * 2 ^ (s + emin)).
    + ring.
    + unfold U. rewrite <- Z.pow_add_r by (unfold emin in *; lia). f_equal. lia.
  - apply rne_div_ratio; [lia|nia|].
    replace U with (2 ^ (- (s + emin)) * 2 ^ s).
    + ring.
    + unfold U. rewrite <- Z.pow_add_r by (unfold emin in *; lia). f_equal. lia.
Qed.

Lemma units_rn_ratio (a b : Z) : 0 <= a -> 0 < b ->
  units (rn_ratio a b) = Z.min (round_units a b) top.
Proof.
  intros Ha Hb. unfold rn_ratio, round_units.
  pose proof (ulp_shift_nonneg a b) as Hs.
  rewrite (scaled_rne_units a b _ Hb Hs).
  pose proof (mantissa_upper a b Ha Hb) as Hu.
  pose proof (rne_div_nonneg (a * U) (b * 2 ^ ulp_shift a b)
                ltac:(pose proof U_pos; nia)
                ltac:(pose proof (pow2_pos _ Hs); nia)) as H0.
  assert (Hl : 0 < ulp_shift a b -> 2 ^ (prec - 1) <= rne_div (a * U) (b * 2 ^ ulp_shift a b))
    by (apply mantissa_lower; assumption).
  set (s := ulp_shift a b) in *. set (m := rne_div (a * U) (b * 2 ^ s)) in *.
  pose proof (pow2_pos s Hs) as Hp.
  assert (Htop : top = 2 ^ prec * 2 ^ (emax - prec - emin)) by reflexivity.
  assert (Hprec : 2 ^ prec = 2 * 2 ^ (prec - 1)) by reflexivity.
  assert (Hp52 : 0 < 2 ^ (prec - 1)) by reflexivity.
  unfold normalize.
  destruct (Z.eqb_spec m (2 ^ prec)) as [Hm|Hm].
  - change (2 ^ (prec - 1) =? 0) with false. cbv iota.
    assert (Hv : 2 ^ (prec - 1) * 2 ^ (s + emin + 1 - emin) = m * 2 ^ s).
    { rewrite Hm, Hprec. replace (s + emin + 1 - emin) with (1 + s) by lia.
      rewrite Z.pow_add_r by lia. change (2 ^ 1) with 2. ring. }
    destruct (Z.leb_spec (s + emin + 1) (emax - prec)) as [Hle|Hgt]; cbn [units].
    + rewrite Hv. rewrite Z.min_l; [reflexivity|].
      rewrite Htop, Hm. apply Z.mul_le_mono_nonneg_l; [lia|].
      apply Z.pow_le_mono_r; lia.
    + fold top. rewrite Z.min_r; [reflexivity|].
      rewrite Htop, Hm. apply Z.mul_le_mono_nonneg_l; [lia|].
      apply Z.pow_le_mono_r; lia.
  - destruct (Z.eqb_spec m 0) as [Hz|Hz]; cbn [units].
    + rewrite Hz. rewrite Z.min_l; [reflexivity|]. rewrite Htop. cbn. lia.
    + destruct (Z.leb_spec (s + emin) (emax - prec)) as [Hle|Hgt]; cbn [units].
      * replace (s + emin - emin) with s by lia.
        rewrite Z.min_l; [reflexivity|].
        rewrite Htop.
        assert (2 ^ s <= 2 ^ (emax - prec - emin)) by (apply Z.pow_le_mono_r; lia).
        assert (m <= 2 ^ prec) by lia.
        pose proof (pow2_pos prec ltac:(unfold prec; lia)).
        nia.
      * fold top. rewrite Z.min_r; [reflexivity|].
        assert (Hs1 : 0 < s) by (unfold emin, emax, prec in *; lia).
        specialize (Hl Hs1).
        assert (2 ^ (emax - prec - emin + 1) <= 2 ^ s) by (apply Z.pow_le_mono_r; lia).
        rewrite Z.pow_add_r in H by (unfold emin, emax, prec; lia).
        change (2 ^ 1) with 2 in H. rewrite Htop, Hprec.
        pose proof (pow2_pos (emax - prec - emin) ltac:(unfold emin, emax, prec; lia)).
        nia.
Qed.

Lemma rn_ratio_mono (a b c d : Z) : 0 <= a -> 0 < b -> 0 <= c -> 0 < d ->
  a * d <= c * b -> units (rn_ratio a b) <= units (rn_ratio c d).
Proof.
  intros Ha Hb Hc Hd H. rewrite !units_rn_ratio by assumption.
  pose proof (round_units_mono a b c d Ha Hb Hc Hd H). lia.
Qed.

Lemma rn_ratio_ratio (a b c d : Z) : 0 < b -> 0 < d -> a * d = c * b ->
  rn_ratio a b = rn_ratio c d.
Proof.
  intros Hb Hd H. unfold rn_ratio.
  assert (Hs : ulp_shift a b = ulp_shift c d).
  { apply Z.le_antisymm; apply ulp_shift_mono; lia. }
  rewrite Hs.
  rewrite !scaled_rne_units by (assumption || apply ulp_shift_nonneg).
  f_equal. pose proof (pow2_pos _ (ulp_shift_nonneg c d)). pose proof U_pos.
  apply rne_div_ratio; [nia|nia|].
  replace (a * U * (d * 2 ^ ulp_shift c d)) with (a * d * (U * 2 ^ ulp_shift c d)) by ring.
  rewrite H. ring.
Qed.

Lemma normalize_wf (m e : Z) : 0 <= m -> emin <= e -> wf (normalize m e).
Proof.
  intros Hm He. unfold normalize.
  destruct (m =? 2 ^ prec).
  - change (2 ^ (prec - 1) =? 0) with false. cbv iota.
    destruct (e + 1 <=? emax - prec); cbn; [|exact I].
    split; [discriminate|lia].
  - destruct (m =? 0); [cbn; unfold emin; lia|].
    destruct (e <=? emax - prec); cbn; [lia|exact I].
Qed.

Lemma normalize_not_nan (m e : Z) : normalize m e <> NaN.
Proof.
  unfold normalize. destruct (m =? 2 ^ prec).
  - change (2 ^ (prec - 1) =? 0) with false. cbv iota.
    destruct (e + 1 <=? emax - prec); discriminate.
  - destruct (m =? 0); [discriminate|]. destruct (e <=? emax - prec); discriminate.
Qed.

Lemma rn_ratio_wf (a b : Z) : 0 <= a -> 0 < b -> wf (rn_ratio a b).
Proof.
  intros Ha Hb. unfold rn_ratio. apply normalize_wf.
  - rewrite scaled_rne_units by (assumption || apply ulp_shift_nonneg).
    apply rne_div_nonneg.
    + pose proof U_pos. nia.
    + pose proof (pow2_pos _ (ulp_shift_nonneg a b)). nia.
  - pose proof (ulp_shift_nonneg a b). lia.
Qed.

Lemma rn_ratio_not_nan (a b : Z) : rn_ratio a b <> NaN.
Proof. apply normalize_not_nan. Qed.

(** A rounded quotient below the overflow threshold is a finite float. *)
Lemma rn_ratio_finite (a b : Z) : 0 <= a -> 0 < b ->
  units (rn_ratio a b) < top ->
  exists m e, rn_ratio a b = Fin m e /\ 0 <= m /\ emin <= e.
Proof.
  intros Ha Hb Hlt. pose proof (rn_ratio_wf a b Ha Hb) as Hwf.
  pose proof (rn_ratio_not_nan a b) as Hn.
  destruct (rn_ratio a b) as [m e| |]; cbn in *.
  - exists m, e. tauto.
  - lia.
  - congruence.
Qed.

Lemma units_nonneg (x : float64) : wf x -> 0 <= units x.
Proof.
  destruct x as [m e| |]; intros Hwf.
  - destruct Hwf as [Hm He]. unfold units.
    pose proof (pow2_pos (e - emin) ltac:(lia)). nia.
  - unfold units, top. apply Z.pow_nonneg. lia.
  - unfold units, top. apply Z.pow_nonneg. lia.
Qed.

Lemma pow2_split (e : Z) : emin <= e -> 2 ^ (e - emin) * 2 ^ Z.max (- e) 0 = U * 2 ^ Z.max e 0.
Proof.
  intros He. unfold U.
  rewrite <- !Z.pow_add_r by (unfold emin in *; lia).
  f_equal. lia.
Qed.

(** The product of two finite floats is the rounding of the exact product. *)
Lemma mul_units (m1 e1 m2 e2 : Z) : emin <= e1 -> emin <= e2 ->
  mul (Fin m1 e1) (Fin m2 e2)
  = rn_ratio (units (Fin m1 e1) * units (Fin m2 e2)) (U * U).
Proof.
  intros H1 H2. cbn [mul units].
  pose proof U_pos as HU.
  apply rn_ratio_ratio.
  - apply pow2_pos. lia.
  - nia.
  - assert (Hp : 2 ^ (e1 - emin) * 2 ^ (e2 - emin) * 2 ^ Z.max (- (e1 + e2)) 0
                 = U * U * 2 ^ Z.max (e1 + e2) 0).
    { unfold U. rewrite <- !Z.pow_add_r by (unfold emin in *; lia).
      f_equal. lia. }
    replace (m1 * 2 ^ (e1 - emin) * (m2 * 2 ^ (e2 - emin)) * 2 ^ Z.max (- (e1 + e2)) 0)
      with (m1 * m2 * (2 ^ (e1 - emin) * 2 ^ (e2 - emin) * 2 ^ Z.max (- (e1 + e2)) 0))
      by ring.
    rewrite Hp. ring.
Qed.

Lemma mul_mono_l (x x' y : float64) :
  wf x -> wf x' -> wf y ->
  (exists m e, x = Fin m e) -> (exists m e, x' = Fin m e) -> (exists m e, y = Fin m e) ->
  units x <= units x' -> units (mul x y) <= units (mul x' y).
Proof.
  intros Hx Hx' Hy [m [e ->]] [m' [e' ->]] [my [ey ->]] Hle.
  destruct Hx as [Hm He], Hx' as [Hm' He'], Hy as [Hmy Hey].
  rewrite !mul_units by assumption.
  pose proof U_pos as HU.
  pose proof (units_nonneg (Fin m e) (conj Hm He)) as H0.
  pose proof (units_nonneg (Fin m' e') (conj Hm' He')) as H0'.
  pose proof (units_nonneg (Fin my ey) (conj Hmy Hey)) as H0y.
  set (u := units (Fin m e)) in *. set (u' := units (Fin m' e')) in *.
  set (v := units (Fin my ey)) in *.
  assert (0 < U * U) by nia.
  apply rn_ratio_mono; try assumption.
  - apply Z.mul_nonneg_nonneg; assumption.
  - apply Z.mul_nonneg_nonneg; assumption.
  - apply Z.mul_le_mono_nonneg_r; [lia|].
    apply Z.mul_le_mono_nonneg_r; assumption.
Qed.

(** The decimal digits kept by [round] are those of the exact value. *)
Lemma decimal_digits_units (m e : Z) (nd : nat) : emin <= e ->
  decimal_digits (Fin m e) nd = Some (rne_div (units (Fin m e) * 10 ^ Z.of_nat nd) U).
Proof.
  intros He. cbn [decimal_digits units]. f_equal. unfold scaled_rne.
  pose proof U_pos as HU.
  destruct (Z.leb_spec 0 (- e)) as [Hle|Hlt].
  - pose proof (pow2_pos (- e) Hle).
    apply rne_div_ratio; [nia|assumption|].
    assert (Hp : 2 ^ (e - emin) * 2 ^ (- e) = U).
    { unfold U. rewrite <- Z.pow_add_r by (unfold emin in *; lia). f_equal. lia. }
    rewrite <- Hp at 1. ring.
  - apply rne_div_ratio; [lia|assumption|].
    assert (Hp : 2 ^ (- - e) * U = 2 ^ (e - emin)).
    { unfold U. rewrite <- Z.pow_add_r by (unfold emin in *; lia). f_equal. lia. }
    rewrite <- Hp. ring.
Qed.

Lemma decimal_digits_mono (x x' : float64) (nd : nat) (k k' : Z) :
  wf x -> wf x' -> units x <= units x' ->
  decimal_digits x nd = Some k -> decimal_digits x' nd = Some k' -> k <= k'.
Proof.
  intros Hx Hx' Hle Hk Hk'.
  destruct x as [m e| |]; try discriminate.
  destruct x' as [m' e'| |]; try discriminate.
  destruct Hx as [_ He], Hx' as [_ He'].
  rewrite decimal_digits_units in Hk, Hk' by assumption.
  injection Hk as <-. injection Hk' as <-.
  pose proof U_pos.
  assert (0 < 10 ^ Z.of_nat nd) by (apply Z.pow_pos_nonneg; lia).
  apply rne_div_mono; try assumption.
  cbn [units] in Hle.
  apply Z.mul_le_mono_nonneg_r; [lia|].
  apply Z.mul_le_mono_nonneg_r; lia.
Qed.

(** Rounding to an integer is off by at most one half. *)
Lemma rne_div_error (a b : Z) : 0 < b ->
  - b <= 2 * (rne_div a b * b - a) <= b.
Proof.
  intros Hb.
  pose proof (proj1 (rne_div_ge a b (rne_div a b) Hb) (Z.le_refl _)) as Hlo.
  assert (Hhi : ~ (rne_div a b + 1 <= rne_div a b)) by lia.
  rewrite (rne_div_ge a b (rne_div a b + 1) Hb) in Hhi.
  split; [|destruct Hlo as [H|[H _]]; nia].
  destruct (Z_lt_le_dec ((2 * (rne_div a b + 1) - 1) * b) (2 * a)) as [Hlt|Hge].
  - exfalso. apply Hhi. left. assumption.
  - nia.
Qed.

(** Rounding to binary64 is off by at most half a unit of [2^emin] in the
    subnormal range and by at most [2^-prec] of the value above it. *)
Lemma round_units_error (a b : Z) : 0 <= a -> 0 < b ->
  - (2 ^ (prec - 1) * b + a * U)
  <= 2 ^ prec * (round_units a b * b - a * U)
  <= 2 ^ (prec - 1) * b + a * U.
Proof.
  intros Ha Hb. unfold round_units.
  pose proof (ulp_shift_nonneg a b) as Hs.
  pose proof (pow2_pos (ulp_shift a b) Hs) as Hp.
  pose proof (rne_div_error (a * U) (b * 2 ^ ulp_shift a b) ltac:(nia)) as He.
  assert (Hprec : 2 ^ prec = 2 * 2 ^ (prec - 1)) by reflexivity.
  assert (Hp52 : 0 < 2 ^ (prec - 1)) by reflexivity.
  pose proof U_pos as HU.
  set (m := rne_div (a * U) (b * 2 ^ ulp_shift a b)) in *.
  assert (Hbound : 2 ^ (prec - 1) * (b * 2 ^ ulp_shift a b)
                   <= 2 ^ (prec - 1) * b + a * U).
  { destruct (Z.eq_dec (ulp_shift a b) 0) as [H0|H0].
    - rewrite H0. change (2 ^ 0) with 1. nia.
    - pose proof (ulp_shift_lower a b Ha Hb ltac:(lia)) as Hl.
      rewrite Z.pow_add_r in Hl by (unfold prec; lia). nia. }
  replace (m * 2 ^ ulp_shift a b * b - a * U)
    with (m * (b * 2 ^ ulp_shift a b) - a * U) by ring.
  rewrite Hprec. set (d := m * (b * 2 ^ ulp_shift a b) - a * U) in *.
  set (B := b * 2 ^ ulp_shift a b) in *. set (P := 2 ^ (prec - 1)) in *.
  split; nia.
Qed.

(** Below the overflow threshold the units of a rounded quotient are those
    of [round_units]. *)
Lemma units_rn_ratio_finite (a b : Z) : 0 <= a -> 0 < b ->
  units (rn_ratio a b) < top -> units (rn_ratio a b) = round_units a b.
Proof.
  intros Ha Hb Hlt. rewrite units_rn_ratio in * by assumption. lia.
Qed.

End B64Facts.

(** ** Completion rate *)

Module CompletionRate.

Import B64 B64Facts.
Open Scope Z_scope.

Lemma of_int_100 : of_int 100 = hundred.
Proof. vm_compute. reflexivity. Qed.

Lemma rn_ratio_1_1 : rn_ratio 1 1 = one.
Proof. vm_compute. reflexivity. Qed.

Lemma py_sum_from (l : list nat) (a : nat) :
  fold_left Nat.add l a = (a + fold_left Nat.add l 0)%nat.
Proof.
  revert a. induction l as [|x l IH]; intros a; cbn.
  - lia.
  - rewrite IH. rewrite (IH x). lia.
Qed.

Lemma py_sum_ones {A : Type} (l : list A) :
  py_sum (map (fun _ => 1%nat) l) = List.length l.
Proof.
  unfold py_sum. induction l as [|x l IH]; cbn; [reflexivity|].
  rewrite py_sum_from, IH. reflexivity.
Qed.

Lemma completed_le_total (tasks : list task) :
  (List.length (filter is_completed tasks) <= List.length tasks)%nat.
Proof. apply filter_length_le. Qed.

(** A quotient of at most one is a finite float of at most one. *)
Lemma quotient_finite (c n : Z) : 0 <= c <= n -> 0 < n ->
  exists m e, rn_ratio c n = Fin m e /\ 0 <= m /\ emin <= e
              /\ units (Fin m e) <= units one.
Proof.
  intros Hc Hn.
  assert (Hle : units (rn_ratio c n) <= units one).
  { rewrite <- rn_ratio_1_1. apply rn_ratio_mono; lia. }
  assert (Hlt : units (rn_ratio c n) < top).
  { eapply Z.le_lt_trans; [exact Hle|]. vm_compute. reflexivity. }
  destruct (rn_ratio_finite c n ltac:(lia) Hn Hlt) as [m [e [Heq [Hm He]]]].
  exists m, e. rewrite Heq in Hle. auto.
Qed.

(** Such a quotient times 100 is a finite float of at most 100. *)
Lemma percent_finite (m e : Z) : 0 <= m -> emin <= e ->
  units (Fin m e) <= units one ->
  exists m' e', mul (Fin m e) hundred = Fin m' e' /\ 0 <= m' /\ emin <= e'
                /\ units (Fin m' e') <= units hundred.
Proof.
  intros Hm He Hle.
  assert (Hh : mul one hundred = hundred) by (vm_compute; reflexivity).
  assert (Hle' : units (mul (Fin m e) hundred) <= units hundred).
  { rewrite <- Hh at 2. apply mul_mono_l.
    - split; assumption.
    - cbn. unfold emin. lia.
    - cbn. unfold emin. lia.
    - eauto.
    - unfold one. eauto.
    - unfold hundred. eauto.
    - exact Hle. }
  unfold hundred at 1 in Hle'. unfold hundred at 1.
  rewrite mul_units in * by (unfold emin in *; lia).
  set (a := units (Fin m e) * units (Fin 7036874417766400 (-46))) in *.
  assert (Ha : 0 <= a).
  { subst a. apply Z.mul_nonneg_nonneg.
    - apply units_nonneg. cbn. lia.
    - vm_compute. discriminate. }
  assert (Hlt : units (rn_ratio a (U * U)) < top).
  { eapply Z.le_lt_trans; [exact Hle'|]. vm_compute. reflexivity. }
  destruct (rn_ratio_finite a (U * U) Ha ltac:(reflexivity) Hlt) as [m' [e' [Heq [Hm' He']]]].
  exists m', e'. rewrite Heq in *. auto.
Qed.

Lemma hundredths_bounds (m e : Z) : 0 <= m -> emin <= e ->
  units (Fin m e) <= units hundred ->
  exists k, decimal_digits (Fin m e) 2 = Some k /\ 0 <= k <= 10000.
Proof.
  intros Hm He Hle. rewrite decimal_digits_units by assumption.
  eexists. split; [reflexivity|].
  pose proof U_pos as HU.
  pose proof (units_nonneg (Fin m e) (conj Hm He)) as H0.
  split.
  - apply rne_div_nonneg; [|assumption]. change (10 ^ Z.of_nat 2) with 100. lia.
  - replace 10000 with (rne_div (units hundred * 10 ^ Z.of_nat 2) U)
      by (vm_compute; reflexivity).
    apply rne_div_mono; try assumption.
    change (10 ^ Z.of_nat 2) with 100.
    apply Z.mul_le_mono_nonneg_r; lia.
Qed.

Lemma int_truediv_finite (a b : nat) (m e : Z) : b <> O ->
  rn_ratio (Z.of_nat a) (Z.of_nat b) = Fin m e -> int_truediv a b = Ok (Fin m e).
Proof.
  intros Hb Hq. unfold int_truediv. destruct b; [congruence|].
  rewrite Hq. reflexivity.
Qed.

(** The rate of a non-empty store, step by step. *)
Lemma rate_steps (tasks : list task) : tasks <> [] ->
  let c := Z.of_nat (List.length (filter is_completed tasks)) in
  let n := Z.of_nat (List.length tasks) in
  exists q p k,
    int_truediv (List.length (filter is_completed tasks)) (List.length tasks) = Ok q
    /\ float_mul_int q 100 = Ok p
    /\ calculate_completion_rate tasks = Ok (PyFloat (round p 2))
    /\ percent_digits c n = Some k
    /\ round p 2 = rn_ratio k 100
    /\ 0 <= k <= 10000.
Proof.
  intros Hne c n.
  assert (Hn : 0 < n) by (subst n; destruct tasks; [congruence|cbn; lia]).
  assert (Hc : 0 <= c <= n) by (pose proof (completed_le_total tasks); lia).
  destruct (quotient_finite c n Hc Hn) as [m [e [Hq [Hm [He Hle]]]]].
  destruct (percent_finite m e Hm He Hle) as [m' [e' [Hp [Hm' [He' Hle']]]]].
  destruct (hundredths_bounds m' e' Hm' He' Hle') as [k [Hk Hkb]].
  exists (Fin m e), (Fin m' e'), k.
  assert (Hdiv : int_truediv (List.length (filter is_completed tasks)) (List.length tasks)
                 = Ok (Fin m e)).
  { apply int_truediv_finite; [|exact Hq].
    destruct tasks; [congruence|discriminate]. }
  assert (Hmul : float_mul_int (Fin m e) 100 = Ok (Fin m' e')).
  { unfold float_mul_int. change (Z.of_nat 100) with 100. rewrite of_int_100.
    unfold hundred at 1. fold hundred. rewrite Hp. reflexivity. }
  split; [exact Hdiv|]. split; [exact Hmul|].
  split; [|split; [|split; [|exact Hkb]]].
  - destruct tasks as [|t tasks]; [congruence|].
    unfold calculate_completion_rate. rewrite py_sum_ones, Hdiv. cbn [bind].
    rewrite Hmul. reflexivity.
  - unfold percent_digits. rewrite Hq, of_int_100, Hp. exact Hk.
  - unfold round. rewrite Hk. reflexivity.
Qed.

Lemma percent_digits_mono (c n c' n' k k' : Z) :
  0 <= c <= n -> 0 < n -> 0 <= c' <= n' -> 0 < n' -> c * n' <= c' * n ->
  percent_digits c n = Some k -> percent_digits c' n' = Some k' -> k <= k'.
Proof.
  intros Hc Hn Hc' Hn' Hle. unfold percent_digits. rewrite of_int_100.
  destruct (quotient_finite c n Hc Hn) as [m [e [Hq [Hm [He Hq1]]]]].
  destruct (quotient_finite c' n' Hc' Hn') as [m' [e' [Hq' [Hm' [He' Hq1']]]]].
  assert (Hu : units (rn_ratio c n) <= units (rn_ratio c' n'))
    by (apply rn_ratio_mono; lia).
  rewrite Hq, Hq' in *.
  destruct (percent_finite m e Hm He Hq1) as [mp [ep [Hp [Hmp [Hep _]]]]].
  destruct (percent_finite m' e' Hm' He' Hq1') as [mp' [ep' [Hp' [Hmp' [Hep' _]]]]].
  assert (Hup : units (mul (Fin m e) hundred) <= units (mul (Fin m' e') hundred)).
  { apply mul_mono_l.
    - split; assumption.
    - split; assumption.
    - cbn. unfold emin. lia.
    - eauto.
    - eauto.
    - unfold hundred. eauto.
    - exact Hu. }
  rewrite Hp, Hp' in *.
  apply decimal_digits_mono; cbn; auto.
Qed.

Lemma percent_digits_ratio (c n c' n' k k' : Z) :
  0 <= c <= n -> 0 < n -> 0 <= c' <= n' -> 0 < n' -> c * n' = c' * n ->
  percent_digits c n = Some k -> percent_digits c' n' = Some k' -> k = k'.
Proof.
  intros Hc Hn Hc' Hn' He Hk Hk'. apply Z.le_antisymm.
  - apply (percent_digits_mono c n c' n' k k'); auto; lia.
  - apply (percent_digits_mono c' n' c n k' k); auto; lia.
Qed.

Lemma units_hundred : units hundred = 100 * U.
Proof. vm_compute. reflexivity. Qed.

Lemma units_one : units one = U.
Proof. vm_compute. reflexivity. Qed.

Lemma U_large : 2 ^ 20 <= U.
Proof. vm_compute. discriminate. Qed.

(** Three roundings in a row: the quotient [q] of [c / n], the product [p]
    of [q] and 100, the hundredths [k] of [p], all counted in units [u]. *)
Lemma three_roundings (u c n q p k : Z) :
  1048576 <= u -> 0 <= c <= n -> 0 < n -> 0 <= q <= u ->
  - (4503599627370496 * n + c * u)
    <= 9007199254740992 * (q * n - c * u)
    <= 4503599627370496 * n + c * u ->
  - (4503599627370496 * (u * u) + q * (100 * u) * u)
    <= 9007199254740992 * (p * (u * u) - q * (100 * u) * u)
    <= 4503599627370496 * (u * u) + q * (100 * u) * u ->
  - u <= 2 * (k * u - p * 100) <= u ->
  10000 * c - n < k * n < 10000 * c + n.
Proof.
  intros Hu Hc Hn Hq E1 E2 E3.
  assert (HUU : 0 < u * u) by nia.
  assert (E2' : - (4503599627370496 + 100 * q)
                <= 9007199254740992 * (p - 100 * q)
                <= 4503599627370496 + 100 * q).
  { split.
    - apply (Z.mul_le_mono_pos_r _ _ (u * u) HUU). lia.
    - apply (Z.mul_le_mono_pos_r _ _ (u * u) HUU). lia. }
  clear E2.
  assert (A3 : - (9007199254740992 * (n * u))
               <= 2 * 9007199254740992 * (n * (k * u) - 100 * (n * p))
               <= 9007199254740992 * (n * u)).
  { assert (H1 : n * (- u) <= n * (2 * (k * u - p * 100)))
      by (apply Z.mul_le_mono_nonneg_l; lia).
    assert (H2 : n * (2 * (k * u - p * 100)) <= n * u)
      by (apply Z.mul_le_mono_nonneg_l; lia).
    lia. }
  assert (A2 : - (200 * (4503599627370496 * n + 100 * (n * q)))
               <= 200 * 9007199254740992 * (n * p - 100 * (n * q))
               <= 200 * (4503599627370496 * n + 100 * (n * q))).
  { assert (H1 : n * (- (4503599627370496 + 100 * q))
                 <= n * (9007199254740992 * (p - 100 * q)))
      by (apply Z.mul_le_mono_nonneg_l; lia).
    assert (H2 : n * (9007199254740992 * (p - 100 * q))
                 <= n * (4503599627370496 + 100 * q))
      by (apply Z.mul_le_mono_nonneg_l; lia).
    lia. }
  assert (Hqn : n * q <= n * u) by (apply Z.mul_le_mono_nonneg_l; lia).
  assert (Hcu : c * u <= n * u) by (apply Z.mul_le_mono_nonneg_r; lia).
  assert (Hnu : 1048576 * n <= n * u).
  { rewrite (Z.mul_comm 1048576 n). apply Z.mul_le_mono_nonneg_l; lia. }
  assert (Hx : - (n * u) < (k * n - 10000 * c) * u < n * u) by lia.
  split.
  - apply (Z.mul_lt_mono_pos_r u); lia.
  - apply (Z.mul_lt_mono_pos_r u); lia.
Qed.

(** The displayed hundredths differ from the exact ones by less than one. *)
Lemma percent_digits_near (c n k : Z) : 0 <= c <= n -> 0 < n ->
  percent_digits c n = Some k ->
  10000 * c - n < k * n < 10000 * c + n.
Proof.
  intros Hc Hn. unfold percent_digits. rewrite of_int_100.
  destruct (quotient_finite c n Hc Hn) as [m [e [Hq [Hm [He Hq1]]]]].
  pose proof (units_rn_ratio_finite c n ltac:(lia) Hn) as Hqu.
  rewrite Hq in *.
  assert (Hqt : units (Fin m e) < top).
  { eapply Z.le_lt_trans; [exact Hq1|]. vm_compute. reflexivity. }
  specialize (Hqu Hqt).
  pose proof (round_units_error c n ltac:(lia) Hn) as E1. rewrite <- Hqu in E1.
  destruct (percent_finite m e Hm He Hq1) as [mp [ep [Hp [Hmp [Hep Hp1]]]]].
  pose proof Hp as Hp'. unfold hundred at 1 in Hp'.
  rewrite mul_units in Hp' by (unfold emin in *; lia). fold hundred in Hp'.
  pose proof (units_nonneg (Fin m e) (conj Hm He)) as Hq0.
  pose proof U_pos as HU.
  assert (Ha0 : 0 <= units (Fin m e) * units hundred).
  { rewrite units_hundred. apply Z.mul_nonneg_nonneg; lia. }
  assert (HUU : 0 < U * U) by (apply Z.mul_pos_pos; assumption).
  pose proof (units_rn_ratio_finite (units (Fin m e) * units hundred) (U * U) Ha0 HUU) as Hpu.
  rewrite Hp' in Hpu.
  assert (Hpt : units (Fin mp ep) < top).
  { eapply Z.le_lt_trans; [exact Hp1|]. vm_compute. reflexivity. }
  specialize (Hpu Hpt).
  pose proof (round_units_error (units (Fin m e) * units hundred) (U * U) Ha0 HUU) as E2.
  rewrite <- Hpu, units_hundred in E2.
  rewrite Hp. rewrite decimal_digits_units by assumption.
  intros Hk.
  assert (Hk2 : rne_div (units (Fin mp ep) * 100) U = k)
    by (injection Hk; intros H; exact H).
  pose proof (rne_div_error (units (Fin mp ep) * 100) U HU) as E3.
  rewrite Hk2 in E3.
  rewrite units_one in Hq1.
  apply (three_roundings U c n (units (Fin m e)) (units (Fin mp ep)) k).
  - exact U_large.
  - exact Hc.
  - exact Hn.
  - split; assumption.
  - exact E1.
  - exact E2.
  - exact E3.
Qed.

End CompletionRate.

(** C1 (counterexample).  With 23 completed tasks out of 160 the function
    returns 14.37, while [round(100 * 23 / 160, 2)] is 14.38 (the exact rate
    14.375 is a tie; the quotient 23/160 is rounded before it is multiplied
    by 100, and the product falls just below 14.375). *)
Lemma completion_rate_formula_fails :
  calculate_completion_rate (sample_store 23 160%Z) = Ok (PyFloat (B64.rn_ratio 1437 100))
  /\ spec_completion_rate (sample_store 23 160%Z) = Ok (PyFloat (B64.rn_ratio 1438 100))
  /\ exact_rate_hundredths 23 160 = 1438%Z
  /\ calculate_completion_rate (sample_store 23 160%Z)
     <> spec_completion_rate (sample_store 23 160%Z).
Proof.
  assert (H1 : calculate_completion_rate (sample_store 23 160%Z)
               = Ok (PyFloat (B64.rn_ratio 1437 100))) by (vm_compute; reflexivity).
  assert (H2 : spec_completion_rate (sample_store 23 160%Z)
               = Ok (PyFloat (B64.rn_ratio 1438 100))) by (vm_compute; reflexivity).
  split; [exact H1|]. split; [exact H2|]. split.
  - vm_compute. reflexivity.
  - intros Heq. rewrite H1, H2 in Heq. vm_compute in Heq. discriminate Heq.
Qed.

(** C1 (amended).  [calculate_completion_rate] returns the int 0 for the
    empty sequence.  For a non-empty one it returns
    [round((completed / total) * 100, 2)] evaluated in binary64, the quotient
    being rounded before the multiplication, where [completed] counts the
    tasks whose status equals "Completed"; no step raises.  The result is the
    float nearest to [k / 100] for an integer [k] that differs from the exact
    rate [10000 * completed / total] by less than one: its floor or its
    ceiling. *)
Theorem completion_rate_value (tasks : list task) :
  match tasks with
  | [] => calculate_completion_rate tasks = Ok (PyInt 0)
  | _ :: _ =>
      let completed := List.length (filter is_completed tasks) in
      let total := List.length tasks in
      exists q p k,
        int_truediv completed total = Ok q
        /\ float_mul_int q 100 = Ok p
        /\ calculate_completion_rate tasks = Ok (PyFloat (B64.round p 2))
        /\ B64.round p 2 = B64.rn_ratio k 100
        /\ (10000 * Z.of_nat completed - Z.of_nat total < k * Z.of_nat total
            < 10000 * Z.of_nat completed + Z.of_nat total)%Z
  end.
Proof.
  destruct tasks as [|t tasks]; [reflexivity|].
  intros completed total.
  destruct (CompletionRate.rate_steps (t :: tasks) ltac:(discriminate))
    as [q [p [k [Hq [Hp [Hr [Hk [Hround Hkb]]]]]]]].
  exists q, p, k.
  split; [exact Hq|]. split; [exact Hp|]. split; [exact Hr|]. split; [exact Hround|].
  apply CompletionRate.percent_digits_near in Hk.
  - subst completed total. lia.
  - pose proof (CompletionRate.completed_le_total (t :: tasks)). lia.
  - cbn [List.length]. lia.
Qed.

(** C2 (counterexample).  One completed task among 20001: the store is not
    empty, a task is completed, and the rate is 0.0. *)
Lemma completion_rate_zero_with_completed :
  sample_store 1 20001%Z <> []
  /\ List.length (filter is_completed (sample_store 1 20001%Z)) = 1%nat
  /\ calculate_completion_rate (sample_store 1 20001%Z) = Ok (PyFloat B64.zero).
Proof.
  split; [discriminate|]. split; vm_compute; reflexivity.
Qed.

(** C2 (amended).  For every non-empty task sequence the rate is a float in
    [0, 100]; it is 0 when no task is completed and, more generally, whenever
    the completed tasks are at most one in 20001; it is not 0 when they are
    at least one in 20000. *)
Theorem completion_rate_range (tasks : list task) :
  tasks <> [] ->
  let completed := Z.of_nat (List.length (filter is_completed tasks)) in
  let total := Z.of_nat (List.length tasks) in
  exists r,
    calculate_completion_rate tasks = Ok (PyFloat r)
    /\ B64.leb B64.zero r = true
    /\ B64.leb r (B64.of_int 100) = true
    /\ (completed = 0 -> r = B64.zero)%Z
    /\ (20001 * completed <= total -> r = B64.zero)%Z
    /\ (total <= 20000 * completed -> r <> B64.zero)%Z.
Proof.
  intros Hne completed total.
  destruct (CompletionRate.rate_steps tasks Hne)
    as [q [p [k [Hq [Hp [Hr [Hk [Hround Hkb]]]]]]]].
  fold completed in Hk. fold total in Hk.
  assert (Hn : (0 < total)%Z) by (subst total; destruct tasks; [congruence|cbn; lia]).
  assert (Hc : (0 <= completed <= total)%Z)
    by (pose proof (CompletionRate.completed_le_total tasks); lia).
  exists (B64.round p 2). rewrite Hround.
  assert (Hu : (B64.units (B64.rn_ratio k 100) <= B64.units (B64.of_int 100))%Z).
  { replace (B64.of_int 100) with (B64.rn_ratio 10000 100) by (vm_compute; reflexivity).
    apply B64Facts.rn_ratio_mono; lia. }
  assert (Hfin : exists m e, B64.rn_ratio k 100 = B64.Fin m e /\ (0 <= m)%Z /\ (B64.emin <= e)%Z).
  { apply B64Facts.rn_ratio_finite; try lia.
    eapply Z.le_lt_trans; [exact Hu|]. vm_compute. reflexivity. }
  destruct Hfin as [m [e [Hfin [Hm He]]]].
  assert (Hzero : (k = 0 -> B64.rn_ratio k 100 = B64.zero)%Z).
  { intros ->. vm_compute. reflexivity. }
  assert (Hpos : (1 <= k -> B64.rn_ratio k 100 <> B64.zero)%Z).
  { intros Hk1 Heq.
    assert (Hge : (B64.units (B64.rn_ratio 1 100) <= B64.units (B64.rn_ratio k 100))%Z)
      by (apply B64Facts.rn_ratio_mono; lia).
    rewrite Heq in Hge. vm_compute in Hge. apply Hge. reflexivity. }
  split; [rewrite <- Hround; exact Hr|].
  split.
  { rewrite Hfin. unfold B64.leb, B64.zero. apply Z.leb_le.
    pose proof (B64Facts.units_nonneg (B64.Fin m e) (conj Hm He)).
    change (B64.units (B64.Fin 0 B64.emin)) with 0%Z. assumption. }
  split.
  { rewrite Hfin in *. replace (B64.of_int 100) with B64.hundred in *
      by (vm_compute; reflexivity).
    unfold B64.leb, B64.hundred. apply Z.leb_le. exact Hu. }
  split.
  { intros Hc0. apply Hzero.
    assert (H0 : percent_digits 0 1 = Some 0%Z) by (vm_compute; reflexivity).
    symmetry. apply (CompletionRate.percent_digits_ratio 0 1 completed total 0 k); try lia.
    - exact H0.
    - exact Hk. }
  split.
  { intros Hsmall. apply Hzero.
    assert (H0 : percent_digits 1 20001 = Some 0%Z) by (vm_compute; reflexivity).
    assert (k <= 0)%Z; [|lia].
    apply (CompletionRate.percent_digits_mono completed total 1 20001 k 0); try lia.
    - exact Hk.
    - exact H0. }
  { intros Hbig. apply Hpos.
    assert (H1 : percent_digits 1 20000 = Some 1%Z) by (vm_compute; reflexivity).
    apply (CompletionRate.percent_digits_mono 1 20000 completed total 1 k); try lia.
    - exact H1.
    - exact Hk. }
Qed.

(** C2 on a store of one pending and one completed task. *)
Lemma completion_rate_range_witness :
  [sample_task "Pending"; sample_task "Completed"] <> []
  /\ exists r,
       calculate_completion_rate [sample_task "Pending"; sample_task "Completed"]
       = Ok (PyFloat r)
       /\ B64.leb B64.zero r = true
       /\ B64.leb r (B64.of_int 100) = true.
Proof.
  split; [discriminate|].
  destruct (completion_rate_range [sample_task "Pending"; sample_task "Completed"]
              ltac:(discriminate)) as [r [H1 [H2 [H3 _]]]].
  exists r. auto.
Defined.

(** ** The task store and the pages *)

Section Pages.

Variable stem : string -> string.
Variable stopwords : list string.
Variable vec : Type.
Variable encode : list string -> list vec.
Variable train_test_split :
  list vec -> list nat -> result (list vec * list vec * list nat * list nat).
Variable linear_model : Type.
Variable logreg_fit : list vec -> list nat -> linear_model.
Variable model : Type.
Variable xgb_fit : xgb_params -> list vec -> list nat -> model.
Variable xgb_score : model -> list vec -> list nat -> B64.float64.
Variable xgb_predict : model -> list vec -> list nat.
Variable sampler : Type.
Variable suggest_int : sampler -> string -> Z -> Z -> Z * sampler.
Variable suggest_float :
  sampler -> string -> B64.float64 -> B64.float64 -> B64.float64 * sampler.
Variable tell : sampler -> trial -> sampler.

Local Abbreviation script :=
  (run_script stem stopwords vec encode train_test_split linear_model logreg_fit
     model xgb_fit xgb_score xgb_predict sampler suggest_int suggest_float tell).

Local Abbreviation session :=
  (run_session stem stopwords vec encode train_test_split linear_model logreg_fit
     model xgb_fit xgb_score xgb_predict sampler suggest_int suggest_float tell).

Lemma task_list_init (s : session_state) : task_list (init_session s) = task_list s.
Proof. destruct s as [[l|]]; reflexivity. Qed.

Lemma str_truthy_spec (d : string) : str_truthy d = true <-> d <> "".
Proof.
  unfold str_truthy. destruct (String.eqb_spec d ""); cbn; split; congruence.
Qed.

(** What one run does to the store, page by page. *)
Lemma run_script_store (inp : inputs) (smp : sampler) (s : session_state) :
  task_list (fst (script inp smp s))
  = if match navigation inp with AddTask => true | _ => false end
       && form_submitted (add_form inp)
       && str_truthy (form_description (add_form inp))
    then (task_list s ++ [new_task (add_form inp)])%list
    else task_list s.
Proof.
  unfold run_script.
  destruct (navigation inp); cbn [andb fst dashboard_page tasks_page ai_insights_page];
    try apply task_list_init.
  - unfold add_task_page.
    destruct (form_submitted (add_form inp) && str_truthy (form_description (add_form inp))).
    + cbn. rewrite task_list_init. reflexivity.
    + cbn. apply task_list_init.
  - unfold tasks_page.
    destruct (negb (Pandas.empty (task_dataframe (init_session s))));
      cbn; apply task_list_init.
Qed.

(** C5.  On the Add Task page, a submission whose description is empty
    leaves the task store exactly as it was and draws nothing but the page
    header: no task, no success message, no error.  A submission with a
    non-empty description appends exactly one record, built from the form,
    at the end of the store. *)
Theorem add_task_submission (inp : inputs) (smp : sampler) (s : session_state) :
  navigation inp = AddTask ->
  form_submitted (add_form inp) = true ->
  (form_description (add_form inp) = "" ->
     task_list (fst (script inp smp s)) = task_list s
     /\ snd (script inp smp s) = Ok [ Header "Add New Task" ])
  /\ (form_description (add_form inp) <> "" ->
        task_list (fst (script inp smp s))
        = (task_list s ++ [new_task (add_form inp)])%list
        /\ snd (script inp smp s)
           = Ok [ Header "Add New Task"; Success "Task added successfully!" ]).
Proof.
  intros Hnav Hsub. split.
  - intros Hd. rewrite run_script_store, Hnav, Hsub, Hd. split; [reflexivity|].
    unfold run_script. rewrite Hnav. unfold add_task_page.
    rewrite Hsub, Hd. reflexivity.
  - intros Hd. apply str_truthy_spec in Hd.
    rewrite run_script_store, Hnav, Hsub, Hd. split; [reflexivity|].
    unfold run_script. rewrite Hnav. unfold add_task_page.
    rewrite Hsub, Hd. reflexivity.
Qed.

Lemma run_session_store (runs : list (inputs * sampler)) (s : session_state) :
  exists added, task_list (session runs s) = (task_list s ++ added)%list
                /\ (Forall (fun r => navigation (fst r) <> AddTask) runs -> added = []).
Proof.
  unfold run_session. revert s.
  induction runs as [|[inp smp] runs IH]; intros s; cbn [fold_left].
  - exists []. split; [symmetry; apply app_nil_r|reflexivity].
  - destruct (IH (fst (script inp smp s))) as [added [Heq Hnone]].
    cbn [fst snd] in *.
    pose proof (run_script_store inp smp s) as Hstep.
    destruct (match navigation inp with AddTask => true | _ => false end
              && form_submitted (add_form inp)
              && str_truthy (form_description (add_form inp))) eqn:Hc.
    + exists (new_task (add_form inp) :: added). split.
      * rewrite Heq, Hstep, <- app_assoc. reflexivity.
      * intros Hall. inversion Hall as [|x l Hx Hl]; subst. cbn in Hx.
        destruct (navigation inp); cbn in Hc; congruence.
    + exists added. split.
      * rewrite Heq, Hstep. reflexivity.
      * intros Hall. inversion Hall; subst. auto.
Qed.

(** C9.  A run of the script changes the task store only on the Add Task
    page, and only for a submitted form with a non-empty description; the
    change is one record appended at the end.  Dashboard, Task List and AI
    Insights leave the store as it was.  Over a whole session, whatever the
    sequence of interactions, the store at the start is a prefix of the
    store at the end: no record is altered, moved or removed. *)
Theorem task_store_append_only (inp : inputs) (smp : sampler)
  (runs : list (inputs * sampler)) (s : session_state) :
  (task_list (fst (script inp smp s)) = task_list s
   \/ (navigation inp = AddTask
       /\ form_submitted (add_form inp) = true
       /\ form_description (add_form inp) <> ""
       /\ task_list (fst (script inp smp s))
          = (task_list s ++ [new_task (add_form inp)])%list))
  /\ (navigation inp <> AddTask -> task_list (fst (script inp smp s)) = task_list s)
  /\ (exists added, task_list (session runs s) = (task_list s ++ added)%list)
  /\ (Forall (fun r => navigation (fst r) <> AddTask) runs ->
      task_list (session runs s) = task_list s).
Proof.
  pose proof (run_script_store inp smp s) as Hstep.
  split; [|split; [|split]].
  - destruct (navigation inp) eqn:Hnav; cbn [andb] in Hstep; auto.
    destruct (form_submitted (add_form inp)) eqn:Hsub; cbn [andb] in Hstep; auto.
    destruct (str_truthy (form_description (add_form inp))) eqn:Hd; auto.
    right. apply str_truthy_spec in Hd. auto.
  - intros Hnav. destruct (navigation inp); cbn [andb] in Hstep; congruence.
  - destruct (run_session_store runs s) as [added [Heq _]]. eauto.
  - intros Hall. destruct (run_session_store runs s) as [added [Heq Hnone]].
    rewrite Heq, (Hnone Hall). apply app_nil_r.
Qed.

End Pages.

(** ** The Task List filters *)

Lemma filter_twice {A : Type} (p q : A -> bool) (l : list A) :
  filter q (filter p l) = filter (fun x => p x && q x) l.
Proof.
  induction l as [|x l IH]; cbn; [reflexivity|].
  destruct (p x); cbn; [destruct (q x)|]; rewrite IH; reflexivity.
Qed.

Lemma filter_all {A : Type} (p : A -> bool) (l : list A) :
  (forall x, p x = true) -> filter p l = l.
Proof.
  intros H. induction l as [|x l IH]; cbn; [reflexivity|].
  rewrite H, IH. reflexivity.
Qed.

Lemma filter_tasks_spec (sf pf : string) (df : Pandas.DataFrame task) :
  filter_tasks sf pf df = filter (fun row => matches_filters sf pf (snd row)) df.
Proof.
  unfold filter_tasks, matches_filters, Pandas.select.
  destruct (String.eqb sf "All"), (String.eqb pf "All"); cbn [negb orb].
  - symmetry. apply filter_all. reflexivity.
  - apply filter_ext. intros row. reflexivity.
  - apply filter_ext. intros row. rewrite andb_true_r. reflexivity.
  - apply filter_twice.
Qed.

Lemma from_records_rows {A : Type} (l : list A) :
  map snd (Pandas.from_records l) = l
  /\ map fst (Pandas.from_records l) = seq 0 (List.length l).
Proof.
  unfold Pandas.from_records. generalize 0%nat.
  induction l as [|x l IH]; intros n; cbn; [auto|].
  destruct (IH (S n)) as [H1 H2]. rewrite H1, H2. auto.
Qed.

Lemma empty_nil {A : Type} (df : Pandas.DataFrame A) :
  Pandas.empty df = true -> df = [].
Proof. destruct df; [reflexivity|discriminate]. Qed.

(** C10.  For every task list and every choice in the two select boxes, the
    rows of the table the Task List page shows are exactly the rows of the
    task frame whose status equals the selected status (every status when
    "All" is selected) and whose priority equals the selected priority (every
    priority when "All" is selected), in insertion order and with their
    original row numbers; with both filters on "All" the table is the whole
    list.  The table is drawn whenever there is at least one task. *)
Theorem task_list_filter (ts : list task) (c : filter_choice) :
  let s := mkSession (Some ts) in
  let df := task_dataframe s in
  let status_filter :=
    selectbox ("All" :: Pandas.unique (Pandas.column status df)) (status_choice_index c) in
  let priority_filter :=
    selectbox ("All" :: Pandas.unique (Pandas.column priority df)) (priority_choice_index c) in
  page_rows (snd (tasks_page c s))
  = filter (fun row => matches_filters status_filter priority_filter (snd row)) df
  /\ (forall row, In row (page_rows (snd (tasks_page c s))) <->
        In row df
        /\ (status_filter = "All" \/ status (snd row) = status_filter)
        /\ (priority_filter = "All" \/ priority (snd row) = priority_filter))
  /\ map snd df = ts
  /\ map fst df = seq 0 (List.length ts)
  /\ filter_tasks "All" "All" df = df
  /\ match ts with
     | [] => True
     | _ :: _ =>
         snd (tasks_page c s)
         = Ok [ Header "All Tasks";
                TaskTable (filter_tasks status_filter priority_filter df) ]
     end
  /\ fst (tasks_page c s) = s.
Proof.
  intros s df status_filter priority_filter.
  assert (Hrows : page_rows (snd (tasks_page c s))
                  = filter (fun row => matches_filters status_filter priority_filter (snd row)) df).
  { unfold tasks_page. fold df.
    destruct (Pandas.empty df) eqn:He; cbn [negb snd page_rows displayed_rows].
    - rewrite (empty_nil df He). reflexivity.
    - apply filter_tasks_spec. }
  split; [exact Hrows|]. split.
  { intros row. rewrite Hrows, filter_In. unfold matches_filters.
    rewrite andb_true_iff, !orb_true_iff, !String.eqb_eq. tauto. }
  destruct (from_records_rows ts) as [H1 H2].
  split; [exact H1|]. split; [exact H2|]. split; [reflexivity|]. split.
  - destruct ts as [|t ts']; [exact I|]. reflexivity.
  - unfold tasks_page. destruct (negb (Pandas.empty (task_dataframe s))); reflexivity.
Qed.

(** ** The recommended user *)

Module Recommend.

Import Pandas.

Lemma first_min_fold (best : entry) (l : list entry) :
  first_min best l = fst (key_or best (pick best (first_min_entry l))).
Proof.
  revert best. induction l as [|y l IH]; intros best; cbn [first_min].
  - reflexivity.
  - destruct (Nat.ltb_spec (snd y) (snd best)) as [Hlt|Hge]; rewrite IH;
      cbn [first_min_entry fold_right]; fold (first_min_entry l);
      destruct (first_min_entry l) as [m|]; cbn [pick key_or].
    + destruct (Nat.leb_spec (snd y) (snd m)); cbn [pick key_or].
      * destruct (Nat.leb_spec (snd best) (snd y)); [lia|reflexivity].
      * destruct (Nat.leb_spec (snd best) (snd m)); [lia|reflexivity].
    + destruct (Nat.leb_spec (snd best) (snd y)); [lia|reflexivity].
    + destruct (Nat.leb_spec (snd y) (snd m)); cbn [pick key_or].
      * destruct (Nat.leb_spec (snd best) (snd m)), (Nat.leb_spec (snd best) (snd y));
          try reflexivity; lia.
      * destruct (Nat.leb_spec (snd best) (snd m)); reflexivity.
    + destruct (Nat.leb_spec (snd best) (snd y)); [reflexivity|lia].
Qed.

Lemma first_min_entry_insert (x : entry) (l : list entry) :
  first_min_entry (insert_desc x l) = first_min_entry (x :: l).
Proof.
  induction l as [|y l IH]; cbn [insert_desc]; [reflexivity|].
  destruct (Nat.leb_spec (snd y) (snd x)) as [Hle|Hgt]; [reflexivity|].
  change (first_min_entry (y :: insert_desc x l))
    with (pick y (first_min_entry (insert_desc x l))).
  rewrite IH.
  change (first_min_entry (x :: l)) with (pick x (first_min_entry l)).
  change (first_min_entry (x :: y :: l)) with (pick x (pick y (first_min_entry l))).
  destruct (first_min_entry l) as [m|]; cbn [pick].
  - destruct (Nat.leb_spec (snd x) (snd m)), (Nat.leb_spec (snd y) (snd m)); cbn [pick];
      repeat match goal with
             | |- context [(?a <=? ?b)%nat] => destruct (Nat.leb_spec a b)
             end; try reflexivity; lia.
  - destruct (Nat.leb_spec (snd y) (snd x)), (Nat.leb_spec (snd x) (snd y));
      try reflexivity; lia.
Qed.

Lemma first_min_entry_sort (l : list entry) :
  first_min_entry (sort_desc l) = first_min_entry l.
Proof.
  induction l as [|x l IH]; [reflexivity|].
  cbn [sort_desc fold_right]. fold (sort_desc l).
  rewrite first_min_entry_insert.
  change (pick x (first_min_entry (sort_desc l)) = pick x (first_min_entry l)).
  rewrite IH. reflexivity.
Qed.

Lemma first_min_entry_spec (l : list entry) (e : entry) :
  first_min_entry l = Some e -> is_first_min e l.
Proof.
  revert e. induction l as [|x l IH]; intros e He; [discriminate|].
  change (pick x (first_min_entry l) = Some e) in He.
  destruct (first_min_entry l) as [m|] eqn:Hm; cbn [pick] in He.
  - destruct (IH m eq_refl) as [before [after [Hl [Hb Ha]]]].
    destruct (Nat.leb_spec (snd x) (snd m)) as [Hle|Hgt]; injection He as <-.
    + exists [], l. split; [reflexivity|]. split; [intros b []|].
      intros a Hin. rewrite Hl in Hin. apply in_app_or in Hin.
      destruct Hin as [Hin|[<-|Hin]].
      * specialize (Hb a Hin). lia.
      * assumption.
      * specialize (Ha a Hin). lia.
    + exists (x :: before), after. split; [rewrite Hl; reflexivity|].
      split; [|assumption].
      intros b [<-|Hin]; [assumption|auto].
  - injection He as <-. destruct l as [|y l]; [|cbn in Hm; destruct (fold_right pick None l);
      cbn in Hm; try destruct (_ <=? _)%nat; discriminate].
    exists [], []. split; [reflexivity|]. split; intros ? [].
Qed.

Lemma first_min_entry_some (l : list entry) :
  l <> [] -> exists e, first_min_entry l = Some e.
Proof.
  destruct l as [|x l]; [congruence|]. intros _.
  change (first_min_entry (x :: l)) with (pick x (first_min_entry l)).
  destruct (first_min_entry l) as [m|]; cbn [pick]; [|eauto].
  destruct (snd x <=? snd m)%nat; eauto.
Qed.

Lemma idxmin_first_min (l : list entry) (e : entry) :
  first_min_entry l = Some e -> idxmin l = Ok (fst e).
Proof.
  destruct l as [|x l]; [discriminate|]. intros He.
  cbn [idxmin]. rewrite first_min_fold.
  change (first_min_entry (x :: l)) with (pick x (first_min_entry l)) in He.
  rewrite He. reflexivity.
Qed.

(** *** The tally *)

Lemma bump_keys (x : string) (t : list entry) :
  keys (bump x t) = if mem_string x (keys t) then keys t else (keys t ++ [x])%list.
Proof.
  induction t as [|[y c] t IH]; cbn; [reflexivity|].
  destruct (String.eqb x y); cbn; [reflexivity|].
  fold (keys (bump x t)). fold (keys t). rewrite IH.
  fold (mem_string x (keys t)).
  destruct (mem_string x (keys t)); reflexivity.
Qed.

Lemma mem_string_In (x : string) (l : list string) :
  mem_string x l = true <-> In x l.
Proof.
  unfold mem_string. rewrite existsb_exists. split.
  - intros [y [Hin Heq]]. apply String.eqb_eq in Heq. subst. assumption.
  - intros Hin. exists x. split; [assumption|apply String.eqb_refl].
Qed.

Lemma bump_count (x k : string) (t : list entry) (c : nat) :
  NoDup (keys t) ->
  In (k, c) (bump x t) ->
  (k = x /\ ((exists c0, In (k, c0) t /\ c = S c0) \/ (~ In k (keys t) /\ c = 1%nat)))
  \/ (k <> x /\ In (k, c) t).
Proof.
  induction t as [|[y c0] t IH]; intros Hnd Hin.
  - cbn in Hin. destruct Hin as [Heq|[]]. injection Heq as <- <-.
    left. split; [reflexivity|]. right. split; [intros []|reflexivity].
  - cbn [bump] in Hin. destruct (String.eqb_spec x y) as [->|Hne].
    + destruct Hin as [Heq|Hin].
      * injection Heq as <- <-. left. split; [reflexivity|].
        left. exists c0. split; [left; reflexivity|reflexivity].
      * right. inversion Hnd as [|? ? Hnotin Hnd']; subst. split.
        -- intros ->. apply Hnotin. apply (in_map fst) in Hin. exact Hin.
        -- right. assumption.
    + destruct Hin as [Heq|Hin].
      * injection Heq as <- <-. right. split; [congruence|left; reflexivity].
      * inversion Hnd as [|? ? Hnotin Hnd']; subst.
        destruct (IH Hnd' Hin) as [[-> [[c1 [Hin1 ->]]|[Hni ->]]]|[Hkx Hin1]].
        -- left. split; [reflexivity|]. left. exists c1. split; [right; assumption|reflexivity].
        -- left. split; [reflexivity|]. right. split; [|reflexivity].
           cbn. intros [Hy|Hk]; [congruence|auto].
        -- right. split; [assumption|right; assumption].
Qed.

Lemma occurrences_snoc (k x : string) (col : list string) :
  occurrences k (col ++ [x]) = (occurrences k col + if string_dec x k then 1 else 0)%nat.
Proof.
  unfold occurrences. rewrite count_occ_app. cbn.
  destruct (string_dec x k); reflexivity.
Qed.

Lemma first_index_lt (k : string) (col : list string) :
  In k col -> (first_index k col < List.length col)%nat.
Proof.
  induction col as [|y col IH]; [intros []|].
  intros Hin. cbn. destruct (String.eqb_spec k y); [lia|].
  destruct Hin as [->|Hin]; [congruence|]. specialize (IH Hin). lia.
Qed.

Lemma first_index_snoc_in (k x : string) (col : list string) :
  In k col -> first_index k (col ++ [x]) = first_index k col.
Proof.
  induction col as [|y col IH]; [intros []|].
  intros Hin. cbn. destruct (String.eqb_spec k y); [reflexivity|].
  destruct Hin as [->|Hin]; [congruence|]. rewrite (IH Hin). reflexivity.
Qed.

Lemma first_index_snoc_new (x : string) (col : list string) :
  ~ In x col -> first_index x (col ++ [x]) = List.length col.
Proof.
  induction col as [|y col IH]; intros Hni; cbn.
  - rewrite String.eqb_refl. reflexivity.
  - destruct (String.eqb_spec x y) as [->|Hne]; [exfalso; apply Hni; left; reflexivity|].
    rewrite IH; [reflexivity|]. intros Hin. apply Hni. right. assumption.
Qed.

Lemma tally_snoc (col : list string) (x : string) :
  tally (col ++ [x]) = bump x (tally col).
Proof. unfold tally. rewrite fold_left_app. reflexivity. Qed.

(** The tally lists every value of the column once, with the number of its
    occurrences, in order of first appearance. *)
Lemma tally_spec (col : list string) :
  NoDup (keys (tally col))
  /\ (forall k, In k (keys (tally col)) <-> In k col)
  /\ (forall k c, In (k, c) (tally col) -> c = occurrences k col)
  /\ (forall before e after, tally col = (before ++ e :: after)%list ->
        forall e', In e' after ->
          (first_index (fst e) col < first_index (fst e') col)%nat).
Proof.
  induction col as [|x col IH] using rev_ind.
  - cbn. split; [constructor|]. split; [tauto|]. split; [intros ? ? []|].
    intros before e after H. destruct before; discriminate.
  - destruct IH as [Hnd [Hkeys [Hcount Horder]]].
    rewrite tally_snoc.
    assert (Hk' : keys (bump x (tally col))
                  = if mem_string x (keys (tally col)) then keys (tally col)
                    else (keys (tally col) ++ [x])%list) by apply bump_keys.
    destruct (mem_string x (keys (tally col))) eqn:Hmem.
    + (* x already seen *)
      apply mem_string_In in Hmem.
      split; [rewrite Hk'; assumption|].
      split.
      { intros k. rewrite Hk', Hkeys, in_app_iff. cbn. split; [tauto|].
        intros [H|[<-|[]]]; [assumption|]. apply Hkeys. assumption. }
      split.
      { intros k c Hin. rewrite occurrences_snoc.
        destruct (bump_count x k (tally col) c Hnd Hin)
          as [[-> [[c0 [Hin0 ->]]|[Hni _]]]|[Hne Hin0]].
        - rewrite (Hcount _ _ Hin0). destruct (string_dec x x); [lia|congruence].
        - contradiction.
        - rewrite (Hcount _ _ Hin0). destruct (string_dec x k); [congruence|lia]. }
      { intros before e after Heq e' Hin'.
        assert (Hke : In (fst e) col).
        { apply Hkeys. rewrite <- Hk'. unfold keys. rewrite Heq, map_app.
          apply in_or_app. right. left. reflexivity. }
        assert (Hke' : In (fst e') col).
        { apply Hkeys. rewrite <- Hk'. unfold keys. rewrite Heq, map_app.
          apply in_or_app. right. right. apply in_map. assumption. }
        rewrite !first_index_snoc_in by assumption.
        (* the same split exists in the old tally, counts aside *)
        assert (Hsplit : keys (tally col) = (keys before ++ fst e :: keys after)%list).
        { rewrite <- Hk'. unfold keys. rewrite Heq, map_app. reflexivity. }
        unfold keys in Hsplit.
        apply map_eq_app in Hsplit.
        destruct Hsplit as [b0 [r0 [Ht [Hb0 Hr0]]]].
        destruct r0 as [|e0 a0]; [discriminate|].
        cbn in Hr0. injection Hr0 as He0 Ha0.
        apply (in_map fst) in Hin'. rewrite <- Ha0 in Hin'.
        apply in_map_iff in Hin'. destruct Hin' as [e0' [Hf Hin0']].
        rewrite <- He0, <- Hf. apply (Horder b0 e0 a0 Ht e0' Hin0'). }
    + (* x is new *)
      assert (Hni : ~ In x col).
      { intros Hin. apply Hkeys in Hin. apply mem_string_In in Hin. congruence. }
      assert (Hnik : ~ In x (keys (tally col))).
      { intros Hin. apply mem_string_In in Hin. congruence. }
      split.
      { rewrite Hk'. apply NoDup_app; [assumption|constructor; [intros []|constructor]|].
        intros k Hin [<-|[]]. contradiction. }
      split.
      { intros k. rewrite Hk', !in_app_iff, Hkeys. cbn. tauto. }
      split.
      { intros k c Hin. rewrite occurrences_snoc.
        destruct (bump_count x k (tally col) c Hnd Hin)
          as [[-> [[c0 [Hin0 ->]]|[_ ->]]]|[Hne Hin0]].
        - exfalso. apply Hnik. apply (in_map fst) in Hin0. exact Hin0.
        - unfold occurrences. rewrite (proj1 (count_occ_not_In string_dec col x) Hni).
          destruct (string_dec x x); [reflexivity|congruence].
        - rewrite (Hcount _ _ Hin0). destruct (string_dec x k); [congruence|lia]. }
      { intros before e after Heq e' Hin'.
        assert (Hsplit : (keys (tally col) ++ [x])%list
                         = (keys before ++ fst e :: keys after)%list).
        { rewrite <- Hk'. unfold keys. rewrite Heq, map_app. reflexivity. }
        assert (Hin'k : In (fst e') (keys after)) by (apply in_map; assumption).
        destruct (exists_last (l := after)) as [a1 [elast Hlast]].
        { intros ->. destruct Hin'. }
        assert (Hka : keys after = (keys a1 ++ [fst elast])%list).
        { unfold keys. rewrite Hlast, map_app. reflexivity. }
        rewrite Hka in Hsplit.
        replace (keys before ++ fst e :: keys a1 ++ [fst elast])%list
          with ((keys before ++ fst e :: keys a1) ++ [fst elast])%list in Hsplit
          by (rewrite <- app_assoc; reflexivity).
        apply app_inj_tail in Hsplit. destruct Hsplit as [Hold Hx].
        assert (Hke : In (fst e) col).
        { apply Hkeys. rewrite Hold. apply in_or_app. right. left. reflexivity. }
        rewrite (first_index_snoc_in (fst e) x col Hke).
        rewrite Hka in Hin'k. apply in_app_or in Hin'k.
        destruct Hin'k as [Hin1|[Hl|[]]].
        - assert (Hke' : In (fst e') col).
          { apply Hkeys. rewrite Hold. apply in_or_app. right. right. assumption. }
          rewrite (first_index_snoc_in (fst e') x col Hke').
          unfold keys in Hold. apply map_eq_app in Hold.
          destruct Hold as [b0 [r0 [Ht [Hb0 Hr0]]]].
          destruct r0 as [|e0 a0]; [discriminate|].
          cbn in Hr0. injection Hr0 as He0 Ha0.
          unfold keys in Hin1. rewrite <- Ha0 in Hin1.
          apply in_map_iff in Hin1. destruct Hin1 as [e0' [Hf Hin0']].
          rewrite <- He0, <- Hf. apply (Horder b0 e0 a0 Ht e0' Hin0').
        - rewrite <- Hl, <- Hx. rewrite (first_index_snoc_new x col Hni).
          apply first_index_lt. assumption. }
Qed.

End Recommend.

(** C6.  For a non-empty [assigned_to] column [recommend_user] returns a user
    [u] that occurs in the column; no user of the column has fewer rows than
    [u]; among the users with that minimum number of rows, [u] is the one
    whose first row comes first; and in the output of [value_counts], [u] is
    the first entry carrying the minimum count. *)
Theorem recommend_user_least_loaded (col : list string) :
  col <> [] ->
  exists u,
    recommend_user col = Ok u
    /\ In u col
    /\ (forall v, In v col -> (occurrences u col <= occurrences v col)%nat)
    /\ (forall v, In v col -> occurrences v col = occurrences u col ->
          (first_index u col <= first_index v col)%nat)
    /\ Pandas.is_first_min (u, occurrences u col) (Pandas.value_counts col).
Proof.
  intros Hne.
  destruct (Recommend.tally_spec col) as [Hnd [Hkeys [Hcount Horder]]].
  assert (Ht : Pandas.tally col <> []).
  { destruct col as [|x col]; [congruence|].
    intros Hnil. assert (Hin : In x (Pandas.keys (Pandas.tally (x :: col))))
      by (apply Hkeys; left; reflexivity).
    rewrite Hnil in Hin. destruct Hin. }
  destruct (Recommend.first_min_entry_some _ Ht) as [[u c] He].
  pose proof (Recommend.first_min_entry_spec _ _ He) as [before [after [Hsplit [Hb Ha]]]].
  assert (Hin : In (u, c) (Pandas.tally col)).
  { rewrite Hsplit. apply in_or_app. right. left. reflexivity. }
  assert (Hc : c = occurrences u col) by (apply Hcount; assumption).
  assert (Hentry : forall v, In v col ->
            In (v, occurrences v col) before \/ v = u \/ In (v, occurrences v col) after).
  { intros v Hv. apply Hkeys in Hv. unfold Pandas.keys in Hv.
    apply in_map_iff in Hv. destruct Hv as [[v' cv] [Hf Hv]]. cbn in Hf. subst v'.
    rewrite (Hcount _ _ Hv) in Hv.
    pose proof Hv as Hv'. rewrite Hsplit in Hv'. apply in_app_or in Hv'.
    destruct Hv' as [H|[H|H]]; auto.
    injection H as ->. auto. }
  exists u. split.
  { unfold recommend_user, Pandas.value_counts.
    rewrite (Recommend.idxmin_first_min _ (u, c)); [reflexivity|].
    rewrite Recommend.first_min_entry_sort. assumption. }
  split.
  { apply Hkeys. apply (in_map fst) in Hin. exact Hin. }
  split.
  { intros v Hv. destruct (Hentry v Hv) as [H|[->|H]].
    - specialize (Hb _ H). cbn in Hb. lia.
    - lia.
    - specialize (Ha _ H). cbn in Ha. lia. }
  split.
  { intros v Hv Heq. destruct (Hentry v Hv) as [H|[->|H]].
    - specialize (Hb _ H). cbn in Hb. lia.
    - lia.
    - pose proof (Horder before (u, c) after Hsplit _ H) as Hlt. cbn in Hlt. lia. }
  { rewrite <- Hc. apply Recommend.first_min_entry_spec.
    unfold Pandas.value_counts. rewrite Recommend.first_min_entry_sort. assumption. }
Qed.

(** C6 on a column of six rows and four users. *)
Lemma recommend_user_least_loaded_witness :
  ["bob"; "alice"; "carol"; "alice"; "bob"; "dave"] <> []
  /\ exists u, recommend_user ["bob"; "alice"; "carol"; "alice"; "bob"; "dave"] = Ok u
               /\ In u ["bob"; "alice"; "carol"; "alice"; "bob"; "dave"].
Proof.
  split; [discriminate|].
  destruct (recommend_user_least_loaded ["bob"; "alice"; "carol"; "alice"; "bob"; "dave"]
              ltac:(discriminate)) as [u [H1 [H2 _]]].
  exists u. auto.
Defined.

(** ** The text preprocessor *)

Module Text.

Lemma map_string_id (f : ascii -> ascii) (s : string) :
  forallb_string (fun c => Ascii.eqb (f c) c) s = true -> map_string f s = s.
Proof.
  induction s as [|c s IH]; cbn; [reflexivity|].
  intros H. apply andb_true_iff in H. destruct H as [Hc Hs].
  apply Ascii.eqb_eq in Hc. rewrite Hc, (IH Hs). reflexivity.
Qed.

Lemma forallb_string_app (p : ascii -> bool) (s t : string) :
  forallb_string p (s ++ t) = forallb_string p s && forallb_string p t.
Proof.
  induction s as [|c s IH]; cbn; [reflexivity|].
  rewrite IH, andb_assoc. reflexivity.
Qed.

Lemma forallb_string_impl (p q : ascii -> bool) (s : string) :
  (forall c, p c = true -> q c = true) ->
  forallb_string p s = true -> forallb_string q s = true.
Proof.
  intros Hpq. induction s as [|c s IH]; cbn; [reflexivity|].
  intros H. apply andb_true_iff in H. destruct H as [Hc Hs].
  rewrite (Hpq c Hc), (IH Hs). reflexivity.
Qed.

Lemma is_word_chars (w : string) : is_word w = true -> forallb_string joined_char w = true.
Proof.
  unfold is_word. intros H. apply andb_true_iff in H. destruct H as [_ H].
  apply (forallb_string_impl is_lower); [|assumption].
  intros c Hc. unfold joined_char. rewrite Hc. reflexivity.
Qed.

Lemma join_chars (tokens : list string) :
  forallb is_word tokens = true -> forallb_string joined_char (str_join tokens) = true.
Proof.
  induction tokens as [|t rest IH]; [reflexivity|].
  intros H. cbn [forallb] in H. apply andb_true_iff in H. destruct H as [Ht Hrest].
  destruct rest as [|t' rest'].
  - cbn. apply is_word_chars. assumption.
  - change (str_join (t :: t' :: rest')) with (t ++ " " ++ str_join (t' :: rest')).
    rewrite !forallb_string_app, (is_word_chars t Ht), (IH Hrest). reflexivity.
Qed.

Lemma all_chars_complete (c : ascii) : In c all_chars.
Proof.
  unfold all_chars. apply in_map_iff. exists (nat_of_ascii c).
  split; [apply ascii_nat_embedding|].
  apply in_seq. pose proof (nat_ascii_bounded c). lia.
Qed.

Lemma for_all_chars (p : ascii -> bool) :
  forallb p all_chars = true -> forall c, p c = true.
Proof.
  intros H c. rewrite forallb_forall in H. apply H. apply all_chars_complete.
Qed.

Lemma implies_on_chars (p q : ascii -> bool) :
  forallb (fun c => implb (p c) (q c)) all_chars = true ->
  forall c, p c = true -> q c = true.
Proof.
  intros H c Hp. pose proof (for_all_chars _ H c) as Hc. cbn beta in Hc.
  rewrite Hp in Hc. exact Hc.
Qed.

Lemma lower_joined (c : ascii) : joined_char c = true -> lower_char c = c.
Proof.
  intros H. apply Ascii.eqb_eq. revert c H.
  apply (implies_on_chars joined_char (fun c => Ascii.eqb (lower_char c) c)).
  vm_compute. reflexivity.
Qed.

Lemma letters_joined (c : ascii) :
  joined_char c = true -> (if is_letter c then c else " "%char) = c.
Proof.
  intros H. apply Ascii.eqb_eq. revert c H.
  apply (implies_on_chars joined_char
           (fun c => Ascii.eqb (if is_letter c then c else " "%char) c)).
  vm_compute. reflexivity.
Qed.

Lemma lower_not_space (c : ascii) : is_lower c = true -> is_space c = false.
Proof.
  intros H. apply negb_true_iff. revert c H.
  apply (implies_on_chars is_lower (fun c => negb (is_space c))).
  vm_compute. reflexivity.
Qed.

(** Lower-casing and the letter filter leave a joined list of words as it is. *)
Lemma normalise_joined (s : string) :
  forallb_string joined_char s = true -> sub_non_letters (str_lower s) = s.
Proof.
  intros H. unfold str_lower.
  rewrite (map_string_id lower_char s).
  - unfold sub_non_letters. apply map_string_id.
    apply (forallb_string_impl joined_char); [|assumption].
    intros c Hc. apply Ascii.eqb_eq. apply letters_joined. assumption.
  - apply (forallb_string_impl joined_char); [|assumption].
    intros c Hc. apply Ascii.eqb_eq. apply lower_joined. assumption.
Qed.

Lemma append_assoc (a b c : string) : (a ++ b) ++ c = a ++ (b ++ c).
Proof. induction a as [|x a IH]; cbn; [reflexivity|rewrite IH; reflexivity]. Qed.

Lemma append_nil_r (a : string) : a ++ "" = a.
Proof. induction a as [|x a IH]; cbn; [reflexivity|rewrite IH; reflexivity]. Qed.

Lemma append_nonempty (a : string) (c : ascii) (b : string) :
  String.eqb (a ++ String c b) "" = false.
Proof. destruct a; reflexivity. Qed.

(** Reading a run of letters extends the current token. *)
Lemma split_from_letters (w cur rest : string) :
  forallb_string is_lower w = true ->
  split_from cur (w ++ rest) = split_from (cur ++ w) rest.
Proof.
  revert cur. induction w as [|c w IH]; intros cur H; cbn [append].
  - rewrite append_nil_r. reflexivity.
  - cbn in H. apply andb_true_iff in H. destruct H as [Hc Hw].
    cbn [split_from]. rewrite (lower_not_space c Hc), (IH _ Hw).
    rewrite append_assoc. reflexivity.
Qed.

Lemma word_nonempty (w : string) : is_word w = true -> String.eqb w "" = false.
Proof.
  unfold is_word. intros H. apply andb_true_iff in H. destruct H as [H _].
  apply negb_true_iff in H. exact H.
Qed.

Lemma word_letters (w : string) : is_word w = true -> forallb_string is_lower w = true.
Proof.
  unfold is_word. intros H. apply andb_true_iff in H. tauto.
Qed.

(** Splitting a joined list of words gives the words back. *)
Lemma split_join (tokens : list string) :
  forallb is_word tokens = true -> str_split (str_join tokens) = tokens.
Proof.
  unfold str_split. induction tokens as [|t rest IH]; [reflexivity|].
  intros H. cbn [forallb] in H. apply andb_true_iff in H. destruct H as [Ht Hrest].
  destruct rest as [|t' rest'].
  - cbn [str_join]. rewrite <- (append_nil_r t) at 1.
    rewrite (split_from_letters t "" "" (word_letters t Ht)).
    cbn [append split_from]. rewrite (word_nonempty t Ht). reflexivity.
  - change (str_join (t :: t' :: rest')) with (t ++ " " ++ str_join (t' :: rest')).
    rewrite (split_from_letters t "" _ (word_letters t Ht)).
    cbn [append]. cbn [split_from].
    change (is_space " ") with true. cbv iota.
    rewrite (word_nonempty t Ht), (IH Hrest). reflexivity.
Qed.

End Text.

Section PreprocessFacts.

Variable stem : string -> string.
Variable stopwords : list string.

Lemma stable_tokens_words (tokens : list string) :
  forallb (stable_token stem stopwords) tokens = true ->
  forallb is_word tokens = true.
Proof.
  induction tokens as [|t rest IH]; [reflexivity|].
  cbn [forallb]. intros H. apply andb_true_iff in H. destruct H as [Ht Hrest].
  unfold stable_token in Ht. rewrite !andb_true_iff in Ht.
  destruct Ht as [[Hw _] _]. rewrite Hw, (IH Hrest). reflexivity.
Qed.

Lemma stable_tokens_pass (tokens : list string) :
  forallb (stable_token stem stopwords) tokens = true ->
  map stem (filter (fun word => negb (mem_string word stopwords)) tokens) = tokens.
Proof.
  induction tokens as [|t rest IH]; [reflexivity|].
  cbn [forallb]. intros H. apply andb_true_iff in H. destruct H as [Ht Hrest].
  unfold stable_token in Ht. rewrite !andb_true_iff in Ht.
  destruct Ht as [[_ Hs] He]. apply String.eqb_eq in He.
  cbn [filter]. rewrite Hs. cbn [map]. rewrite He, (IH Hrest). reflexivity.
Qed.

(** C4 (amended).  The preprocessor is a function of the text, the stemmer
    and the stopword list.  A second application returns the output of the
    first whenever every token of that output is a word (lower-case
    letters only), is not a stopword, and is left unchanged by the
    stemmer. *)
Theorem preprocess_idempotent_on_stable (text : string) :
  forallb (stable_token stem stopwords) (preprocess_tokens stem stopwords text) = true ->
  preprocess_tokens stem stopwords (preprocess_text stem stopwords text)
  = preprocess_tokens stem stopwords text
  /\ preprocess_text stem stopwords (preprocess_text stem stopwords text)
     = preprocess_text stem stopwords text.
Proof.
  intros H.
  assert (Htok : preprocess_tokens stem stopwords (preprocess_text stem stopwords text)
                 = preprocess_tokens stem stopwords text).
  { unfold preprocess_text at 1.
    set (tokens := preprocess_tokens stem stopwords text) in *.
    unfold preprocess_tokens at 1.
    pose proof (stable_tokens_words tokens H) as Hw.
    rewrite (Text.normalise_joined _ (Text.join_chars tokens Hw)).
    rewrite (Text.split_join tokens Hw).
    apply stable_tokens_pass. assumption. }
  split; [exact Htok|].
  unfold preprocess_text at 1. rewrite Htok. reflexivity.
Qed.

End PreprocessFacts.

(** C4 (counterexample).  With NLTK's stopwords and stemmer, "cans" is
    stemmed to "can"; "can" is a stopword, so the second pass drops it. *)
Lemma preprocess_not_idempotent :
  nltk_preprocess_text "cans" = "can"
  /\ nltk_preprocess_text (nltk_preprocess_text "cans") = ""
  /\ nltk_preprocess_text (nltk_preprocess_text "cans") <> nltk_preprocess_text "cans".
Proof.
  split; [vm_compute; reflexivity|]. split; [vm_compute; reflexivity|].
  vm_compute. discriminate.
Qed.

(** C4 on a text whose tokens are stable. *)
Lemma preprocess_idempotent_on_stable_witness :
  forallb (stable_token Nltk.porter_stem Nltk.english_stopwords)
    (preprocess_tokens Nltk.porter_stem Nltk.english_stopwords "Fix the Login BUG!") = true
  /\ nltk_preprocess_text (nltk_preprocess_text "Fix the Login BUG!")
     = nltk_preprocess_text "Fix the Login BUG!".
Proof.
  split; [vm_compute; reflexivity|].
  apply (preprocess_idempotent_on_stable Nltk.porter_stem Nltk.english_stopwords
           "Fix the Login BUG!").
  vm_compute. reflexivity.
Defined.

(** ** Classification metrics *)

Module SklearnFacts.

Import Sklearn.

Lemma confusion_matrix_cells (y_true y_pred labels : list nat) (cm : list (list nat)) :
  confusion_matrix y_true y_pred labels = Ok cm ->
  cm = map (fun i => map (fun j => count_pairs i j y_true y_pred) labels) labels.
Proof.
  unfold confusion_matrix.
  destruct (negb (List.length y_true =? List.length y_pred)%nat); [discriminate|].
  destruct (List.length labels =? 0)%nat; [discriminate|].
  destruct (List.length y_true =? 0)%nat eqn:Hlen.
  - intros H. injection H as <-. apply Nat.eqb_eq in Hlen.
    destruct y_true; [|discriminate]. reflexivity.
  - destruct (negb (existsb (fun l => existsb (Nat.eqb l) y_true) labels)); [discriminate|].
    intros H. injection H as <-. reflexivity.
Qed.

Lemma confusion_matrix_shape (y_true y_pred labels : list nat) (cm : list (list nat)) :
  confusion_matrix y_true y_pred labels = Ok cm ->
  List.length cm = List.length labels
  /\ Forall (fun row => List.length row = List.length labels) cm.
Proof.
  intros H. rewrite (confusion_matrix_cells _ _ _ _ H). split.
  - apply length_map.
  - apply Forall_forall. intros row Hin. apply in_map_iff in Hin.
    destruct Hin as [i [<- _]]. apply length_map.
Qed.

Lemma confusion_matrix_entry (y_true y_pred : list nat) (n i j : nat) (cm : list (list nat)) :
  confusion_matrix y_true y_pred (seq 0 n) = Ok cm ->
  (i < n)%nat -> (j < n)%nat ->
  nth j (nth i cm []) O = count_pairs i j y_true y_pred.
Proof.
  intros H Hi Hj. rewrite (confusion_matrix_cells _ _ _ _ H).
  rewrite (nth_indep _ [] (map (fun j => count_pairs 0 j y_true y_pred) (seq 0 n)))
    by (rewrite length_map, length_seq; assumption).
  rewrite (map_nth (fun i => map (fun j => count_pairs i j y_true y_pred) (seq 0 n))
             (seq 0 n) O i).
  rewrite seq_nth by assumption. cbn [plus].
  rewrite (nth_indep _ O (count_pairs i 0 y_true y_pred))
    by (rewrite length_map, length_seq; assumption).
  rewrite (map_nth (fun j => count_pairs i j y_true y_pred) (seq 0 n) O j).
  rewrite seq_nth by assumption. reflexivity.
Qed.

(** The report never raises on a zero denominator: it only requires the two
    label vectors to have the same length. *)
Lemma classification_report_ok (y_true y_pred labels : list nat)
  (names : list string) (zd : B64.float64) :
  List.length y_true = List.length y_pred ->
  classification_report y_true y_pred labels names zd
  = Ok (map (fun nl => (fst nl, metrics_of (snd nl) y_true y_pred zd))
          (combine names labels)).
Proof.
  intros H. unfold classification_report.
  rewrite H, Nat.eqb_refl. reflexivity.
Qed.

Lemma classification_report_rows (y_true y_pred labels : list nat)
  (names : list string) (zd : B64.float64) (report : list (string * class_metrics)) :
  classification_report y_true y_pred labels names zd = Ok report ->
  report = map (fun nl => (fst nl, metrics_of (snd nl) y_true y_pred zd))
             (combine names labels).
Proof.
  unfold classification_report.
  destruct (negb (List.length y_true =? List.length y_pred)%nat); [discriminate|].
  intros H. injection H as <-. reflexivity.
Qed.

Lemma combine_seq_nth_from (names : list string) (i k : nat) (name : string) :
  nth_error names i = Some name ->
  nth_error (combine names (seq k (List.length names))) i = Some (name, (k + i)%nat).
Proof.
  revert i k.
  induction names as [|x names IH]; intros i k H; [destruct i; discriminate|].
  destruct i as [|i]; cbn in *.
  - injection H as <-. rewrite Nat.add_0_r. reflexivity.
  - rewrite (IH i (S k) H). f_equal. f_equal. lia.
Qed.

Lemma combine_seq_nth (names : list string) (i : nat) (name : string) :
  nth_error names i = Some name ->
  nth_error (combine names (seq 0 (List.length names))) i = Some (name, i).
Proof. apply combine_seq_nth_from. Qed.

Lemma combine_seq_names (names : list string) (k : nat) :
  map fst (combine names (seq k (List.length names))) = names.
Proof.
  revert k. induction names as [|x names IH]; intros k; cbn; [reflexivity|].
  rewrite IH. reflexivity.
Qed.

Lemma count_pairs_le_pred (l : nat) (y_true y_pred : list nat) :
  (count_pairs l l y_true y_pred <= count_where (Nat.eqb l) y_pred)%nat.
Proof.
  unfold count_pairs, count_where. revert y_pred.
  induction y_true as [|t y_true IH]; intros [|p y_pred]; cbn; try lia.
  specialize (IH y_pred).
  destruct (Nat.eqb_spec t l), (Nat.eqb_spec p l), (Nat.eqb_spec l p);
    cbn; try lia; try congruence.
Qed.

Lemma count_pairs_le_true (l : nat) (y_true y_pred : list nat) :
  (count_pairs l l y_true y_pred <= count_where (Nat.eqb l) y_true)%nat.
Proof.
  unfold count_pairs, count_where. revert y_pred.
  induction y_true as [|t y_true IH]; intros [|p y_pred]; cbn; try lia.
  specialize (IH y_pred).
  destruct (Nat.eqb_spec t l), (Nat.eqb_spec p l), (Nat.eqb_spec l t);
    cbn; try lia; try congruence.
Qed.

Lemma prf_divide_zero (d : nat) : prf_divide 0 d B64.zero = B64.zero.
Proof.
  unfold prf_divide. destruct d as [|d]; [reflexivity|].
  rewrite (B64Facts.rn_ratio_ratio (Z.of_nat 0) (Z.of_nat (S d)) 0 1) by lia.
  vm_compute. reflexivity.
Qed.

(** A class nobody was predicted to be in has precision 0; a class with no
    true member has recall 0 and support 0; in both cases the F1 score is 0. *)
Lemma metrics_zero_division (l : nat) (y_true y_pred : list nat) :
  let m := metrics_of l y_true y_pred B64.zero in
  support m = count_where (Nat.eqb l) y_true
  /\ (count_where (Nat.eqb l) y_pred = O ->
      precision m = B64.zero /\ f1_score m = B64.zero)
  /\ (count_where (Nat.eqb l) y_true = O ->
      recall m = B64.zero /\ f1_score m = B64.zero).
Proof.
  cbv zeta. unfold metrics_of. cbn [precision recall f1_score support].
  pose proof (count_pairs_le_pred l y_true y_pred) as Hp.
  pose proof (count_pairs_le_true l y_true y_pred) as Ht.
  split; [reflexivity|]. split; intros H0.
  - rewrite H0 in *. assert (Htp : count_pairs l l y_true y_pred = O) by lia.
    rewrite Htp. split; [reflexivity|]. apply prf_divide_zero.
  - rewrite H0 in *. assert (Htp : count_pairs l l y_true y_pred = O) by lia.
    rewrite Htp. split; [reflexivity|]. apply prf_divide_zero.
Qed.

End SklearnFacts.

(** ** The AI Insights pipeline *)

Section InsightsFacts.

Variable stem : string -> string.
Variable stopwords : list string.
Variable vec : Type.
Variable encode : list string -> list vec.
Variable train_test_split :
  list vec -> list nat -> result (list vec * list vec * list nat * list nat).
Variable linear_model : Type.
Variable logreg_fit : list vec -> list nat -> linear_model.
Variable model : Type.
Variable xgb_fit : xgb_params -> list vec -> list nat -> model.
Variable xgb_score : model -> list vec -> list nat -> B64.float64.
Variable xgb_predict : model -> list vec -> list nat.
Variable sampler : Type.
Variable suggest_int : sampler -> string -> Z -> Z -> Z * sampler.
Variable suggest_float :
  sampler -> string -> B64.float64 -> B64.float64 -> B64.float64 * sampler.
Variable tell : sampler -> trial -> sampler.

Local Abbreviation analyse_ :=
  (analyse stem stopwords vec encode train_test_split linear_model logreg_fit
     model xgb_fit xgb_score xgb_predict sampler suggest_int suggest_float tell).
Local Abbreviation optimize_xgb_ :=
  (optimize_xgb vec model xgb_fit xgb_score sampler suggest_int suggest_float tell).

(** What a successful analysis is made of. *)
Lemma analyse_inv (rows : list csv_row) (smp : sampler)
  (a : analysis vec linear_model model) :
  analyse_ rows smp = Ok a ->
  let df := dropna rows in
  an_frame a = df
  /\ an_processed a = map (preprocess_text stem stopwords) (map row_description df)
  /\ an_classes a = Sklearn.np_unique (map row_priority df)
  /\ an_X a = encode (map row_description df)
  /\ train_test_split (an_X a) (an_priority_encoded a)
     = Ok (an_X_train a, an_X_test a, an_y_train a, an_y_test a)
  /\ optimize_xgb_ (an_X_train a) (an_y_train a) smp = Ok (an_priority_model a)
  /\ an_y_pred a = xgb_predict (an_priority_model a) (an_X_test a)
  /\ an_labels a = seq 0 (List.length (an_classes a))
  /\ Sklearn.classification_report (an_y_test a) (an_y_pred a) (an_labels a)
       (an_classes a) B64.zero = Ok (an_report a)
  /\ Sklearn.confusion_matrix (an_y_test a) (an_y_pred a) (an_labels a) = Ok (an_cm a).
Proof.
  intros H. cbv zeta. unfold analyse in H.
  unfold Sklearn.fit_transform in H. cbn [fst snd] in H.
  destruct (train_test_split _ _) as [[[[X_train X_test] y_train] y_test]|e] eqn:Hsplit;
    cbn [bind] in H; [|discriminate].
  destruct (optimize_xgb _ _ _ _ _ _ _ _ _ _ _) as [m|e] eqn:Hopt;
    cbn [bind] in H; [|discriminate].
  destruct (Sklearn.classification_report _ _ _ _ _) as [report|e] eqn:Hrep;
    cbn [bind] in H; [|discriminate].
  destruct (Sklearn.confusion_matrix _ _ _) as [cm|e] eqn:Hcm;
    cbn [bind] in H; [|discriminate].
  injection H as <-.
  cbn [an_frame an_processed an_classes an_priority_encoded an_user_encoded
       an_X an_X_train an_X_test an_y_train an_y_test an_classifier
       an_priority_model an_y_pred an_labels an_report an_cm].
  repeat (split; [first [reflexivity|assumption]|]).
  assumption.
Qed.

(** C8.  In a successful analysis the report and the confusion matrix are
    built over all classes of the label encoder, that is over the labels
    [0 .. n-1] for the [n] distinct priorities of the upload: the matrix
    has [n] rows of [n] cells, cell [(i, j)] counting the test rows of
    class [i] predicted as [j], and the report has one row per class, named
    after it, whether or not the class occurs in the test fold.  A class
    without predicted members has precision 0, a class without true
    members has recall 0 and support 0, and in both cases the F1 score is
    0.  The report itself raises nothing on such classes: it is defined
    whenever the two label vectors have the same length. *)
Theorem insights_report_all_classes (rows : list csv_row) (smp : sampler)
  (a : analysis vec linear_model model) :
  analyse_ rows smp = Ok a ->
  let n := List.length (an_classes a) in
  an_classes a = Sklearn.np_unique (map row_priority (dropna rows))
  /\ Sklearn.confusion_matrix (an_y_test a) (an_y_pred a) (seq 0 n) = Ok (an_cm a)
  /\ List.length (an_cm a) = n
  /\ Forall (fun row => List.length row = n) (an_cm a)
  /\ (forall i j, (i < n)%nat -> (j < n)%nat ->
        nth j (nth i (an_cm a) []) O
        = Sklearn.count_pairs i j (an_y_test a) (an_y_pred a))
  /\ Sklearn.classification_report (an_y_test a) (an_y_pred a) (seq 0 n)
       (an_classes a) B64.zero = Ok (an_report a)
  /\ map fst (an_report a) = an_classes a
  /\ (forall i name, nth_error (an_classes a) i = Some name ->
        exists m,
          nth_error (an_report a) i = Some (name, m)
          /\ Sklearn.support m = Sklearn.count_where (Nat.eqb i) (an_y_test a)
          /\ (Sklearn.count_where (Nat.eqb i) (an_y_pred a) = O ->
              Sklearn.precision m = B64.zero /\ Sklearn.f1_score m = B64.zero)
          /\ (Sklearn.count_where (Nat.eqb i) (an_y_test a) = O ->
              Sklearn.recall m = B64.zero /\ Sklearn.f1_score m = B64.zero))
  /\ (forall y_true y_pred labels names,
        List.length y_true = List.length y_pred ->
        exists report,
          Sklearn.classification_report y_true y_pred labels names B64.zero
          = Ok report).
Proof.
  intros H n.
  destruct (analyse_inv rows smp a H)
    as [_ [_ [Hcls [_ [_ [_ [_ [Hlab [Hrep Hcm]]]]]]]]].
  rewrite Hlab in Hrep, Hcm. fold n in Hrep, Hcm.
  destruct (SklearnFacts.confusion_matrix_shape _ _ _ _ Hcm) as [Hlen Hrows].
  rewrite length_seq in Hlen, Hrows.
  pose proof (SklearnFacts.classification_report_rows _ _ _ _ _ _ Hrep) as Hr.
  split; [exact Hcls|]. split; [exact Hcm|]. split; [exact Hlen|].
  split; [exact Hrows|].
  split; [intros i j Hi Hj; apply (SklearnFacts.confusion_matrix_entry _ _ n); assumption|].
  split; [exact Hrep|].
  split.
  { rewrite Hr, map_map. cbn [fst]. apply SklearnFacts.combine_seq_names. }
  split.
  { intros i name Hi.
    exists (Sklearn.metrics_of i (an_y_test a) (an_y_pred a) B64.zero).
    split.
    - rewrite Hr. rewrite nth_error_map.
      unfold n. rewrite (SklearnFacts.combine_seq_nth _ _ _ Hi). reflexivity.
    - apply SklearnFacts.metrics_zero_division. }
  intros y_true y_pred labels names Hl. eexists.
  apply SklearnFacts.classification_report_ok. assumption.
Qed.

(** The features handed to the split, and through it to both trainers, are
    the embeddings of the raw descriptions; the preprocessed texts are
    computed and stored in the frame, and used nowhere. *)
Lemma insights_features_raw (rows : list csv_row) (smp : sampler)
  (a : analysis vec linear_model model) (desc : string) :
  analyse_ rows smp = Ok a ->
  an_X a = encode (map row_description (dropna rows))
  /\ an_processed a
     = map (preprocess_text stem stopwords) (map row_description (dropna rows))
  /\ prediction_features vec encode desc = encode [desc].
Proof.
  intros H. destruct (analyse_inv rows smp a H) as [_ [Hp [_ [HX _]]]].
  split; [exact HX|]. split; [exact Hp|]. reflexivity.
Qed.

End InsightsFacts.

(** ** The hyper-parameter study *)

Section StudyFacts.

Variable vec : Type.
Variable model : Type.
Variable xgb_fit : xgb_params -> list vec -> list nat -> model.
Variable xgb_score : model -> list vec -> list nat -> B64.float64.
Variable sampler : Type.
Variable suggest_int : sampler -> string -> Z -> Z -> Z * sampler.
Variable suggest_float :
  sampler -> string -> B64.float64 -> B64.float64 -> B64.float64 * sampler.
Variable tell : sampler -> trial -> sampler.

Local Abbreviation objective_ :=
  (objective vec model xgb_fit xgb_score sampler suggest_int suggest_float).
Local Abbreviation optimize_ :=
  (optimize vec model xgb_fit xgb_score sampler suggest_int suggest_float tell).
Local Abbreviation run_study_ :=
  (run_study vec model xgb_fit xgb_score sampler suggest_int suggest_float tell).
Local Abbreviation optimize_xgb_ :=
  (optimize_xgb vec model xgb_fit xgb_score sampler suggest_int suggest_float tell).
Local Abbreviation trial_ok_ := (trial_ok vec model xgb_fit xgb_score).
Local Abbreviation drawn_params_ := (drawn_params sampler suggest_int suggest_float).
Local Abbreviation searched_ :=
  (searched vec model xgb_fit xgb_score sampler suggest_int suggest_float tell).

Hypothesis suggest_int_range : forall s name low high,
  (low <= high)%Z ->
  (low <= fst (suggest_int s name low high) <= high)%Z.

Hypothesis suggest_float_range : forall s name low high,
  B64.leb low high = true ->
  B64.leb low (fst (suggest_float s name low high)) = true
  /\ B64.leb (fst (suggest_float s name low high)) high = true.

Lemma objective_ok (X : list vec) (y : list nat) (s : sampler) :
  trial_ok_ X y (fst (objective_ X y s)).
Proof.
  unfold objective.
  pose proof (suggest_int_range s "n_estimators" 50 200 ltac:(lia)) as H1.
  destruct (suggest_int s "n_estimators" 50 200) as [ne s1]. cbn [fst] in H1.
  pose proof (suggest_int_range s1 "max_depth" 2 10 ltac:(lia)) as H2.
  destruct (suggest_int s1 "max_depth" 2 10) as [md s2]. cbn [fst] in H2.
  pose proof (suggest_float_range s2 "learning_rate" lit_0_01 lit_0_3
                ltac:(vm_compute; reflexivity)) as H3.
  destruct (suggest_float s2 "learning_rate" lit_0_01 lit_0_3) as [lr s3].
  cbn [fst] in H3. destruct H3 as [H3 H4].
  cbn [fst]. unfold trial_ok.
  cbn [trial_distributions trial_params trial_value n_estimators max_depth learning_rate].
  repeat split; try assumption; try lia.
Qed.

(** The objective draws its parameters from the sampler, by the three
    requests of the search space and in their order, and leaves the sampler
    as the last request left it. *)
Lemma objective_draws (X : list vec) (y : list nat) (s : sampler) :
  trial_params (fst (objective_ X y s)) = fst (drawn_params_ s)
  /\ trial_value (fst (objective_ X y s))
     = xgb_score (xgb_fit (trial_params (fst (objective_ X y s))) X y) X y
  /\ snd (objective_ X y s) = snd (drawn_params_ s).
Proof.
  unfold objective, drawn_params.
  destruct (suggest_int s "n_estimators" 50 200) as [ne s1]. cbn [fst snd].
  destruct (suggest_int s1 "max_depth" 2 10) as [md s2]. cbn [fst snd].
  destruct (suggest_float s2 "learning_rate" lit_0_01 lit_0_3) as [lr s3].
  cbn [fst snd trial_params trial_value]. split; [reflexivity|].
  split; reflexivity.
Qed.

Lemma optimize_trials (n : nat) (X : list vec) (y : list nat) (s : sampler)
  (finished : list trial) :
  exists new,
    fst (optimize_ n X y s finished) = (finished ++ new)%list
    /\ List.length new = n
    /\ Forall (trial_ok_ X y) new
    /\ searched_ X y s new.
Proof.
  revert s finished.
  induction n as [|n IH]; intros s finished; cbn [optimize].
  - exists []. rewrite app_nil_r. cbn [searched]. auto.
  - pose proof (objective_ok X y s) as Hok.
    destruct (objective_draws X y s) as [Hp [Hv Hs]].
    destruct (objective vec model xgb_fit xgb_score sampler suggest_int suggest_float X y s)
      as [t s1]. cbn [fst snd] in Hok, Hp, Hv, Hs.
    destruct (IH (tell s1 t) (finished ++ [t])%list) as [new [Heq [Hlen [Hall Hsearch]]]].
    exists (t :: new). rewrite Heq, <- app_assoc. cbn [app List.length].
    split; [reflexivity|]. split; [congruence|].
    split; [constructor; assumption|].
    cbn [searched]. rewrite <- Hs. auto.
Qed.

Lemma ltb_spec (x y : B64.float64) :
  B64Order.ltb x y = true <->
  x <> B64.NaN /\ y <> B64.NaN /\ (B64.units x < B64.units y)%Z.
Proof.
  unfold B64Order.ltb.
  destruct x, y; rewrite ?Z.ltb_lt; split; intros H;
    try discriminate; try (repeat split; try discriminate; tauto);
    try (destruct H as [H1 [H2 H3]]; congruence); tauto.
Qed.

Lemma ltb_false_trans (r t' t : B64.float64) :
  B64Order.ltb r t' = true -> B64Order.ltb r t = false -> B64Order.ltb t' t = false.
Proof.
  intros H1 H2. apply ltb_spec in H1. destruct H1 as [Hr [Ht' Hlt]].
  destruct (B64Order.ltb t' t) eqn:H3; [|reflexivity].
  apply ltb_spec in H3. destruct H3 as [_ [Ht Hlt']].
  assert (B64Order.ltb r t = true) by (apply ltb_spec; repeat split; try assumption; lia).
  congruence.
Qed.

Lemma ltb_irrefl (x : B64.float64) : B64Order.ltb x x = false.
Proof.
  destruct (B64Order.ltb x x) eqn:H; [|reflexivity].
  apply ltb_spec in H. lia.
Qed.

(** The best trial is one of the trials and none has a larger value. *)
Lemma best_of_max (best : trial) (rest seen : list trial) :
  In best seen ->
  (forall t, In t seen -> B64Order.ltb (trial_value best) (trial_value t) = false) ->
  In (best_of best rest) (seen ++ rest)
  /\ forall t, In t (seen ++ rest) ->
       B64Order.ltb (trial_value (best_of best rest)) (trial_value t) = false.
Proof.
  revert best seen. induction rest as [|t' rest IH]; intros best seen Hin Hmax.
  - cbn [best_of]. rewrite app_nil_r. auto.
  - cbn [best_of].
    replace (seen ++ t' :: rest)%list with ((seen ++ [t']) ++ rest)%list
      by (rewrite <- app_assoc; reflexivity).
    destruct (B64Order.ltb (trial_value best) (trial_value t')) eqn:Hlt.
    + apply IH.
      * apply in_or_app. right. left. reflexivity.
      * intros t Ht. apply in_app_or in Ht. destruct Ht as [Ht|[<-|[]]].
        -- eapply ltb_false_trans; [exact Hlt|]. auto.
        -- apply ltb_irrefl.
    + apply IH.
      * apply in_or_app. left. assumption.
      * intros t Ht. apply in_app_or in Ht. destruct Ht as [Ht|[<-|[]]]; auto.
Qed.

(** C7.  Whatever the sampler answers within the requested ranges, the
    study of [optimize_xgb(X, y)] consists of exactly 10 trials.  The
    parameters of each trial are the values the sampler draws for it: its
    answers to the requests for [n_estimators] in [50, 200], [max_depth] in
    [2, 10] and [learning_rate] in [0.01, 0.3], made in this order, the
    sampler having been told every earlier trial; they lie in these ranges.
    Each trial fits a model with its parameters on [(X, y)] and is valued by
    the score of that model on the same [(X, y)].  The function returns a
    model fitted on [(X, y)] with the parameters of a trial whose value no
    other trial exceeds. *)
Theorem optimize_xgb_study (X : list vec) (y : list nat) (s : sampler) :
  List.length (run_study_ X y s) = 10%nat
  /\ searched_ X y s (run_study_ X y s)
  /\ Forall (trial_ok_ X y) (run_study_ X y s)
  /\ exists best,
       In best (run_study_ X y s)
       /\ (forall t, In t (run_study_ X y s) ->
             B64Order.ltb (trial_value best) (trial_value t) = false)
       /\ optimize_xgb_ X y s = Ok (xgb_fit (trial_params best) X y).
Proof.
  destruct (optimize_trials 10 X y s []) as [new [Heq [Hlen [Hall Hsearch]]]].
  cbn [app] in Heq.
  assert (Hrun : run_study_ X y s = new) by exact Heq.
  rewrite Hrun. split; [exact Hlen|]. split; [exact Hsearch|]. split; [exact Hall|].
  unfold optimize_xgb. rewrite Hrun.
  destruct new as [|t0 rest]; [discriminate|].
  cbn [best_trial bind].
  destruct (best_of_max t0 rest [t0]) as [Hin Hmax].
  - left. reflexivity.
  - intros t [<-|[]]. apply ltb_irrefl.
  - exists (best_of t0 rest). cbn [app] in Hin, Hmax. auto.
Qed.

End StudyFacts.

(** ** Checks on concrete inputs *)

(** The quotient and the product agree with [SFdiv] and [SFmul] of the
    Standard Library on every store of up to 12 tasks, and on the stores used
    in the counterexamples. *)
Example rounding_agrees_with_stdlib :
  forallb (fun cn => agrees_with_stdlib (fst cn) (snd cn))
    (count_pairs_upto 12 ++ [(23, 160); (1, 20000); (1, 20001); (1, 3); (2, 3)]%Z)
  = true.
Proof. vm_compute. reflexivity. Qed.

(** End-to-end scenario of the specification: one pending task. *)
Example dashboard_one_pending :
  snd (dashboard_page (mkSession (Some [sample_task "Pending"])))
  = Ok [ Header "Dashboard Overview";
         Metric "Total Tasks" (PyInt 1) "";
         Metric "Completed Tasks" (PyInt 0) "";
         Metric "Completion Rate" (PyFloat B64.zero) "%";
         PieChart "Task Distribution by Category" [("Work", 1%nat)];
         PieChart "Task Priority Distribution" [("Low", 1%nat)] ].
Proof. vm_compute. reflexivity. Qed.

(** C5 on a blank form and on a filled one. *)
Lemma add_task_submission_witness :
  navigation (Demo.add_inputs Demo.blank_form) = AddTask
  /\ form_submitted (add_form (Demo.add_inputs Demo.blank_form)) = true
  /\ form_description (add_form (Demo.add_inputs Demo.blank_form)) = ""
  /\ task_list (fst (Demo.run_script (Demo.add_inputs Demo.blank_form) 0%nat
                       (mkSession (Some [sample_task "Pending"]))))
     = [sample_task "Pending"]
  /\ form_description (add_form (Demo.add_inputs Demo.login_form)) <> ""
  /\ task_list (fst (Demo.run_script (Demo.add_inputs Demo.login_form) 0%nat
                       (mkSession (Some [sample_task "Pending"]))))
     = [sample_task "Pending"; new_task Demo.login_form].
Proof.
  split; [reflexivity|]. split; [reflexivity|]. split; [reflexivity|].
  split.
  { apply (add_task_submission Nltk.porter_stem Nltk.english_stopwords Demo.vec
             Demo.encode Demo.train_test_split Demo.linear_model Demo.logreg_fit
             Demo.model Demo.xgb_fit Demo.xgb_score Demo.xgb_predict Demo.sampler
             Demo.suggest_int Demo.suggest_float Demo.tell
             (Demo.add_inputs Demo.blank_form) 0%nat
             (mkSession (Some [sample_task "Pending"]))
             eq_refl eq_refl).
    reflexivity. }
  split; [discriminate|].
  apply (add_task_submission Nltk.porter_stem Nltk.english_stopwords Demo.vec
           Demo.encode Demo.train_test_split Demo.linear_model Demo.logreg_fit
           Demo.model Demo.xgb_fit Demo.xgb_score Demo.xgb_predict Demo.sampler
           Demo.suggest_int Demo.suggest_float Demo.tell
           (Demo.add_inputs Demo.login_form) 0%nat
           (mkSession (Some [sample_task "Pending"]))
           eq_refl eq_refl).
  discriminate.
Defined.

(** The sample sampler answers within the requested ranges. *)
Lemma demo_suggest_int_range (s : Demo.sampler) (name : string) (low high : Z) :
  (low <= high)%Z ->
  (low <= fst (Demo.suggest_int s name low high) <= high)%Z.
Proof. intros H. cbn. lia. Defined.

Lemma demo_suggest_float_range (s : Demo.sampler) (name : string)
  (low high : B64.float64) :
  B64.leb low high = true ->
  B64.leb low (fst (Demo.suggest_float s name low high)) = true
  /\ B64.leb (fst (Demo.suggest_float s name low high)) high = true.
Proof.
  intros H. cbn [Demo.suggest_float fst]. split; [|exact H].
  destruct low; try discriminate H; unfold B64.leb; apply Z.leb_refl.
Defined.

(** C7 with the sample sampler and learner. *)
Lemma optimize_xgb_study_witness :
  (forall s name low high, (low <= high)%Z ->
     (low <= fst (Demo.suggest_int s name low high) <= high)%Z)
  /\ (forall s name low high, B64.leb low high = true ->
        B64.leb low (fst (Demo.suggest_float s name low high)) = true
        /\ B64.leb (fst (Demo.suggest_float s name low high)) high = true)
  /\ List.length
       (run_study Demo.vec Demo.model Demo.xgb_fit Demo.xgb_score Demo.sampler
          Demo.suggest_int Demo.suggest_float Demo.tell
          ["Fix the Login BUG!"; "Write the docs"] [0%nat; 1%nat] 0%nat)
     = 10%nat.
Proof.
  split; [exact demo_suggest_int_range|]. split; [exact demo_suggest_float_range|].
  apply (optimize_xgb_study Demo.vec Demo.model Demo.xgb_fit Demo.xgb_score
           Demo.sampler Demo.suggest_int Demo.suggest_float Demo.tell
           demo_suggest_int_range demo_suggest_float_range
           ["Fix the Login BUG!"; "Write the docs"] [0%nat; 1%nat] 0%nat).
Defined.

(** C8 on the sample upload: three classes, one of them in the test fold. *)
Lemma insights_report_all_classes_witness :
  exists a,
    Demo.analyse Demo.upload 0%nat = Ok a
    /\ an_y_test a = [0%nat]
    /\ List.length (an_cm a) = List.length (an_classes a)
    /\ map fst (an_report a) = an_classes a.
Proof.
  assert (H : { a | Demo.analyse Demo.upload 0%nat = Ok a /\ an_y_test a = [0%nat] }).
  { eexists. split; vm_compute; reflexivity. }
  destruct H as [a [Ha Ht]]. exists a. split; [exact Ha|]. split; [exact Ht|].
  destruct (insights_report_all_classes Nltk.porter_stem Nltk.english_stopwords
              Demo.vec Demo.encode Demo.train_test_split Demo.linear_model
              Demo.logreg_fit Demo.model Demo.xgb_fit Demo.xgb_score
              Demo.xgb_predict Demo.sampler Demo.suggest_int Demo.suggest_float
              Demo.tell Demo.upload 0%nat a Ha)
    as [_ [_ [Hlen [_ [_ [_ [Hnames _]]]]]]].
  split; [exact Hlen|exact Hnames].
Defined.

(** C3 (the code at a failing input).  On the sample upload the analysis
    succeeds; the [processed] column holds the normalised texts, yet the
    feature matrix is the embedding of the raw descriptions, and so is the
    vector a new description is predicted from. *)
Lemma insights_features_skip_preprocessing :
  exists a,
    Demo.analyse Demo.upload 0%nat = Ok a
    /\ an_processed a = ["fix login bug"; "write doc"; "refactor bill modul"]
    /\ an_X a = Demo.encode ["Fix the Login BUG!"; "Write the docs";
                             "Refactor billing module"]
    /\ an_X a <> Demo.encode (an_processed a)
    /\ prediction_features Demo.vec Demo.encode "Fix the Login BUG!"
       = Demo.encode ["Fix the Login BUG!"]
    /\ prediction_features Demo.vec Demo.encode "Fix the Login BUG!"
       <> Demo.encode [nltk_preprocess_text "Fix the Login BUG!"].
Proof.
  eexists. split; [vm_compute; reflexivity|].
  split; [reflexivity|]. split; [reflexivity|].
  split; [vm_compute; discriminate|].
  split; [reflexivity|]. vm_compute. discriminate.
Qed.

(** * Further properties *)

(** ** Completion rate: order and scale *)

Module RateOrder.

Import B64 B64Facts.
Open Scope Z_scope.

Lemma leb_units (x y : float64) : x <> NaN -> y <> NaN ->
  units x <= units y -> leb x y = true.
Proof.
  intros Hx Hy H. unfold leb.
  destruct x, y; try congruence; apply Z.leb_le; exact H.
Qed.

Lemma store_counts (tasks : list task) : tasks <> [] ->
  0 <= Z.of_nat (List.length (filter is_completed tasks))
    <= Z.of_nat (List.length tasks)
  /\ 0 < Z.of_nat (List.length tasks).
Proof.
  intros Hne. pose proof (CompletionRate.completed_le_total tasks).
  destruct tasks; [congruence|]. cbn [List.length] in *. lia.
Qed.

Lemma filter_forallb {A : Type} (p : A -> bool) (l : list A) :
  forallb p l = true -> filter p l = l.
Proof.
  induction l as [|x l IH]; cbn; [reflexivity|].
  intros H. apply andb_true_iff in H. destruct H as [Hx Hl].
  rewrite Hx, (IH Hl). reflexivity.
Qed.

(** The rate of a non-empty store is the float nearest to the hundredths
    [percent_digits] computes from the two counts. *)
Lemma rate_of_counts (tasks : list task) : tasks <> [] ->
  exists k,
    percent_digits (Z.of_nat (List.length (filter is_completed tasks)))
      (Z.of_nat (List.length tasks)) = Some k
    /\ 0 <= k <= 10000
    /\ calculate_completion_rate tasks = Ok (PyFloat (rn_ratio k 100)).
Proof.
  intros Hne.
  destruct (CompletionRate.rate_steps tasks Hne)
    as [q [p [k [_ [_ [Hr [Hk [Hround Hkb]]]]]]]].
  exists k. rewrite <- Hround. auto.
Qed.

End RateOrder.

(** X1.  A non-empty store in which every task is completed has rate exactly
    100.0. *)
Theorem completion_rate_all_completed (tasks : list task) :
  tasks <> [] ->
  forallb is_completed tasks = true ->
  calculate_completion_rate tasks = Ok (PyFloat B64.hundred).
Proof.
  intros Hne Hall.
  destruct (RateOrder.rate_of_counts tasks Hne) as [k [Hk [_ Hr]]].
  destruct (RateOrder.store_counts tasks Hne) as [Hc Hn].
  rewrite (RateOrder.filter_forallb _ _ Hall) in Hk, Hc.
  assert (H1 : percent_digits 1 1 = Some 10000%Z) by (vm_compute; reflexivity).
  assert (Hk1 : k = 10000%Z).
  { apply (CompletionRate.percent_digits_ratio (Z.of_nat (List.length tasks))
             (Z.of_nat (List.length tasks)) 1 1 k 10000); try lia; assumption. }
  rewrite Hr, Hk1. vm_compute. reflexivity.
Qed.

(** X1 on a store of three completed tasks. *)
Lemma completion_rate_all_completed_witness :
  sample_store 3 3 <> []
  /\ forallb is_completed (sample_store 3 3) = true
  /\ calculate_completion_rate (sample_store 3 3) = Ok (PyFloat B64.hundred).
Proof.
  split; [discriminate|]. split; [reflexivity|].
  apply (completion_rate_all_completed (sample_store 3 3)).
  - discriminate.
  - reflexivity.
Defined.

(** X2.  The rate is monotone in the share of completed tasks: if the share
    of one non-empty store is at most that of another, so is its rate.  In
    particular marking a further task completed never lowers the rate. *)
Theorem completion_rate_monotone (tasks1 tasks2 : list task) :
  tasks1 <> [] -> tasks2 <> [] ->
  (Z.of_nat (List.length (filter is_completed tasks1)) * Z.of_nat (List.length tasks2)
   <= Z.of_nat (List.length (filter is_completed tasks2)) * Z.of_nat (List.length tasks1))%Z ->
  exists r1 r2,
    calculate_completion_rate tasks1 = Ok (PyFloat r1)
    /\ calculate_completion_rate tasks2 = Ok (PyFloat r2)
    /\ B64.leb r1 r2 = true.
Proof.
  intros Hne1 Hne2 Hle.
  destruct (RateOrder.rate_of_counts tasks1 Hne1) as [k1 [Hk1 [Hb1 Hr1]]].
  destruct (RateOrder.rate_of_counts tasks2 Hne2) as [k2 [Hk2 [Hb2 Hr2]]].
  destruct (RateOrder.store_counts tasks1 Hne1) as [Hc1 Hn1].
  destruct (RateOrder.store_counts tasks2 Hne2) as [Hc2 Hn2].
  exists (B64.rn_ratio k1 100), (B64.rn_ratio k2 100).
  split; [exact Hr1|]. split; [exact Hr2|].
  apply RateOrder.leb_units; try apply B64Facts.rn_ratio_not_nan.
  apply B64Facts.rn_ratio_mono; try lia.
  assert (k1 <= k2)%Z; [|lia].
  eapply (CompletionRate.percent_digits_mono _ _ _ _ k1 k2 Hc1 Hn1 Hc2 Hn2 Hle);
    assumption.
Qed.

(** X2 on one and two completed tasks out of three. *)
Lemma completion_rate_monotone_witness :
  exists r1 r2,
    calculate_completion_rate (sample_store 1 3) = Ok (PyFloat r1)
    /\ calculate_completion_rate (sample_store 2 3) = Ok (PyFloat r2)
    /\ B64.leb r1 r2 = true.
Proof.
  apply (completion_rate_monotone (sample_store 1 3) (sample_store 2 3)).
  - discriminate.
  - discriminate.
  - vm_compute. discriminate.
Defined.

(** X3.  The rate depends on the share of completed tasks only: two
    non-empty stores with the same share (a store and a reordering of it, or
    a store and several copies of it) have the same rate, whatever rounding
    happens on the way. *)
Theorem completion_rate_share (tasks1 tasks2 : list task) :
  tasks1 <> [] -> tasks2 <> [] ->
  (Z.of_nat (List.length (filter is_completed tasks1)) * Z.of_nat (List.length tasks2)
   = Z.of_nat (List.length (filter is_completed tasks2)) * Z.of_nat (List.length tasks1))%Z ->
  calculate_completion_rate tasks1 = calculate_completion_rate tasks2.
Proof.
  intros Hne1 Hne2 Heq.
  destruct (RateOrder.rate_of_counts tasks1 Hne1) as [k1 [Hk1 [Hb1 Hr1]]].
  destruct (RateOrder.rate_of_counts tasks2 Hne2) as [k2 [Hk2 [Hb2 Hr2]]].
  destruct (RateOrder.store_counts tasks1 Hne1) as [Hc1 Hn1].
  destruct (RateOrder.store_counts tasks2 Hne2) as [Hc2 Hn2].
  rewrite Hr1, Hr2. do 3 f_equal.
  eapply (CompletionRate.percent_digits_ratio _ _ _ _ k1 k2 Hc1 Hn1 Hc2 Hn2 Heq);
    assumption.
Qed.

(** X3 on one of three tasks and two of six. *)
Lemma completion_rate_share_witness :
  calculate_completion_rate (sample_store 1 3)
  = calculate_completion_rate (sample_store 2 6).
Proof.
  apply (completion_rate_share (sample_store 1 3) (sample_store 2 6)).
  - discriminate.
  - discriminate.
  - vm_compute. reflexivity.
Defined.

(** ** Value counts and the Dashboard *)

Module ValueCounts.

Import Pandas.

Lemma insert_desc_perm (x : entry) (l : list entry) :
  Permutation (insert_desc x l) (x :: l).
Proof.
  induction l as [|y l IH]; cbn [insert_desc]; [reflexivity|].
  destruct (snd y <=? snd x)%nat; [reflexivity|].
  rewrite IH. apply perm_swap.
Qed.

Lemma sort_desc_perm (l : list entry) : Permutation (sort_desc l) l.
Proof.
  induction l as [|x l IH]; [reflexivity|].
  cbn [sort_desc fold_right]. fold (sort_desc l).
  rewrite insert_desc_perm, IH. reflexivity.
Qed.

Lemma insert_desc_hd (x a : entry) (l : list entry) :
  count_ge a x -> HdRel count_ge a l -> HdRel count_ge a (insert_desc x l).
Proof.
  intros Hax Hl. destruct l as [|y l]; cbn [insert_desc].
  - constructor. assumption.
  - destruct (snd y <=? snd x)%nat; constructor; [assumption|].
    inversion Hl; assumption.
Qed.

Lemma insert_desc_sorted (x : entry) (l : list entry) :
  Sorted count_ge l -> Sorted count_ge (insert_desc x l).
Proof.
  induction l as [|y l IH]; intros Hs; cbn [insert_desc].
  - repeat constructor.
  - destruct (Nat.leb_spec (snd y) (snd x)) as [Hle|Hgt].
    + constructor; [assumption|]. constructor. exact Hle.
    + inversion Hs as [|? ? Hs' Hhd]; subst. constructor.
      * apply IH. assumption.
      * apply insert_desc_hd; [|assumption]. unfold count_ge. lia.
Qed.

Lemma sort_desc_sorted (l : list entry) : StronglySorted count_ge (sort_desc l).
Proof.
  apply Sorted_StronglySorted.
  - intros a b c Hab Hbc. unfold count_ge in *. lia.
  - induction l as [|x l IH]; [constructor|].
    cbn [sort_desc fold_right]. fold (sort_desc l).
    apply insert_desc_sorted. assumption.
Qed.

Lemma bump_total (x : string) (t : list entry) :
  list_sum (map snd (bump x t)) = S (list_sum (map snd t)).
Proof.
  induction t as [|[y c] t IH]; cbn [bump map list_sum fold_right snd]; [reflexivity|].
  destruct (String.eqb x y); cbn [map list_sum fold_right snd].
  - reflexivity.
  - fold (list_sum (map snd (bump x t))). fold (list_sum (map snd t)).
    rewrite IH. lia.
Qed.

Lemma tally_total (col : list string) :
  list_sum (map snd (tally col)) = List.length col.
Proof.
  induction col as [|x col IH] using rev_ind; [reflexivity|].
  rewrite Recommend.tally_snoc, bump_total, IH, length_app. cbn. lia.
Qed.

Lemma list_sum_perm (l l' : list nat) : Permutation l l' -> list_sum l = list_sum l'.
Proof.
  induction 1 as [|x l l' _ IH|x y l|l l' l'' _ IH1 _ IH2].
  - reflexivity.
  - cbn [list_sum fold_right]. fold (list_sum l). fold (list_sum l'). lia.
  - cbn [list_sum fold_right]. lia.
  - lia.
Qed.

Lemma value_counts_total (col : list string) :
  list_sum (map snd (value_counts col)) = List.length col.
Proof.
  unfold value_counts.
  rewrite (list_sum_perm _ (map snd (tally col))).
  - apply tally_total.
  - apply Permutation_map. apply sort_desc_perm.
Qed.

End ValueCounts.

(** X4.  [value_counts] lists every distinct value of a column exactly once,
    with the number of its occurrences, in non-increasing order of count;
    the counts add up to the length of the column. *)
Theorem value_counts_spec (col : list string) :
  NoDup (map fst (Pandas.value_counts col))
  /\ (forall x c, In (x, c) (Pandas.value_counts col) <->
        In x col /\ c = occurrences x col)
  /\ list_sum (map snd (Pandas.value_counts col)) = List.length col
  /\ StronglySorted count_ge (Pandas.value_counts col).
Proof.
  unfold Pandas.value_counts.
  pose proof (ValueCounts.sort_desc_perm (Pandas.tally col)) as Hperm.
  destruct (Recommend.tally_spec col) as [Hnd [Hkeys [Hcount _]]].
  split.
  { eapply Permutation_NoDup; [|exact Hnd].
    apply Permutation_map. symmetry. exact Hperm. }
  split.
  { intros x c. split.
    - intros Hin. apply (Permutation_in _ Hperm) in Hin. split.
      + apply Hkeys. apply (in_map fst) in Hin. exact Hin.
      + apply Hcount. assumption.
    - intros [Hin ->]. apply (Permutation_in _ (Permutation_sym Hperm)).
      apply Hkeys in Hin. unfold Pandas.keys in Hin.
      apply in_map_iff in Hin. destruct Hin as [[x' c'] [Hx Hin]].
      cbn in Hx. subst x'. rewrite <- (Hcount _ _ Hin). assumption. }
  split; [apply ValueCounts.value_counts_total|].
  apply ValueCounts.sort_desc_sorted.
Qed.

(** X5.  The Dashboard never raises and leaves the session as it is.  It
    shows the number of tasks, the number of completed ones (never more than
    the total) and the rate; for an empty store it shows a notice and no
    chart, otherwise exactly two pie charts, by category and by priority,
    whose slice sizes each add up to the number of tasks. *)
Theorem dashboard_overview (s : session_state) :
  exists rate ws,
    fst (dashboard_page s) = s
    /\ calculate_completion_rate (task_list s) = Ok rate
    /\ snd (dashboard_page s)
       = Ok ([ Header "Dashboard Overview";
               Metric "Total Tasks" (PyInt (Z.of_nat (List.length (task_list s)))) "";
               Metric "Completed Tasks"
                 (PyInt (Z.of_nat (List.length (filter is_completed (task_list s))))) "";
               Metric "Completion Rate" rate "%" ] ++ ws)%list
    /\ (List.length (filter is_completed (task_list s)) <= List.length (task_list s))%nat
    /\ match task_list s with
       | [] => ws = [ Info "No task data available to display graphs." ]
       | _ :: _ =>
           pie_charts ws
           = [ Pandas.value_counts (map category (task_list s));
               Pandas.value_counts (map priority (task_list s)) ]
           /\ List.length ws = 2%nat
           /\ Forall (fun slices =>
                        list_sum (map snd slices) = List.length (task_list s))
                (pie_charts ws)
       end.
Proof.
  assert (Hrate : exists rate, calculate_completion_rate (task_list s) = Ok rate).
  { destruct (task_list s) as [|t ts] eqn:Hts; [eexists; reflexivity|].
    destruct (CompletionRate.rate_steps (t :: ts) ltac:(discriminate))
      as [q [p [k [_ [_ [Hr _]]]]]].
    eexists. exact Hr. }
  destruct Hrate as [rate Hrate].
  assert (Hcol : forall (f : task -> string),
            Pandas.column f (task_dataframe s) = map f (task_list s)).
  { intros f. unfold Pandas.column, task_dataframe.
    rewrite <- (proj1 (from_records_rows (task_list s))) at 2.
    rewrite map_map. reflexivity. }
  unfold dashboard_page. cbn [fst snd]. rewrite Hrate. cbn [bind].
  rewrite CompletionRate.py_sum_ones, !Hcol.
  destruct (task_list s) as [|t ts] eqn:Hts.
  - exists rate, [ Info "No task data available to display graphs." ].
    unfold task_dataframe. rewrite Hts. cbn.
    repeat split; try reflexivity; try lia.
  - exists rate,
      [ PieChart "Task Distribution by Category"
          (Pandas.value_counts (map category (t :: ts)));
        PieChart "Task Priority Distribution"
          (Pandas.value_counts (map priority (t :: ts))) ].
    split; [reflexivity|]. split; [reflexivity|].
    split.
    { unfold task_dataframe. rewrite Hts. reflexivity. }
    split; [apply CompletionRate.completed_le_total|].
    split; [reflexivity|]. split; [reflexivity|].
    cbn [pie_charts]. repeat constructor.
    + rewrite ValueCounts.value_counts_total. apply length_map.
    + rewrite ValueCounts.value_counts_total. apply length_map.
Qed.

(** ** The store over a session *)

Module FormFacts.

Lemma string_length_app (a b : string) :
  String.length (a ++ b) = (String.length a + String.length b)%nat.
Proof. induction a as [|c a IH]; cbn; [reflexivity|rewrite IH; reflexivity]. Qed.

Lemma decimal_fixed_length (width n : nat) :
  String.length (decimal_fixed width n) = width.
Proof.
  revert n. induction width as [|w IH]; intros n; cbn [decimal_fixed]; [reflexivity|].
  rewrite string_length_app, IH. cbn. lia.
Qed.

Lemma date_str_length (d : date) : String.length (date_str d) = 10%nat.
Proof.
  unfold date_str. rewrite !string_length_app, !decimal_fixed_length. reflexivity.
Qed.

Lemma new_task_form (f : add_task_form) :
  str_truthy (form_description f) = true -> form_task (new_task f).
Proof.
  intros Hd. unfold form_task, new_task. cbn [description priority status due_date].
  split; [apply str_truthy_spec; assumption|].
  split; [destruct (form_priority f); cbn; auto|].
  split; [destruct (form_status f); cbn; auto|].
  apply date_str_length.
Qed.

Lemma accepted_spec (inp : inputs) :
  match navigation inp with AddTask => true | _ => false end
  && form_submitted (add_form inp)
  && str_truthy (form_description (add_form inp))
  = accepted inp.
Proof. unfold accepted. destruct (navigation inp); reflexivity. Qed.

End FormFacts.

Section Session.

Variable stem : string -> string.
Variable stopwords : list string.
Variable vec : Type.
Variable encode : list string -> list vec.
Variable train_test_split :
  list vec -> list nat -> result (list vec * list vec * list nat * list nat).
Variable linear_model : Type.
Variable logreg_fit : list vec -> list nat -> linear_model.
Variable model : Type.
Variable xgb_fit : xgb_params -> list vec -> list nat -> model.
Variable xgb_score : model -> list vec -> list nat -> B64.float64.
Variable xgb_predict : model -> list vec -> list nat.
Variable sampler : Type.
Variable suggest_int : sampler -> string -> Z -> Z -> Z * sampler.
Variable suggest_float :
  sampler -> string -> B64.float64 -> B64.float64 -> B64.float64 * sampler.
Variable tell : sampler -> trial -> sampler.

Local Abbreviation script :=
  (run_script stem stopwords vec encode train_test_split linear_model logreg_fit
     model xgb_fit xgb_score xgb_predict sampler suggest_int suggest_float tell).

Local Abbreviation session :=
  (run_session stem stopwords vec encode train_test_split linear_model logreg_fit
     model xgb_fit xgb_score xgb_predict sampler suggest_int suggest_float tell).

Lemma run_script_accepted (inp : inputs) (smp : sampler) (s : session_state) :
  task_list (fst (script inp smp s))
  = if accepted inp then (task_list s ++ [new_task (add_form inp)])%list
    else task_list s.
Proof.
  rewrite <- FormFacts.accepted_spec.
  apply (run_script_store stem stopwords vec encode train_test_split linear_model
           logreg_fit model xgb_fit xgb_score xgb_predict sampler suggest_int
           suggest_float tell inp smp s).
Qed.

(** X6.  The store at the end of a session is the store at its start
    followed by one record per accepted submission (Add Task page, form
    submitted, description not empty), in the order of the submissions;
    nothing else is ever stored. *)
Theorem session_store (runs : list (inputs * sampler)) (s : session_state) :
  task_list (session runs s) = (task_list s ++ submitted_tasks runs)%list
  /\ List.length (task_list (session runs s))
     = (List.length (task_list s)
        + List.length (filter (fun r => accepted (fst r)) runs))%nat.
Proof.
  assert (H : task_list (session runs s) = (task_list s ++ submitted_tasks runs)%list).
  { unfold run_session, submitted_tasks. revert s.
    induction runs as [|[inp smp] runs IH]; intros s; cbn [fold_left filter map fst snd].
    - symmetry. apply app_nil_r.
    - rewrite IH, run_script_accepted.
      destruct (accepted inp); cbn [map app fst].
      + rewrite <- app_assoc. reflexivity.
      + reflexivity. }
  split; [exact H|].
  rewrite H, length_app. unfold submitted_tasks. rewrite length_map. reflexivity.
Qed.

(** X7.  Every record the application stores has a non-empty description, a
    priority among Low, Medium and High, a status among Pending, In Progress
    and Completed, and a due date of ten characters: if the store satisfies
    this at the start of a session, it does at the end. *)
Theorem session_store_well_formed (runs : list (inputs * sampler)) (s : session_state) :
  Forall form_task (task_list s) ->
  Forall form_task (task_list (session runs s)).
Proof.
  unfold run_session. revert s.
  induction runs as [|[inp smp] runs IH]; intros s Hs; cbn [fold_left fst snd].
  - exact Hs.
  - apply IH. rewrite run_script_accepted.
    destruct (accepted inp) eqn:Hacc; [|exact Hs].
    apply Forall_app. split; [exact Hs|]. constructor; [|constructor].
    apply FormFacts.new_task_form.
    unfold accepted in Hacc. destruct (navigation inp); try discriminate.
    apply andb_true_iff in Hacc. tauto.
Qed.

End Session.

(** X7 on a session of two submissions, the second with an empty
    description. *)
Lemma session_store_well_formed_witness :
  Forall form_task
    (task_list
       (run_session Nltk.porter_stem Nltk.english_stopwords Demo.vec Demo.encode
          Demo.train_test_split Demo.linear_model Demo.logreg_fit Demo.model
          Demo.xgb_fit Demo.xgb_score Demo.xgb_predict Demo.sampler
          Demo.suggest_int Demo.suggest_float Demo.tell
          [(Demo.add_inputs Demo.login_form, 0%nat);
           (Demo.add_inputs Demo.blank_form, 0%nat)]
          (mkSession None))).
Proof.
  apply (session_store_well_formed Nltk.porter_stem Nltk.english_stopwords
           Demo.vec Demo.encode Demo.train_test_split Demo.linear_model
           Demo.logreg_fit Demo.model Demo.xgb_fit Demo.xgb_score Demo.xgb_predict
           Demo.sampler Demo.suggest_int Demo.suggest_float Demo.tell).
  constructor.
Defined.

(** ** The Task List table *)

Module TableFacts.

Lemma unique_from_in (seen col : list string) (x : string) :
  In x (Pandas.unique_from seen col) -> In x col.
Proof.
  revert seen. induction col as [|y col IH]; intros seen; cbn [Pandas.unique_from].
  - intros [].
  - destruct (mem_string y seen).
    + intros H. right. apply (IH _ H).
    + intros [->|H]; [left; reflexivity|right; apply (IH _ H)].
Qed.

Lemma selectbox_in (options : list string) (choice : nat) :
  options <> [] -> In (selectbox options choice) options.
Proof.
  intros Hne. unfold selectbox.
  destruct (Nat.lt_ge_cases choice (List.length options)) as [Hlt|Hge].
  - apply nth_In. assumption.
  - rewrite nth_overflow by assumption.
    destruct options; [congruence|left; reflexivity].
Qed.

Lemma selectbox_first (x : string) (options : list string) :
  selectbox (x :: options) 0 = x.
Proof. reflexivity. Qed.

Lemma tasks_page_rows (ts : list task) (c : filter_choice) :
  let df := task_dataframe (mkSession (Some ts)) in
  page_rows (snd (tasks_page c (mkSession (Some ts))))
  = filter (fun row =>
              matches_filters
                (selectbox ("All" :: Pandas.unique (Pandas.column status df))
                   (status_choice_index c))
                (selectbox ("All" :: Pandas.unique (Pandas.column priority df))
                   (priority_choice_index c))
                (snd row)) df.
Proof.
  intros df. unfold tasks_page. fold df.
  destruct (Pandas.empty df) eqn:He; cbn [negb snd page_rows displayed_rows].
  - rewrite (empty_nil df He). reflexivity.
  - apply filter_tasks_spec.
Qed.

(** An option taken from a column selects at least one row of the frame. *)
Lemma option_selects_row {A : Type} (f : A -> string) (df : Pandas.DataFrame A)
  (choice : nat) :
  df <> [] ->
  let o := selectbox ("All" :: Pandas.unique (Pandas.column f df)) choice in
  o = "All" \/ exists row, In row df /\ f (snd row) = o.
Proof.
  intros Hne o.
  pose proof (selectbox_in ("All" :: Pandas.unique (Pandas.column f df)) choice
                ltac:(discriminate)) as Hin.
  fold o in Hin. destruct Hin as [<-|Hin]; [left; reflexivity|].
  right. apply unique_from_in in Hin. unfold Pandas.column in Hin.
  apply in_map_iff in Hin. destruct Hin as [row [Hf Hrow]]. eauto.
Qed.

Lemma combine_seq_nth_error {A : Type} (l : list A) (k i : nat) (x : A) :
  In (i, x) (combine (seq k (List.length l)) l) ->
  (k <= i)%nat /\ nth_error l (i - k) = Some x.
Proof.
  revert k. induction l as [|y l IH]; intros k; cbn; [intros []|].
  intros [H|H].
  - injection H as <- <-. rewrite Nat.sub_diag. split; [lia|reflexivity].
  - destruct (IH (S k) H) as [Hle Hn]. split; [lia|].
    replace (i - k)%nat with (S (i - S k)) by lia. exact Hn.
Qed.

Lemma seq_sorted (k n : nat) : StronglySorted lt (seq k n).
Proof.
  revert k. induction n as [|n IH]; intros k; cbn; constructor.
  - apply IH.
  - apply Forall_forall. intros x Hx. apply in_seq in Hx. lia.
Qed.

Lemma filter_keeps_sorted {A : Type} (p : nat * A -> bool) (l : list (nat * A)) :
  StronglySorted lt (map fst l) -> StronglySorted lt (map fst (filter p l)).
Proof.
  induction l as [|x l IH]; cbn [map filter]; intros H; [constructor|].
  inversion H as [|? ? Hs Hall]; subst.
  destruct (p x); cbn [map]; [|apply IH; assumption].
  constructor; [apply IH; assumption|].
  apply Forall_forall. intros i Hi. rewrite Forall_forall in Hall. apply Hall.
  apply in_map_iff in Hi. destruct Hi as [r [<- Hr]].
  apply in_map. apply filter_In in Hr. tauto.
Qed.

End TableFacts.

(** X8.  With at least one task stored, every option the status select box
    offers shows at least one row when the priority filter is left on "All",
    and every option of the priority select box does when the status filter
    is left on "All": the boxes offer only values that occur. *)
Theorem task_list_option_nonempty (ts : list task) (c : filter_choice) :
  ts <> [] ->
  priority_choice_index c = O \/ status_choice_index c = O ->
  page_rows (snd (tasks_page c (mkSession (Some ts)))) <> [].
Proof.
  intros Hne Hc. rewrite TableFacts.tasks_page_rows.
  set (df := task_dataframe (mkSession (Some ts))).
  assert (Hdf : df <> []).
  { subst df. unfold task_dataframe, Pandas.from_records. cbn [task_list tasks].
    destruct ts; [congruence|discriminate]. }
  destruct Hc as [Hp|Hs].
  - rewrite Hp, TableFacts.selectbox_first.
    destruct (TableFacts.option_selects_row status df (status_choice_index c) Hdf)
      as [Ho|[row [Hrow Ho]]].
    + rewrite Ho. intros Hnil.
      destruct df as [|r df']; [congruence|]. cbn in Hnil. discriminate.
    + intros Hnil.
      assert (Hin : In row (filter (fun row0 =>
                 matches_filters
                   (selectbox ("All" :: Pandas.unique (Pandas.column status df))
                      (status_choice_index c)) "All" (snd row0)) df)).
      { apply filter_In. split; [assumption|].
        unfold matches_filters. rewrite Ho, !String.eqb_refl, ?orb_true_r. reflexivity. }
      rewrite Hnil in Hin. destruct Hin.
  - rewrite Hs, TableFacts.selectbox_first.
    destruct (TableFacts.option_selects_row priority df (priority_choice_index c) Hdf)
      as [Ho|[row [Hrow Ho]]].
    + rewrite Ho. intros Hnil.
      destruct df as [|r df']; [congruence|]. cbn in Hnil. discriminate.
    + intros Hnil.
      assert (Hin : In row (filter (fun row0 =>
                 matches_filters "All"
                   (selectbox ("All" :: Pandas.unique (Pandas.column priority df))
                      (priority_choice_index c)) (snd row0)) df)).
      { apply filter_In. split; [assumption|].
        unfold matches_filters. rewrite Ho, !String.eqb_refl, ?orb_true_r. reflexivity. }
      rewrite Hnil in Hin. destruct Hin.
Qed.

(** X8 on a store of two tasks, filtered on the second status offered. *)
Lemma task_list_option_nonempty_witness :
  page_rows (snd (tasks_page (mkChoice 2 0)
                    (mkSession (Some [sample_task "Pending"; sample_task "Completed"]))))
  <> [].
Proof.
  apply (task_list_option_nonempty
           [sample_task "Pending"; sample_task "Completed"] (mkChoice 2 0)).
  - discriminate.
  - left. reflexivity.
Defined.

(** X9.  The rows of the displayed table keep the row numbers of the full
    task list: a displayed row numbered [i] holds the [i]-th stored task, and
    the row numbers of the table are strictly increasing. *)
Theorem task_list_row_numbers (ts : list task) (c : filter_choice) :
  (forall i t, In (i, t) (page_rows (snd (tasks_page c (mkSession (Some ts))))) ->
     nth_error ts i = Some t)
  /\ StronglySorted lt
       (map fst (page_rows (snd (tasks_page c (mkSession (Some ts)))))).
Proof.
  rewrite TableFacts.tasks_page_rows.
  unfold task_dataframe, Pandas.from_records. cbn [task_list tasks]. split.
  - intros i t Hin. apply filter_In in Hin. destruct Hin as [Hin _].
    apply TableFacts.combine_seq_nth_error in Hin. destruct Hin as [_ Hn].
    rewrite Nat.sub_0_r in Hn. exact Hn.
  - apply TableFacts.filter_keeps_sorted.
    fold (Pandas.from_records ts).
    rewrite (proj2 (from_records_rows ts)). apply TableFacts.seq_sorted.
Qed.

(** ** The label encoder *)

Module EncoderFacts.

Import Sklearn.

Lemma insert_sorted_in (x y : string) (l : list string) :
  In y (insert_sorted x l) <-> y = x \/ In y l.
Proof.
  induction l as [|z l IH]; cbn [insert_sorted].
  - cbn. intuition.
  - destruct (String.compare x z) eqn:Hc.
    + apply String.compare_eq_iff in Hc. subst z. cbn. intuition.
    + cbn. intuition.
    + cbn [In]. rewrite IH. intuition.
Qed.

Lemma np_unique_in (x : string) (col : list string) :
  In x (np_unique col) <-> In x col.
Proof.
  unfold np_unique. induction col as [|y col IH]; cbn [fold_right]; [tauto|].
  rewrite insert_sorted_in, IH. cbn. intuition.
Qed.

Lemma insert_sorted_hd (x a : string) (l : list string) :
  String_as_OT.lt a x -> HdRel String_as_OT.lt a l ->
  HdRel String_as_OT.lt a (insert_sorted x l).
Proof.
  intros Hax Hl. destruct l as [|z l]; cbn [insert_sorted].
  - constructor. assumption.
  - destruct (String.compare x z); constructor; try assumption;
      inversion Hl; assumption.
Qed.

Lemma insert_sorted_sorted (x : string) (l : list string) :
  Sorted String_as_OT.lt l -> Sorted String_as_OT.lt (insert_sorted x l).
Proof.
  induction l as [|z l IH]; intros Hs; cbn [insert_sorted].
  - repeat constructor.
  - destruct (String.compare x z) eqn:Hc.
    + assumption.
    + constructor; [assumption|]. constructor.
      apply String_as_OT.cmp_lt. exact Hc.
    + inversion Hs as [|? ? Hs' Hhd]; subst. constructor.
      * apply IH. assumption.
      * apply insert_sorted_hd; [|assumption].
        apply String_as_OT.cmp_lt. unfold String_as_OT.cmp.
        rewrite String.compare_antisym, Hc. reflexivity.
Qed.

Lemma np_unique_sorted (col : list string) :
  StronglySorted String_as_OT.lt (np_unique col).
Proof.
  apply Sorted_StronglySorted.
  - intros a b c. apply String_as_OT.lt_trans.
  - unfold np_unique. induction col as [|x col IH]; [constructor|].
    cbn [fold_right]. apply insert_sorted_sorted. assumption.
Qed.

Lemma sorted_nodup (l : list string) :
  StronglySorted String_as_OT.lt l -> NoDup l.
Proof.
  induction 1 as [|x l Hs IH Hall]; constructor; [|assumption].
  intros Hin. rewrite Forall_forall in Hall.
  apply (String_as_OT.lt_not_eq x x (Hall x Hin)). reflexivity.
Qed.

Lemma first_index_nth (x : string) (l : list string) :
  In x l -> nth_error l (first_index x l) = Some x.
Proof.
  induction l as [|y l IH]; [intros []|].
  intros Hin. cbn [first_index].
  destruct (String.eqb_spec x y) as [->|Hne]; [reflexivity|].
  destruct Hin as [->|Hin]; [congruence|]. cbn. apply IH. assumption.
Qed.

Lemma inverse_of_codes (classes col : list string) :
  (forall x, In x col -> In x classes) ->
  inverse_transform classes (map (fun x => first_index x classes) col) = Ok col.
Proof.
  induction col as [|x col IH]; intros Hin; [reflexivity|].
  cbn [map inverse_transform].
  rewrite (first_index_nth x classes (Hin x (or_introl eq_refl))).
  rewrite IH by (intros y Hy; apply Hin; right; assumption).
  reflexivity.
Qed.

End EncoderFacts.

(** X11.  Label encoding round-trips: decoding the codes of a column with the
    classes fitted on it gives the column back.  The classes are the distinct
    values of the column in strictly increasing order, and every code is the
    position of its value among the classes. *)
Theorem label_encoder_round_trip (col : list string) :
  let classes := fst (Sklearn.fit_transform col) in
  let codes := snd (Sklearn.fit_transform col) in
  Sklearn.inverse_transform classes codes = Ok col
  /\ (forall x, In x classes <-> In x col)
  /\ StronglySorted String_as_OT.lt classes
  /\ NoDup classes
  /\ List.length codes = List.length col
  /\ Forall (fun c => (c < List.length classes)%nat) codes.
Proof.
  unfold Sklearn.fit_transform. cbn [fst snd].
  split.
  { apply EncoderFacts.inverse_of_codes. intros x Hx.
    apply EncoderFacts.np_unique_in. assumption. }
  split; [intros x; apply EncoderFacts.np_unique_in|].
  split; [apply EncoderFacts.np_unique_sorted|].
  split; [apply EncoderFacts.sorted_nodup, EncoderFacts.np_unique_sorted|].
  split; [apply length_map|].
  apply Forall_forall. intros c Hc. apply in_map_iff in Hc.
  destruct Hc as [x [<- Hx]].
  apply Recommend.first_index_lt. apply EncoderFacts.np_unique_in. assumption.
Qed.

(** ** Metrics *)

Module MetricFacts.

Import Sklearn.

Lemma zero_in_unit : in_unit_interval B64.zero.
Proof. split; vm_compute; reflexivity. Qed.

Lemma ratio_in_unit (a b : nat) : (a <= b)%nat -> (0 < b)%nat ->
  in_unit_interval (B64.rn_ratio (Z.of_nat a) (Z.of_nat b)).
Proof.
  intros Hab Hb. split.
  - apply RateOrder.leb_units; [discriminate|apply B64Facts.rn_ratio_not_nan|].
    change (B64.units B64.zero) with 0%Z.
    apply B64Facts.units_nonneg. apply B64Facts.rn_ratio_wf; lia.
  - apply RateOrder.leb_units; [apply B64Facts.rn_ratio_not_nan|discriminate|].
    rewrite <- CompletionRate.rn_ratio_1_1.
    apply B64Facts.rn_ratio_mono; lia.
Qed.

Lemma prf_divide_in_unit (a b : nat) : (a <= b)%nat ->
  in_unit_interval (prf_divide a b B64.zero).
Proof.
  intros Hab. unfold prf_divide. destruct b as [|b]; [apply zero_in_unit|].
  apply ratio_in_unit; lia.
Qed.

Lemma metrics_of_in_unit (l : nat) (y_true y_pred : list nat) :
  metrics_in_unit_interval (metrics_of l y_true y_pred B64.zero).
Proof.
  pose proof (SklearnFacts.count_pairs_le_pred l y_true y_pred).
  pose proof (SklearnFacts.count_pairs_le_true l y_true y_pred).
  unfold metrics_in_unit_interval, metrics_of. cbn [precision recall f1_score].
  repeat split; apply prf_divide_in_unit; lia.
Qed.

Lemma ratio_one (n : nat) : (0 < n)%nat ->
  B64.rn_ratio (Z.of_nat n) (Z.of_nat n) = B64.one.
Proof.
  intros Hn. rewrite <- CompletionRate.rn_ratio_1_1.
  apply B64Facts.rn_ratio_ratio; lia.
Qed.

Lemma count_pairs_same (i j : nat) (y : list nat) :
  count_pairs i j y y = if Nat.eqb i j then count_where (Nat.eqb i) y else O.
Proof.
  unfold count_pairs, count_where.
  induction y as [|t y IH]; cbn [combine filter fst snd List.length].
  - destruct (Nat.eqb i j); reflexivity.
  - destruct (Nat.eqb_spec t i) as [->|Hti]; destruct (Nat.eqb_spec i j) as [->|Hij];
      cbn [andb].
    + rewrite !Nat.eqb_refl in *. cbn [List.length]. rewrite IH. reflexivity.
    + destruct (Nat.eqb_spec i j); [congruence|]. cbn. exact IH.
    + destruct (Nat.eqb_spec j t); [congruence|]. exact IH.
    + destruct (Nat.eqb_spec i t); [congruence|]. exact IH.
Qed.

(** Each pair of labels below [n] is counted in exactly one cell of a row. *)
Lemma indicator_sum (p n : nat) :
  list_sum (map (fun j => if Nat.eqb p j then 1 else 0)%nat (seq 0 n))
  = if (p <? n)%nat then 1%nat else 0%nat.
Proof.
  induction n as [|n IH]; [reflexivity|].
  rewrite seq_S, map_app, list_sum_app, IH. cbn [plus map list_sum fold_right].
  destruct (Nat.ltb_spec p n), (Nat.ltb_spec p (S n)), (Nat.eqb_spec p n); lia.
Qed.

Lemma list_sum_map_add {A : Type} (f g : A -> nat) (l : list A) :
  list_sum (map (fun x => f x + g x)%nat l)
  = (list_sum (map f l) + list_sum (map g l))%nat.
Proof.
  induction l as [|x l IH]; cbn [map list_sum fold_right]; [reflexivity|].
  fold (list_sum (map (fun x => f x + g x)%nat l)).
  fold (list_sum (map f l)). fold (list_sum (map g l)). lia.
Qed.

Lemma list_sum_zero {A : Type} (l : list A) :
  list_sum (map (fun _ : A => 0%nat) l) = 0%nat.
Proof. induction l as [|x l IH]; [reflexivity|]. cbn [map list_sum fold_right plus]. exact IH. Qed.

Lemma count_pairs_cons (i j t p : nat) (y_true y_pred : list nat) :
  count_pairs i j (t :: y_true) (p :: y_pred)
  = ((if Nat.eqb t i then if Nat.eqb p j then 1 else 0 else 0)
     + count_pairs i j y_true y_pred)%nat.
Proof.
  unfold count_pairs, count_where. cbn [combine filter fst snd].
  destruct (Nat.eqb t i), (Nat.eqb p j); reflexivity.
Qed.

Lemma row_sum (i n : nat) (y_true y_pred : list nat) :
  List.length y_true = List.length y_pred ->
  Forall (fun p => (p < n)%nat) y_pred ->
  list_sum (map (fun j => count_pairs i j y_true y_pred) (seq 0 n))
  = count_where (Nat.eqb i) y_true.
Proof.
  revert y_pred. induction y_true as [|t y_true IH]; intros [|p y_pred] Hlen Hp;
    try discriminate.
  - unfold count_pairs, count_where. cbn [combine filter List.length].
    apply list_sum_zero.
  - inversion Hp as [|? ? Hpn Hp']; subst.
    rewrite (map_ext _ (fun j => ((if Nat.eqb t i then if Nat.eqb p j then 1 else 0 else 0)
                                  + count_pairs i j y_true y_pred)%nat))
      by (intros j; apply count_pairs_cons).
    rewrite list_sum_map_add, (IH y_pred) by (cbn in Hlen; auto; lia).
    unfold count_where. cbn [filter].
    destruct (Nat.eqb_spec t i) as [->|Hne].
    + rewrite Nat.eqb_refl. cbn [List.length].
      rewrite indicator_sum. destruct (Nat.ltb_spec p n); lia.
    + destruct (Nat.eqb_spec i t); [congruence|].
      rewrite list_sum_zero. reflexivity.
Qed.

Lemma count_where_total (n : nat) (y : list nat) :
  Forall (fun t => (t < n)%nat) y ->
  list_sum (map (fun i => count_where (Nat.eqb i) y) (seq 0 n)) = List.length y.
Proof.
  induction y as [|t y IH]; intros Hy.
  - unfold count_where. cbn [filter List.length]. apply list_sum_zero.
  - inversion Hy as [|? ? Ht Hy']; subst.
    rewrite (map_ext _ (fun i => ((if Nat.eqb t i then 1 else 0)
                                  + count_where (Nat.eqb i) y)%nat)).
    + rewrite list_sum_map_add, (IH Hy'), indicator_sum.
      destruct (Nat.ltb_spec t n); cbn [List.length]; lia.
    + intros i. unfold count_where. cbn [filter].
      rewrite (Nat.eqb_sym i t). destruct (Nat.eqb t i); reflexivity.
Qed.

End MetricFacts.

(** X12.  With [zero_division = 0], every precision, recall and F1 score of
    the classification report is a float between 0 and 1. *)
Theorem report_metrics_bounded (y_true y_pred labels : list nat)
  (names : list string) (report : list (string * Sklearn.class_metrics)) :
  Sklearn.classification_report y_true y_pred labels names B64.zero = Ok report ->
  Forall (fun row => metrics_in_unit_interval (snd row)) report.
Proof.
  intros H. rewrite (SklearnFacts.classification_report_rows _ _ _ _ _ _ H).
  apply Forall_forall. intros row Hin. apply in_map_iff in Hin.
  destruct Hin as [nl [<- _]]. cbn [snd]. apply MetricFacts.metrics_of_in_unit.
Qed.

(** X12 on three test rows over two classes. *)
Lemma report_metrics_bounded_witness :
  exists report,
    Sklearn.classification_report [0; 1; 1]%nat [0; 0; 1]%nat [0; 1]%nat
      ["High"; "Low"] B64.zero = Ok report
    /\ Forall (fun row => metrics_in_unit_interval (snd row)) report.
Proof.
  eexists. split; [reflexivity|].
  apply (report_metrics_bounded [0; 1; 1]%nat [0; 0; 1]%nat [0; 1]%nat ["High"; "Low"]).
  reflexivity.
Defined.

(** X13.  When every test label is predicted correctly, the confusion matrix
    is diagonal, with the support of each class on the diagonal, and every
    class that occurs in the test fold has precision, recall and F1 score
    exactly 1.0. *)
Theorem perfect_prediction (y : list nat) (n : nat) (cm : list (list nat)) :
  Sklearn.confusion_matrix y y (seq 0 n) = Ok cm ->
  (forall i j, (i < n)%nat -> (j < n)%nat ->
     nth j (nth i cm []) O
     = if Nat.eqb i j then Sklearn.count_where (Nat.eqb i) y else O)
  /\ (forall l, (0 < Sklearn.count_where (Nat.eqb l) y)%nat ->
        Sklearn.precision (Sklearn.metrics_of l y y B64.zero) = B64.one
        /\ Sklearn.recall (Sklearn.metrics_of l y y B64.zero) = B64.one
        /\ Sklearn.f1_score (Sklearn.metrics_of l y y B64.zero) = B64.one).
Proof.
  intros Hcm. split.
  - intros i j Hi Hj.
    rewrite (SklearnFacts.confusion_matrix_entry y y n i j cm Hcm Hi Hj).
    apply MetricFacts.count_pairs_same.
  - intros l Hl. unfold Sklearn.metrics_of.
    cbn [Sklearn.precision Sklearn.recall Sklearn.f1_score].
    rewrite MetricFacts.count_pairs_same, Nat.eqb_refl.
    unfold Sklearn.prf_divide.
    destruct (Sklearn.count_where (Nat.eqb l) y) as [|c] eqn:Hc; [lia|].
    split; [apply MetricFacts.ratio_one; lia|].
    split; [apply MetricFacts.ratio_one; lia|].
    replace (S c + S c)%nat with (2 * S c)%nat by lia.
    destruct (2 * S c)%nat eqn:H2; [lia|]. rewrite <- H2.
    apply MetricFacts.ratio_one. lia.
Qed.

(** X13 on a test fold of three rows. *)
Lemma perfect_prediction_witness :
  exists cm,
    Sklearn.confusion_matrix [0; 2; 2]%nat [0; 2; 2]%nat (seq 0 3) = Ok cm
    /\ Sklearn.precision (Sklearn.metrics_of 2 [0; 2; 2]%nat [0; 2; 2]%nat B64.zero)
       = B64.one.
Proof.
  eexists. split; [reflexivity|].
  destruct (perfect_prediction [0; 2; 2]%nat 3 _ eq_refl) as [_ H].
  destruct (H 2%nat) as [Hp _]; [vm_compute; lia|exact Hp].
Defined.

(** X14.  When all true and predicted labels are class codes below [n], the
    confusion matrix over [0 .. n-1] counts every test row exactly once: row
    [i] adds up to the number of test rows of class [i], and all cells
    together to the number of test rows. *)
Theorem confusion_matrix_totals (y_true y_pred : list nat) (n : nat)
  (cm : list (list nat)) :
  Sklearn.confusion_matrix y_true y_pred (seq 0 n) = Ok cm ->
  Forall (fun t => (t < n)%nat) y_true ->
  Forall (fun p => (p < n)%nat) y_pred ->
  (forall i, (i < n)%nat ->
     list_sum (nth i cm []) = Sklearn.count_where (Nat.eqb i) y_true)
  /\ matrix_total cm = List.length y_true.
Proof.
  intros Hcm Ht Hp.
  assert (Hlen : List.length y_true = List.length y_pred).
  { unfold Sklearn.confusion_matrix in Hcm.
    destruct (Nat.eqb_spec (List.length y_true) (List.length y_pred)); [assumption|].
    discriminate. }
  pose proof (SklearnFacts.confusion_matrix_cells _ _ _ _ Hcm) as Hcells.
  split.
  - intros i Hi. rewrite Hcells.
    rewrite (nth_indep _ [] (map (fun j => Sklearn.count_pairs 0 j y_true y_pred) (seq 0 n)))
      by (rewrite length_map, length_seq; assumption).
    rewrite (map_nth (fun i => map (fun j => Sklearn.count_pairs i j y_true y_pred) (seq 0 n))
               (seq 0 n) O i).
    rewrite seq_nth by assumption. cbn [plus].
    apply MetricFacts.row_sum; assumption.
  - unfold matrix_total. rewrite Hcells, map_map.
    rewrite (map_ext _ (fun i => Sklearn.count_where (Nat.eqb i) y_true)).
    + apply MetricFacts.count_where_total. assumption.
    + intros i. apply MetricFacts.row_sum; assumption.
Qed.

(** X14 on three test rows over three classes. *)
Lemma confusion_matrix_totals_witness :
  exists cm,
    Sklearn.confusion_matrix [0; 1; 1]%nat [0; 0; 2]%nat (seq 0 3) = Ok cm
    /\ matrix_total cm = 3%nat.
Proof.
  eexists. split; [reflexivity|].
  apply (confusion_matrix_totals [0; 1; 1]%nat [0; 0; 2]%nat 3 _ eq_refl).
  - repeat constructor.
  - repeat constructor.
Defined.

(** ** The prediction of the AI Insights page *)

Module PredictFacts.

Lemma recommend_user_inv (col : list string) (u : string) :
  recommend_user col = Ok u ->
  In u col
  /\ (forall v, In v col -> (occurrences u col <= occurrences v col)%nat).
Proof.
  intros Hrec.
  destruct (Recommend.tally_spec col) as [Hnd [Hkeys [Hcount Horder]]].
  assert (Ht : Pandas.tally col <> []).
  { destruct col as [|x col]; [discriminate Hrec|].
    intros Hnil. assert (Hin : In x (Pandas.keys (Pandas.tally (x :: col))))
      by (apply Hkeys; left; reflexivity).
    rewrite Hnil in Hin. destruct Hin. }
  destruct (Recommend.first_min_entry_some _ Ht) as [[u' c] He].
  pose proof (Recommend.first_min_entry_spec _ _ He) as [before [after [Hsplit [Hb Ha]]]].
  assert (Hu : u' = u).
  { unfold recommend_user, Pandas.value_counts in Hrec.
    rewrite (Recommend.idxmin_first_min _ (u', c)) in Hrec.
    - injection Hrec as Hrec. exact Hrec.
    - rewrite Recommend.first_min_entry_sort. assumption. }
  subst u'.
  assert (Hin : In (u, c) (Pandas.tally col)).
  { rewrite Hsplit. apply in_or_app. right. left. reflexivity. }
  assert (Hc : c = occurrences u col) by (apply Hcount; assumption).
  split.
  { apply Hkeys. apply (in_map fst) in Hin. exact Hin. }
  intros v Hv. apply Hkeys in Hv. unfold Pandas.keys in Hv.
  apply in_map_iff in Hv. destruct Hv as [[v' cv] [Hf Hv]]. cbn in Hf. subst v'.
  rewrite (Hcount _ _ Hv) in Hv.
  rewrite Hsplit in Hv. apply in_app_or in Hv.
  destruct Hv as [H|[H|H]].
  - specialize (Hb _ H). cbn [snd] in Hb. lia.
  - injection H as ->. lia.
  - specialize (Ha _ H). cbn [snd] in Ha. lia.
Qed.

Lemma inverse_transform_one (classes : list string) (code : nat) (names : list string) :
  Sklearn.inverse_transform classes [code] = Ok names ->
  exists name, names = [name] /\ nth_error classes code = Some name.
Proof.
  cbn [Sklearn.inverse_transform]. destruct (nth_error classes code) as [name|];
    [|discriminate].
  cbn [bind]. intros H. injection H as <-. exists name. split; reflexivity.
Qed.

End PredictFacts.

Section Prediction.

Variable stem : string -> string.
Variable stopwords : list string.
Variable vec : Type.
Variable encode : list string -> list vec.
Variable train_test_split :
  list vec -> list nat -> result (list vec * list vec * list nat * list nat).
Variable linear_model : Type.
Variable logreg_fit : list vec -> list nat -> linear_model.
Variable model : Type.
Variable xgb_fit : xgb_params -> list vec -> list nat -> model.
Variable xgb_score : model -> list vec -> list nat -> B64.float64.
Variable xgb_predict : model -> list vec -> list nat.
Variable sampler : Type.
Variable suggest_int : sampler -> string -> Z -> Z -> Z * sampler.
Variable suggest_float :
  sampler -> string -> B64.float64 -> B64.float64 -> B64.float64 * sampler.
Variable tell : sampler -> trial -> sampler.

Local Abbreviation analysis_of :=
  (analyse stem stopwords vec encode train_test_split linear_model logreg_fit
     model xgb_fit xgb_score xgb_predict sampler suggest_int suggest_float tell).

Local Abbreviation prediction :=
  (predict_widgets vec encode linear_model model xgb_predict).

(** X15.  After a successful analysis, the prediction part of the page shows
    nothing unless the button was clicked with a non-empty description.
    When it shows a result, the predicted priority is one of the priorities
    of the upload, namely the class whose code the model returned for the
    embedding of the raw description, and the recommended user is an
    assignee of the upload with the fewest rows. *)
Theorem prediction_outcome (rows : list csv_row) (smp : sampler)
  (a : analysis vec linear_model model) (desc : string) (clicked : bool)
  (ws : list widget) :
  analysis_of rows smp = Ok a ->
  prediction a desc clicked = Ok ws ->
  let priorities := map row_priority (dropna rows) in
  let assignees := map row_assigned_to (dropna rows) in
  if clicked && str_truthy desc then
    exists name user,
      ws = [Success ("Predicted Priority: " ++ name);
            Info ("Recommended User: " ++ user)]
      /\ nth_error (Sklearn.np_unique priorities)
           (hd O (xgb_predict (an_priority_model a) (encode [desc]))) = Some name
      /\ In name priorities
      /\ In user assignees
      /\ (forall v, In v assignees ->
            (occurrences user assignees <= occurrences v assignees)%nat)
  else ws = [].
Proof.
  intros Ha Hw. cbv zeta.
  destruct (analyse_inv stem stopwords vec encode train_test_split linear_model
              logreg_fit model xgb_fit xgb_score xgb_predict sampler suggest_int
              suggest_float tell rows smp a Ha) as [Hdf [_ [Hcls _]]].
  unfold predict_widgets, prediction_features in Hw.
  destruct (clicked && str_truthy desc); [|injection Hw as <-; reflexivity].
  destruct (xgb_predict (an_priority_model a) (encode [desc])) as [|code rest];
    [discriminate|].
  destruct (Sklearn.inverse_transform (an_classes a) [code]) as [names|e] eqn:Hinv;
    cbn [bind] in Hw; [|discriminate].
  destruct (PredictFacts.inverse_transform_one _ _ _ Hinv) as [name [-> Hnth]].
  destruct (recommend_user (map row_assigned_to (an_frame a))) as [user|e] eqn:Hrec;
    cbn [bind] in Hw; [|discriminate].
  injection Hw as <-. rewrite Hdf in Hrec. rewrite Hcls in Hnth.
  destruct (PredictFacts.recommend_user_inv _ _ Hrec) as [Hin Hmin].
  exists name, user. cbn [hd].
  split; [reflexivity|]. split; [exact Hnth|].
  split; [apply EncoderFacts.np_unique_in; apply (nth_error_In _ _ Hnth)|].
  split; [exact Hin|exact Hmin].
Qed.

End Prediction.

(** X15 on the sample upload, where the stand-in model answers class 0. *)
Lemma prediction_outcome_witness :
  exists a name user,
    Demo.analyse Demo.upload 0%nat = Ok a
    /\ predict_widgets Demo.vec Demo.encode Demo.linear_model Demo.model
         Demo.xgb_predict a "Fix the build" true
       = Ok [Success ("Predicted Priority: " ++ name);
             Info ("Recommended User: " ++ user)]
    /\ In name (map row_priority (dropna Demo.upload))
    /\ In user (map row_assigned_to (dropna Demo.upload)).
Proof.
  assert (H : { a | Demo.analyse Demo.upload 0%nat = Ok a
                    /\ predict_widgets Demo.vec Demo.encode Demo.linear_model
                         Demo.model Demo.xgb_predict a "Fix the build" true
                       = Ok [Success "Predicted Priority: High";
                             Info "Recommended User: bob"] }).
  { eexists. split; vm_compute; reflexivity. }
  destruct H as [a [Ha Hw]].
  destruct (prediction_outcome Nltk.porter_stem Nltk.english_stopwords
              Demo.vec Demo.encode Demo.train_test_split Demo.linear_model
              Demo.logreg_fit Demo.model Demo.xgb_fit Demo.xgb_score
              Demo.xgb_predict Demo.sampler Demo.suggest_int Demo.suggest_float
              Demo.tell Demo.upload 0%nat a "Fix the build" true _ Ha Hw)
    as [name [user [Hws [_ [Hname [Huser _]]]]]].
  exists a, name, user. rewrite <- Hws.
  split; [exact Ha|]. split; [exact Hw|]. split; [exact Hname|exact Huser].
Defined.

(** ** The preprocessor *)

Module TokenFacts.

Lemma map_string_map (f g : ascii -> ascii) (s : string) :
  map_string f (map_string g s) = map_string (fun c => f (g c)) s.
Proof. induction s as [|c s IH]; cbn; [reflexivity|rewrite IH; reflexivity]. Qed.

Lemma map_string_ext (f g : ascii -> ascii) (s : string) :
  (forall c, f c = g c) -> map_string f s = map_string g s.
Proof.
  intros H. induction s as [|c s IH]; cbn; [reflexivity|].
  rewrite H, IH. reflexivity.
Qed.

Lemma forallb_string_map (p : ascii -> bool) (f : ascii -> ascii) (s : string) :
  (forall c, p (f c) = true) -> forallb_string p (map_string f s) = true.
Proof.
  intros H. induction s as [|c s IH]; cbn; [reflexivity|].
  rewrite H, IH. reflexivity.
Qed.

Lemma normalise_chars (s : string) :
  sub_non_letters (str_lower s) = map_string normal_char s.
Proof. unfold sub_non_letters, str_lower. rewrite map_string_map. reflexivity. Qed.

Lemma normal_char_joined (c : ascii) : joined_char (normal_char c) = true.
Proof.
  revert c. apply (Text.for_all_chars (fun c => joined_char (normal_char c))).
  vm_compute. reflexivity.
Qed.

Lemma normal_char_lower (c : ascii) : normal_char (lower_char c) = normal_char c.
Proof.
  apply Ascii.eqb_eq. revert c.
  apply (Text.for_all_chars
           (fun c => Ascii.eqb (normal_char (lower_char c)) (normal_char c))).
  vm_compute. reflexivity.
Qed.

Lemma normal_char_sub_ascii (c : ascii) :
  is_ascii c = true ->
  normal_char (if is_letter c then c else " "%char) = normal_char c.
Proof.
  intros H. apply Ascii.eqb_eq. revert c H.
  apply (Text.implies_on_chars is_ascii
           (fun c => Ascii.eqb (normal_char (if is_letter c then c else " "%char))
                       (normal_char c))).
  vm_compute. reflexivity.
Qed.

Lemma map_string_ext_on (p : ascii -> bool) (f g : ascii -> ascii) (s : string) :
  (forall c, p c = true -> f c = g c) ->
  forallb_string p s = true -> map_string f s = map_string g s.
Proof.
  intros H. induction s as [|c s IH]; cbn [forallb_string map_string]; [reflexivity|].
  intros Hs. apply andb_true_iff in Hs. destruct Hs as [Hc Hs].
  rewrite (H c Hc), (IH Hs). reflexivity.
Qed.

Lemma normal_char_space (c : ascii) :
  is_letter (lower_char c) = false -> normal_char c = " "%char.
Proof. unfold normal_char. intros ->. reflexivity. Qed.

(** A text of separators only has no token. *)
Lemma split_no_letters (text : string) :
  forallb_string (fun c => negb (is_letter c)) (str_lower text) = true ->
  str_split (sub_non_letters (str_lower text)) = [].
Proof.
  rewrite normalise_chars. unfold str_split, str_lower.
  induction text as [|c text IH]; [reflexivity|].
  cbn [map_string forallb_string split_from]. intros H.
  apply andb_true_iff in H. destruct H as [Hc Hrest].
  apply negb_true_iff in Hc. rewrite (normal_char_space c Hc).
  change (is_space " ") with true. cbv iota.
  change (String.eqb "" "") with true. cbv iota. apply IH. assumption.
Qed.

Lemma normalised_chars (text : string) :
  forallb_string joined_char (sub_non_letters (str_lower text)) = true.
Proof.
  rewrite normalise_chars. apply forallb_string_map. apply normal_char_joined.
Qed.

Lemma joined_char_cases (c : ascii) :
  joined_char c = true -> is_lower c = true \/ c = " "%char.
Proof.
  unfold joined_char. intros H. apply orb_true_iff in H.
  destruct H as [H|H]; [left; exact H|right; apply Ascii.eqb_eq; exact H].
Qed.

(** Splitting a text of lower-case letters and spaces gives words. *)
Lemma split_from_words (s cur : string) :
  forallb_string is_lower cur = true ->
  forallb_string joined_char s = true ->
  forallb is_word (split_from cur s) = true.
Proof.
  revert cur. induction s as [|c s IH]; intros cur Hcur Hs; cbn [split_from].
  - destruct (String.eqb cur "") eqn:He; [reflexivity|].
    cbn [forallb]. unfold is_word. rewrite He, Hcur. reflexivity.
  - cbn [forallb_string] in Hs. apply andb_true_iff in Hs. destruct Hs as [Hc Hs].
    destruct (joined_char_cases c Hc) as [Hl| ->].
    + rewrite (Text.lower_not_space c Hl). apply IH; [|assumption].
      rewrite Text.forallb_string_app, Hcur. cbn [forallb_string].
      rewrite Hl. reflexivity.
    + change (is_space " ") with true. cbv iota.
      destruct (String.eqb cur "") eqn:He; [apply IH; [reflexivity|assumption]|].
      cbn [forallb]. unfold is_word at 1. rewrite He, Hcur. cbn [negb andb].
      apply IH; [reflexivity|assumption].
Qed.

Lemma filter_forall {A : Type} (p q : A -> bool) (l : list A) :
  forallb p l = true -> forallb p (filter q l) = true.
Proof.
  induction l as [|x l IH]; [reflexivity|].
  cbn [forallb filter]. intros H. apply andb_true_iff in H. destruct H as [Hx Hl].
  destruct (q x); [cbn [forallb]; rewrite Hx; cbn [andb]|]; apply IH; assumption.
Qed.

Lemma filter_holds {A : Type} (q : A -> bool) (l : list A) :
  forallb q (filter q l) = true.
Proof.
  induction l as [|x l IH]; [reflexivity|].
  cbn [filter]. destruct (q x) eqn:Hq; [cbn [forallb]; rewrite Hq|]; exact IH.
Qed.

End TokenFacts.

(** X16.  The stemmer is only ever applied to non-empty runs of lower-case
    ASCII letters that are not stopwords: the tokens of [preprocess_text]
    are the stems of such words, so there are never more of them than words
    in the normalised text.  When the lower-cased text contains no ASCII
    letter, the result is the empty string. *)
Theorem preprocess_stems_words (stem : string -> string) (stopwords : list string)
  (text : string) :
  exists words,
    preprocess_tokens stem stopwords text = map stem words
    /\ preprocess_text stem stopwords text = str_join (map stem words)
    /\ Forall (fun w => is_word w = true /\ mem_string w stopwords = false) words
    /\ (List.length words
        <= List.length (str_split (sub_non_letters (str_lower text))))%nat
    /\ (forallb_string (fun c => negb (is_letter c)) (str_lower text) = true ->
        preprocess_text stem stopwords text = "").
Proof.
  set (tokens := str_split (sub_non_letters (str_lower text))).
  assert (Hwords : forallb is_word tokens = true).
  { apply TokenFacts.split_from_words; [reflexivity|].
    apply TokenFacts.normalised_chars. }
  exists (filter (fun word => negb (mem_string word stopwords)) tokens).
  split; [reflexivity|]. split; [reflexivity|].
  split.
  { apply Forall_forall. intros w Hw.
    pose proof (TokenFacts.filter_forall is_word
                  (fun word => negb (mem_string word stopwords)) tokens Hwords) as H1.
    pose proof (TokenFacts.filter_holds
                  (fun word => negb (mem_string word stopwords)) tokens) as H2.
    rewrite forallb_forall in H1, H2. split; [apply H1; assumption|].
    apply negb_true_iff. apply H2. assumption. }
  split; [apply filter_length_le|].
  intros Hnone. unfold preprocess_text, preprocess_tokens.
  rewrite (TokenFacts.split_no_letters text Hnone). reflexivity.
Qed.

(** X16 on a text of digits and punctuation, with NLTK's stemmer and
    stopwords. *)
Lemma preprocess_stems_words_witness :
  nltk_preprocess_text "2024-11-03: 100% (!!)" = "".
Proof.
  destruct (preprocess_stems_words Nltk.porter_stem Nltk.english_stopwords
              "2024-11-03: 100% (!!)") as [words [_ [_ [_ [_ H]]]]].
  apply H. vm_compute. reflexivity.
Defined.

(** X17.  The preprocessor ignores the case of letters, and normalising a
    text a second time changes nothing: lower-casing the text first, or
    lower-casing it and replacing its non-letters by spaces first, gives the
    same result.  For a text of ASCII characters, replacing the non-letters
    by spaces before anything else gives the same result as well. *)
Theorem preprocess_case_and_punctuation (stem : string -> string)
  (stopwords : list string) (text : string) :
  preprocess_text stem stopwords (str_lower text) = preprocess_text stem stopwords text
  /\ preprocess_text stem stopwords (sub_non_letters (str_lower text))
     = preprocess_text stem stopwords text
  /\ (forallb_string is_ascii text = true ->
      preprocess_text stem stopwords (sub_non_letters text)
      = preprocess_text stem stopwords text).
Proof.
  unfold preprocess_text, preprocess_tokens.
  split.
  { rewrite !TokenFacts.normalise_chars. unfold str_lower.
    rewrite TokenFacts.map_string_map.
    rewrite (TokenFacts.map_string_ext _ normal_char);
      [reflexivity|apply TokenFacts.normal_char_lower]. }
  split.
  { rewrite (Text.normalise_joined (sub_non_letters (str_lower text)))
      by apply TokenFacts.normalised_chars.
    reflexivity. }
  intros Hascii. rewrite !TokenFacts.normalise_chars. unfold sub_non_letters.
  rewrite TokenFacts.map_string_map.
  rewrite (TokenFacts.map_string_ext_on is_ascii _ normal_char text);
    [reflexivity|apply TokenFacts.normal_char_sub_ascii|exact Hascii].
Qed.

(** X17 on an ASCII text with capitals and punctuation. *)
Lemma preprocess_case_and_punctuation_witness :
  nltk_preprocess_text (sub_non_letters "Fix: the LOGIN-bug (now)!")
  = nltk_preprocess_text "Fix: the LOGIN-bug (now)!".
Proof.
  apply (preprocess_case_and_punctuation Nltk.porter_stem Nltk.english_stopwords
           "Fix: the LOGIN-bug (now)!").
  vm_compute. reflexivity.
Defined.

(** X18.  When the stemmer returns words for the words of a text, the result
    of [preprocess_text] consists of lower-case letters and single spaces,
    and splitting it gives back exactly the stemmed tokens. *)
Theorem preprocess_join_split (stem : string -> string) (stopwords : list string)
  (text : string) :
  forallb is_word (preprocess_tokens stem stopwords text) = true ->
  str_split (preprocess_text stem stopwords text) = preprocess_tokens stem stopwords text
  /\ forallb_string joined_char (preprocess_text stem stopwords text) = true
  /\ sub_non_letters (str_lower (preprocess_text stem stopwords text))
     = preprocess_text stem stopwords text.
Proof.
  intros H. unfold preprocess_text.
  split; [apply Text.split_join; assumption|].
  split; [apply Text.join_chars; assumption|].
  apply Text.normalise_joined. apply Text.join_chars. assumption.
Qed.

(** X18 with NLTK's stemmer and stopwords. *)
Lemma preprocess_join_split_witness :
  str_split (nltk_preprocess_text "Running the TESTS, twice!")
  = preprocess_tokens Nltk.porter_stem Nltk.english_stopwords
      "Running the TESTS, twice!".
Proof.
  apply (preprocess_join_split Nltk.porter_stem Nltk.english_stopwords
           "Running the TESTS, twice!").
  vm_compute. reflexivity.
Defined.

(** ** Runs that cannot fail *)

Module PageFacts.

Lemma completion_rate_defined (ts : list task) :
  exists rate, calculate_completion_rate ts = Ok rate.
Proof.
  destruct ts as [|t ts]; [eexists; reflexivity|].
  destruct (CompletionRate.rate_steps (t :: ts) ltac:(discriminate))
    as [q [p [k [_ [_ [Hr _]]]]]].
  eexists. exact Hr.
Qed.

Lemma dashboard_drawn (s : session_state) :
  exists rest, snd (dashboard_page s) = Ok (Header "Dashboard Overview" :: rest).
Proof.
  unfold dashboard_page. cbn [snd].
  destruct (completion_rate_defined (task_list s)) as [rate ->]. cbn [bind].
  destruct (negb (Pandas.empty (task_dataframe s))); eexists; reflexivity.
Qed.

Lemma add_task_drawn (f : add_task_form) (s : session_state) :
  exists rest, snd (add_task_page f s) = Ok (Header "Add New Task" :: rest).
Proof.
  unfold add_task_page.
  destruct (form_submitted f && str_truthy (form_description f)); eexists; reflexivity.
Qed.

Lemma tasks_drawn (c : filter_choice) (s : session_state) :
  exists rest, snd (tasks_page c s) = Ok (Header "All Tasks" :: rest).
Proof.
  unfold tasks_page.
  destruct (negb (Pandas.empty (task_dataframe s))); eexists; reflexivity.
Qed.

End PageFacts.

Section Runs.

Variable stem : string -> string.
Variable stopwords : list string.
Variable vec : Type.
Variable encode : list string -> list vec.
Variable train_test_split :
  list vec -> list nat -> result (list vec * list vec * list nat * list nat).
Variable linear_model : Type.
Variable logreg_fit : list vec -> list nat -> linear_model.
Variable model : Type.
Variable xgb_fit : xgb_params -> list vec -> list nat -> model.
Variable xgb_score : model -> list vec -> list nat -> B64.float64.
Variable xgb_predict : model -> list vec -> list nat.
Variable sampler : Type.
Variable suggest_int : sampler -> string -> Z -> Z -> Z * sampler.
Variable suggest_float :
  sampler -> string -> B64.float64 -> B64.float64 -> B64.float64 * sampler.
Variable tell : sampler -> trial -> sampler.

Local Abbreviation run :=
  (run_script stem stopwords vec encode train_test_split linear_model logreg_fit
     model xgb_fit xgb_score xgb_predict sampler suggest_int suggest_float tell).

(** X19.  Only the analysis of an uploaded file can make a run fail: on the
    Dashboard, Add Task and Tasks pages, and on AI Insights as long as no
    file is uploaded, the script raises nothing and draws the page, starting
    with its header; without an upload AI Insights draws the header alone. *)
Theorem run_without_upload (inp : inputs) (smp : sampler) (s : session_state) :
  navigation inp <> AIInsights \/ uploaded (insights inp) = None ->
  (exists title rest, snd (run inp smp s) = Ok (Header title :: rest))
  /\ (navigation inp = AIInsights ->
      run inp smp s
      = (init_session s, Ok [ Header "AI-Based Task Priority Prediction" ])).
Proof.
  intros H. unfold run_script. cbv zeta.
  destruct (navigation inp) eqn:Hnav.
  - split; [|discriminate].
    destruct (PageFacts.dashboard_drawn (init_session s)) as [rest Hr]. eauto.
  - split; [|discriminate].
    destruct (PageFacts.add_task_drawn (add_form inp) (init_session s)) as [rest Hr].
    eauto.
  - split; [|discriminate].
    destruct (PageFacts.tasks_drawn (filters inp) (init_session s)) as [rest Hr].
    eauto.
  - destruct H as [H|H]; [congruence|].
    unfold ai_insights_page. rewrite H. cbn [snd]. split; [eauto|reflexivity].
Qed.

End Runs.

(** X19 on a Dashboard run over a stored task. *)
Lemma run_without_upload_witness :
  exists title rest,
    snd (Demo.run_script
           (mkInputs Dashboard Demo.blank_form (mkChoice 0 0)
              (mkInsightsInputs None "" false))
           0%nat (mkSession (Some [new_task Demo.login_form])))
    = Ok (Header title :: rest).
Proof.
  apply (run_without_upload Nltk.porter_stem Nltk.english_stopwords
           Demo.vec Demo.encode Demo.train_test_split Demo.linear_model
           Demo.logreg_fit Demo.model Demo.xgb_fit Demo.xgb_score Demo.xgb_predict
           Demo.sampler Demo.suggest_int Demo.suggest_float Demo.tell
           (mkInputs Dashboard Demo.blank_form (mkChoice 0 0)
              (mkInsightsInputs None "" false))
           0%nat (mkSession (Some [new_task Demo.login_form]))).
  left. discriminate.
Defined.

(** ** What the AI Insights page does not use *)

Section Unused.

Variable vec : Type.
Variable encode : list string -> list vec.
Variable train_test_split :
  list vec -> list nat -> result (list vec * list vec * list nat * list nat).
Variable model : Type.
Variable xgb_fit : xgb_params -> list vec -> list nat -> model.
Variable xgb_score : model -> list vec -> list nat -> B64.float64.
Variable xgb_predict : model -> list vec -> list nat.
Variable sampler : Type.
Variable suggest_int : sampler -> string -> Z -> Z -> Z * sampler.
Variable suggest_float :
  sampler -> string -> B64.float64 -> B64.float64 -> B64.float64 * sampler.
Variable tell : sampler -> trial -> sampler.

(** X20.  What the AI Insights page draws, or the error it raises, does not
    depend on the stemmer, on the stopwords or on the classifier that
    [train_classifier] returns: the [processed] column and the logistic
    regression are computed and then used by nothing on the page. *)
Theorem insights_page_unused_results
  (stem1 stem2 : string -> string) (stopwords1 stopwords2 : list string)
  (linear_model1 linear_model2 : Type)
  (logreg_fit1 : list vec -> list nat -> linear_model1)
  (logreg_fit2 : list vec -> list nat -> linear_model2)
  (inp : insights_inputs) (smp : sampler) (s : session_state) :
  ai_insights_page stem1 stopwords1 vec encode train_test_split linear_model1
    logreg_fit1 model xgb_fit xgb_score xgb_predict sampler suggest_int
    suggest_float tell inp smp s
  = ai_insights_page stem2 stopwords2 vec encode train_test_split linear_model2
      logreg_fit2 model xgb_fit xgb_score xgb_predict sampler suggest_int
      suggest_float tell inp smp s.
Proof.
  unfold ai_insights_page. f_equal.
  destruct (uploaded inp) as [rows|]; [|reflexivity].
  unfold analyse, Sklearn.fit_transform.
  destruct (train_test_split _ _) as [[[[X_train X_test] y_train] y_test]|e];
    cbn [bind]; [|reflexivity].
  destruct (optimize_xgb _ _ _ _ _ _ _ _ _ _ _) as [m|e]; cbn [bind]; [|reflexivity].
  destruct (Sklearn.classification_report _ _ _ _ _) as [report|e];
    cbn [bind]; [|reflexivity].
  destruct (Sklearn.confusion_matrix _ _ _) as [cm|e]; cbn [bind]; [|reflexivity].
  unfold predict_widgets.
  cbn [an_frame an_classes an_priority_model an_report an_cm].
  reflexivity.
Qed.

End Unused.
